(** * Block-graph decompiler of [src/util/decompile-util.ts]

    A shallow embedding of the Scratch-to-JavaScript decompiler:
    [escapeString], [processInput], [decompileBlock],
    [findTopLevelBlocks], [generateJavaScriptFromBlocks] and the
    generation loop of [createjvavscratchProject].

    Conventions of the embedding.
    - A JavaScript string is a [string] holding its UTF-8 bytes; a lone
      surrogate is held in the same three-byte form.  Every pattern the
      source searches for is ASCII (or the three-byte cloud sign), so
      byte-wise and code-unit-wise matching agree; where the source
      indexes a string, [codeUnits] gives its UTF-16 code units.
    - A value of type [any] read from [project.json] is a [JSValue]; an
      absent property is [None].  The pairs of a [JObj] have distinct
      keys.
    - The objects the source itself uses as dictionaries are plain
      objects: besides their own properties they show the members of
      [Object.prototype], whose names are [protoKeys].  The block object
      is an association list in property enumeration order, read with
      [lookupBlock]; the two value objects are finite maps ([gmap]) of
      their own properties, read and written with [objGet], [objIn] and
      [objSet].
    - Coercing a value to a text or to a property key raises on an
      object with a property [toString], which in a parsed file is no
      function ([coercible], [toText]).
    - A thrown exception is [Throw]; the host's call-stack limit is the
      [fuel] argument of the recursive functions, and exhausting it is
      the [RangeError] the engine throws.
    - The engine's numbers ([Number], [isNaN], [toString]) are the
      parameter [JSNumbers]; statements hold for every engine, and the
      examples run on the decimal integers of [decimalNumbers].
    - The file system is the parameter [FileSystem]: every operation on
      it may fail, and statements hold whatever it does. *)

#[local] Set Warnings "-register-all".
From Stdlib Require Import String Ascii List ZArith Lia QArith Qround.
From stdpp Require Import base option list gmap strings pretty.
Import ListNotations.
Local Open Scope string_scope.
#[local] Arguments String.append !_ _ / : simpl nomatch.

(** ** Characters and string helpers *)

Definition ch_tab : ascii := "009"%char.
Definition ch_lf : ascii := "010"%char.
Definition ch_cr : ascii := "013"%char.
Definition ch_dq : ascii := "034"%char.
Definition ch_bs : ascii := "092"%char.

Definition str1 (a : ascii) : string := String a EmptyString.
Definition nl : string := str1 ch_lf.
Definition dq : string := str1 ch_dq.

(** [s.replace(/c/g, r)] for a one-character pattern. *)
Fixpoint replaceAll (c : ascii) (r : string) (s : string) : string :=
  match s with
  | EmptyString => EmptyString
  | String a s' =>
      if Ascii.eqb a c then r +:+ replaceAll c r s'
      else String a (replaceAll c r s')
  end.

(** ** [escapeString] (lines 863-870) *)

Definition escapeString (str : string) : string :=
  let s1 := replaceAll ch_bs (String ch_bs (str1 ch_bs)) str in
  let s2 := replaceAll ch_dq (String ch_bs (str1 ch_dq)) s1 in
  let s3 := replaceAll ch_lf (String ch_bs "n") s2 in
  let s4 := replaceAll ch_cr (String ch_bs "r") s3 in
  replaceAll ch_tab (String ch_bs "t") s4.

(** The five replacements seen one character at a time. *)
Definition escapeChar (a : ascii) : string :=
  if Ascii.eqb a ch_bs then String ch_bs (str1 ch_bs)
  else if Ascii.eqb a ch_dq then String ch_bs (str1 ch_dq)
  else if Ascii.eqb a ch_lf then String ch_bs "n"
  else if Ascii.eqb a ch_cr then String ch_bs "r"
  else if Ascii.eqb a ch_tab then String ch_bs "t"
  else str1 a.

Fixpoint escapeChars (s : string) : string :=
  match s with
  | EmptyString => EmptyString
  | String a s' => escapeChar a +:+ escapeChars s'
  end.

(** The decoder of the standard escape rules, as the specification
    words them:
    backslash-backslash, backslash-quote, backslash-n, backslash-r and
    backslash-t denote one character each; any other character after a
    backslash, or a backslash at the end, is not decodable. *)
Definition decodeEscape (b : ascii) : option ascii :=
  if Ascii.eqb b ch_bs then Some ch_bs
  else if Ascii.eqb b ch_dq then Some ch_dq
  else if Ascii.eqb b "n"%char then Some ch_lf
  else if Ascii.eqb b "r"%char then Some ch_cr
  else if Ascii.eqb b "t"%char then Some ch_tab
  else None.

Fixpoint decodeEscapes (s : string) : option string :=
  match s with
  | EmptyString => Some EmptyString
  | String a s' =>
      if Ascii.eqb a ch_bs then
        match s' with
        | EmptyString => None
        | String b s'' =>
            match decodeEscape b, decodeEscapes s'' with
            | Some c, Some r => Some (String c r)
            | _, _ => None
            end
        end
      else
        match decodeEscapes s' with
        | Some r => Some (String a r)
        | None => None
        end
  end.

(** No double quote outside an escape pair: the scan skips the
    character after each backslash and fails on a bare quote. *)
Fixpoint noBareQuote (s : string) : bool :=
  match s with
  | EmptyString => true
  | String a s' =>
      if Ascii.eqb a ch_bs then
        match s' with
        | EmptyString => false
        | String _ s'' => noBareQuote s''
        end
      else if Ascii.eqb a ch_dq then false
      else noBareQuote s'
  end.

(** No raw line feed, carriage return or tab anywhere. *)
Fixpoint noRawControl (s : string) : bool :=
  match s with
  | EmptyString => true
  | String a s' =>
      negb (Ascii.eqb a ch_lf) && negb (Ascii.eqb a ch_cr)
      && negb (Ascii.eqb a ch_tab) && noRawControl s'
  end.

(** ** More string primitives of the host *)

(** [' '.repeat(n)] *)
Fixpoint spaces (n : nat) : string :=
  match n with
  | O => EmptyString
  | S n' => String " "%char (spaces n')
  end.

(** [s.startsWith(p)] *)
Definition startsWith (s p : string) : bool := String.prefix p s.

(** [s.includes(p)] *)
Fixpoint includes (s p : string) : bool :=
  String.prefix p s ||
  match s with
  | EmptyString => false
  | String _ s' => includes s' p
  end.

(** [s.split(' ')[0]]: the text before the first space. *)
Fixpoint firstWord (s : string) : string :=
  match s with
  | EmptyString => EmptyString
  | String a s' => if Ascii.eqb a " "%char then EmptyString else String a (firstWord s')
  end.

(** [Array.prototype.join] on strings. *)
Definition join (sep : string) (l : list string) : string := String.concat sep l.

Definition bytes (l : list nat) : string :=
  string_of_list_ascii (map ascii_of_nat l).

(** The white space and line terminators that [String.prototype.trim]
    removes, as UTF-8 byte sequences: TAB, LF, VT, FF, CR, SP, U+00A0,
    U+1680, U+2000..U+200A, U+2028, U+2029, U+202F, U+205F, U+3000 and
    U+FEFF. *)
Definition whiteSpace : list string :=
  map bytes
    [ [9]; [10]; [11]; [12]; [13]; [32]; [194; 160]; [225; 154; 128];
      [226; 128; 128]; [226; 128; 129]; [226; 128; 130]; [226; 128; 131];
      [226; 128; 132]; [226; 128; 133]; [226; 128; 134]; [226; 128; 135];
      [226; 128; 136]; [226; 128; 137]; [226; 128; 138]; [226; 128; 168];
      [226; 128; 169]; [226; 128; 175]; [226; 129; 159]; [227; 128; 128];
      [239; 187; 191] ].

Fixpoint dropPrefix (p s : string) : option string :=
  match p, s with
  | EmptyString, _ => Some s
  | String a p', String b s' => if Ascii.eqb a b then dropPrefix p' s' else None
  | String _ _, EmptyString => None
  end.

Fixpoint dropAnyPrefix (ps : list string) (s : string) : option string :=
  match ps with
  | [] => None
  | p :: ps' =>
      match dropPrefix p s with
      | Some r => Some r
      | None => dropAnyPrefix ps' s
      end
  end.

Fixpoint stripLeading (ws : list string) (n : nat) (s : string) : string :=
  match n with
  | O => s
  | S n' =>
      match dropAnyPrefix ws s with
      | Some r => stripLeading ws n' r
      | None => s
      end
  end.

Definition reverse_string (s : string) : string :=
  string_of_list_ascii (rev (list_ascii_of_string s)).

Definition trimStart (s : string) : string :=
  stripLeading whiteSpace (String.length s) s.

Definition trimEnd (s : string) : string :=
  reverse_string
    (stripLeading (map reverse_string whiteSpace) (String.length s)
       (reverse_string s)).

(** [s.trim()] *)
Definition trim (s : string) : string := trimEnd (trimStart s).

(** The first character is an ASCII lower-case letter. *)
Definition startsLower (s : string) : bool :=
  match s with
  | EmptyString => false
  | String a _ => (97 <=? nat_of_ascii a)%nat && (nat_of_ascii a <=? 122)%nat
  end.

(** ** UTF-16 code units

    [s[i]] is the code unit at index [i].  A character of the basic
    plane, one to three bytes here, is one unit.  A character beyond it,
    four bytes here, is a pair of surrogates, and each surrogate is held
    in the three-byte form of its code. *)
Definition unitBytes (u : N) : string :=
  String (ascii_of_N (224 + u / 4096))
    (String (ascii_of_N (128 + (u / 64) mod 64))
       (str1 (ascii_of_N (128 + u mod 64)))).

Definition surrogates (a b c d : ascii) : list string :=
  let cp := ((N_of_ascii a mod 8) * 262144 + (N_of_ascii b mod 64) * 4096 +
             (N_of_ascii c mod 64) * 64 + N_of_ascii d mod 64)%N in
  let v := (cp - 65536)%N in
  [unitBytes (55296 + v / 1024); unitBytes (56320 + v mod 1024)].

Fixpoint codeUnits (s : string) : list string :=
  match s with
  | EmptyString => []
  | String a s1 =>
      if (N_of_ascii a <? 192)%N then str1 a :: codeUnits s1
      else
        match s1 with
        | EmptyString => [s]
        | String b s2 =>
            if (N_of_ascii a <? 224)%N then String a (str1 b) :: codeUnits s2
            else
              match s2 with
              | EmptyString => [s]
              | String c s3 =>
                  if (N_of_ascii a <? 240)%N
                  then String a (String b (str1 c)) :: codeUnits s3
                  else
                    match s3 with
                    | EmptyString => [s]
                    | String d s4 => (surrogates a b c d ++ codeUnits s4)%list
                    end
              end
        end
  end.

(** ** Members of [Object.prototype]

    The property names every plain object inherits, and what the
    source can observe of the inherited values: [__proto__] is an
    accessor that gives [Object.prototype] itself, every other member
    is a function, with the [length] and the text that the engine of
    Node gives it. *)
Definition protoKeys : list string :=
  [ "constructor"; "__defineGetter__"; "__defineSetter__"; "hasOwnProperty";
    "__lookupGetter__"; "__lookupSetter__"; "isPrototypeOf";
    "propertyIsEnumerable"; "toString"; "valueOf"; "__proto__";
    "toLocaleString" ].

Definition isProtoKey (k : string) : bool := existsb (String.eqb k) protoKeys.

(** [f.length], the number of declared parameters. *)
Definition functionLength (k : string) : nat :=
  if String.eqb k "__defineGetter__" || String.eqb k "__defineSetter__" then 2
  else if String.eqb k "toString" || String.eqb k "valueOf" ||
          String.eqb k "toLocaleString" then 0
  else 1.

(** [String(f)]; the member [constructor] is the function [Object]. *)
Definition nativeFunctionText (k : string) : string :=
  "function " +:+ (if String.eqb k "constructor" then "Object" else k) +:+
  "() { [native code] }".

(** ** Numbers of the host

    The decompiler never calculates with numbers: it prints them, tests
    them for truth, and converts strings with [Number].  These
    primitives of the engine are a parameter of the development.
    [Number_word_NaN] is the one fact of ECMAScript's [StringToNumber]
    the proofs use: a numeric literal starts with a digit, a sign, a
    dot, white space or the capital I of [Infinity], so a string that
    starts with a lower-case letter converts to [NaN]. *)
Class JSNumbers := {
  num : Type;
  num_lit : nat -> num;
  js_Number : string -> num;
  js_isNaN : num -> bool;
  num_toString : num -> string;
  num_truthy : num -> bool;
  Number_word_NaN : forall s, startsLower s = true -> js_isNaN (js_Number s) = true
}.

(** [x > 0] on a number, read off the text ECMAScript prints for it:
    a number is positive when it is neither zero nor [NaN] and its text
    has no minus sign. *)
Definition positive {N : JSNumbers} (n : num) : bool :=
  num_truthy n && negb (String.prefix "-" (num_toString n)).

(** ** Exceptions *)

Inductive JSError : Type :=
| TypeError
| RangeError.

Inductive Outcome (A : Type) : Type :=
| Ok (a : A)
| Throw (e : JSError).
Arguments Ok {A} a.
Arguments Throw {A} e.

Definition bindO {A B : Type} (m : Outcome A) (k : A -> Outcome B) : Outcome B :=
  match m with
  | Ok a => k a
  | Throw e => Throw e
  end.

Notation "x <~ m ; k" := (bindO m (fun x => k))
  (at level 100, m at next level, right associativity).

(** ** Files of the host

    What [createjvavscratchProject] does to the project directory, as
    operations on a state [Files] of the file system.  Each gives the
    state it leaves and whether it succeeded; a failed one has thrown.
    - [makeDirectory fs name] is [mkdirSync(join(srcDir, name))];
    - [writeSource fs name code] is
      [writeFileSync(join(join(srcDir, name), name + '.js'), code)];
    - [finishProject fs sprites] is the end of the function: the
      manifest [project.d.json] that lists [sprites], [copyAssets] and
      [fillDefaults]. *)
Class FileSystem := {
  Files : Type;
  makeDirectory : Files -> string -> Files * bool;
  writeSource : Files -> string -> string -> Files * bool;
  finishProject : Files -> list string -> Files * bool
}.

Section Model.

Context {N : JSNumbers}.

(** ** Values and blocks *)

(** A value parsed from [project.json].  The pairs of a [JObj] are in
    property enumeration order. *)
Inductive JSValue : Type :=
| JNull
| JBool (b : bool)
| JNum (n : num)
| JStr (s : string)
| JArr (l : list JSValue)
| JObj (o : list (string * JSValue)).

(** Own-property lookup in an object given as an association list. *)
Fixpoint assoc {A : Type} (k : string) (l : list (string * A)) : option A :=
  match l with
  | [] => None
  | (k', v) :: l' => if String.eqb k' k then Some v else assoc k l'
  end.

(** JavaScript truthiness. *)
Definition truthy (v : JSValue) : bool :=
  match v with
  | JNull => false
  | JBool b => b
  | JNum n => num_truthy n
  | JStr s => negb (String.eqb s "")
  | JArr _ | JObj _ => true
  end.

(** The text of [String(v)], the coercion of a template literal, of [+]
    with a string and of a property key, when that coercion succeeds
    ([coercible]); an array prints its elements separated by commas,
    with [null] printed as nothing. *)
Fixpoint js_toString (v : JSValue) : string :=
  match v with
  | JNull => "null"
  | JBool true => "true"
  | JBool false => "false"
  | JNum n => num_toString n
  | JStr s => s
  | JArr l =>
      join ","
        ((fix elems (l : list JSValue) : list string :=
            match l with
            | [] => []
            | JNull :: l' => "" :: elems l'
            | x :: l' => js_toString x :: elems l'
            end) l)
  | JObj _ => "[object Object]"
  end.

(** The coercion to a text raises on an object with an own property
    [toString]: the property is no function, and the inherited
    [valueOf] gives the object itself.  An array coerces each of its
    elements. *)
Fixpoint coercible (v : JSValue) : bool :=
  match v with
  | JArr l =>
      (fix all (l : list JSValue) : bool :=
         match l with
         | [] => true
         | x :: l' => coercible x && all l'
         end) l
  | JObj o => match assoc "toString" o with Some _ => false | None => true end
  | JNull | JBool _ | JNum _ | JStr _ => true
  end.

(** [String(v)], with the [TypeError] of a failed coercion. *)
Definition toText (v : JSValue) : Outcome string :=
  if coercible v then Ok (js_toString v) else Throw TypeError.

(** [arr.join(sep)] on an array of values that can be coerced. *)
Definition joinValues (sep : string) (l : list JSValue) : string :=
  join sep (map (fun x => match x with JNull => "" | _ => js_toString x end) l).

(** [v?.[0]] and [v[1]]: an element of an array, a code unit of a
    string, the property of that name of an object; [undefined], here
    [None], otherwise. *)
Definition index0 (v : JSValue) : option JSValue :=
  match v with
  | JArr (x :: _) => Some x
  | JStr s => match codeUnits s with u :: _ => Some (JStr u) | [] => None end
  | JObj o => assoc "0" o
  | _ => None
  end.

Definition index1 (v : JSValue) : option JSValue :=
  match v with
  | JArr (_ :: x :: _) => Some x
  | JStr s => match codeUnits s with _ :: u :: _ => Some (JStr u) | _ => None end
  | JObj o => assoc "1" o
  | _ => None
  end.

(** [x || d] with a string default. *)
Definition orDefault (x : option JSValue) (d : string) : JSValue :=
  match x with
  | Some v => if truthy v then v else JStr d
  | None => JStr d
  end.

(** [escapeString(v)]: [v.replace] exists on strings only. *)
Definition escapeValue (v : JSValue) : Outcome string :=
  match v with
  | JStr s => Ok (escapeString s)
  | _ => Throw TypeError
  end.

(** Procedure metadata. *)
Record Mutation : Type := {
  proccode : option string;
  inputids : option (list string);
  paramnames : option (list string)
}.

(** A block, with its [fields] and [inputs] objects, as every block of
    a project file has them (where they are absent, every access but
    that of a procedure call to its arguments reads like on empty
    ones); [next] is [None] for [null]. *)
Record Block : Type := {
  opcode : string;
  fields : list (string * JSValue);
  inputs : list (string * JSValue);
  mutation : option Mutation;
  next : option string
}.

(** The block object of one target is a [list (string * Block)]:
    identifiers with their blocks, in the order [Object.keys] lists
    them. *)

(** What [blocks[id]] gives when it is not [undefined]: a block of the
    map, or a member of [Object.prototype] when [id] is the name of one
    and no block has that identifier.  Such a member is truthy and has
    no [opcode]. *)
Inductive Member : Type :=
| OwnBlock (b : Block)
| InheritedMember.

(** [blocks[id]] *)
Definition lookupBlock (blocks : list (string * Block)) (id : string) : option Member :=
  match assoc id blocks with
  | Some b => Some (OwnBlock b)
  | None => if isProtoKey id then Some InheritedMember else None
  end.

(** [block.fields?.F?.[0]] *)
Definition field0 (b : Block) (f : string) : option JSValue :=
  match assoc f (fields b) with
  | Some v => index0 v
  | None => None
  end.

(** [block.next && blocks[block.next]] *)
Definition nextBlock (blocks : list (string * Block)) (b : Block) : option (string * Member) :=
  match next b with
  | Some id =>
      if String.eqb id "" then None
      else match lookupBlock blocks id with
           | Some m => Some (id, m)
           | None => None
           end
  | None => None
  end.

(** [block.inputs?.S && block.inputs.S[1] && blocks[block.inputs.S[1]]] *)
Definition substackBlock (blocks : list (string * Block)) (b : Block) (name : string)
  : option (string * Member) :=
  match assoc name (inputs b) with
  | Some v =>
      if truthy v then
        match index1 v with
        | Some x =>
            if truthy x then
              match lookupBlock blocks (js_toString x) with
              | Some m => Some (js_toString x, m)
              | None => None
              end
            else None
        | None => None
        end
      else None
  | None => None
  end.

(** The coercion of [block.inputs.S[1]] to a property key, which
    [blocks[...]] asks for when that value and the input are truthy. *)
Definition keyCoerces (b : Block) (name : string) : bool :=
  match assoc name (inputs b) with
  | Some v =>
      if truthy v then
        match index1 v with
        | Some x => if truthy x then coercible x else true
        | None => true
        end
      else true
  | None => true
  end.

(** ** Opcode dispatch

    The [switch] of [decompileBlock] has one case per opcode; cases of
    the same form share a constructor here, and [opcodeTable] lists the
    case labels with the texts and the field and input names of each. *)
Inductive Shape : Type :=
| SHat                                            (* comment, then the chain *)
| SReturnField (f d : string)                     (* return field || d *)
| SAssign (change : bool)                         (* v = x;  or  v = v + x; *)
| SListCall (fn : string) (ins : list string)     (* list.fn("l", args); *)
| SListExpr (fn : string) (ins : list string)     (* return list.fn("l", args) *)
| SRepeat
| SRepeatUntil
| SIf
| SIfElse
| SCallEsc (fn f : string) (ins : list string)    (* fn("escaped field", args); *)
| SBinary (tok : string)                          (* return a tok b *)
| SNot
| SJoin
| SProcDef
| SProcCall
| SCallField (fn f d : string)                    (* fn(field || d); *)
| SCallInputs (fn : string) (ins : list string)   (* fn(args); *)
| SExprEsc (fn f : string)                        (* return fn("escaped field") *)
| SExprConst (s : string)                         (* return s *)
| SDefault.

Definition opcodeTable : list (string * Shape) :=
  [ ("event_whenflagclicked", SHat);
    ("data_variable", SReturnField "VARIABLE" "my variable");
    ("data_listcontents", SReturnField "LIST" "my list");
    ("data_setvariableto", SAssign false);
    ("data_changevariableby", SAssign true);
    ("data_addtolist", SListCall "addItem" ["ITEM"]);
    ("data_deletealloflist", SListCall "deleteAllOfList" []);
    ("data_deleteoflist", SListCall "deleteItem" ["INDEX"]);
    ("data_replaceitemoflist", SListCall "replace" ["INDEX"; "ITEM"]);
    ("data_itemoflist", SListExpr "getItem" ["INDEX"]);
    ("data_lengthoflist", SListExpr "length" []);
    ("control_repeat", SRepeat);
    ("control_repeat_until", SRepeatUntil);
    ("control_if", SIf);
    ("control_if_else", SIfElse);
    ("looks_say", SCallEsc "looks.say" "MESSAGE" []);
    ("operator_equals", SBinary "==");
    ("operator_greaterthan", SBinary ">");
    ("operator_gt", SBinary ">");
    ("operator_lessthan", SBinary "<");
    ("operator_lt", SBinary "<");
    ("operator_not", SNot);
    ("operator_add", SBinary "+");
    ("operator_subtract", SBinary "-");
    ("operator_multiply", SBinary "*");
    ("operator_divide", SBinary "/");
    ("operator_join", SJoin);
    ("procedures_definition", SProcDef);
    ("procedures_call", SProcCall);
    ("motion_movesteps", SCallField "motion.moveSteps" "STEPS" "10");
    ("motion_turnright", SCallField "motion.turnRight" "DEGREES" "15");
    ("motion_turnleft", SCallField "motion.turnLeft" "DEGREES" "15");
    ("motion_gotoxy", SCallInputs "motion.goTo" ["X"; "Y"]);
    ("motion_changexby", SCallInputs "motion.changeX" ["DX"]);
    ("motion_changeyby", SCallInputs "motion.changeY" ["DY"]);
    ("motion_pointindirection", SCallInputs "motion.pointInDirection" ["DIRECTION"]);
    ("motion_glidesecstoxy", SCallInputs "motion.glideTo" ["SECONDS"; "X"; "Y"]);
    ("looks_sayforsecs", SCallEsc "looks.sayForSeconds" "MESSAGE" ["SECONDS"]);
    ("looks_think", SCallEsc "looks.think" "MESSAGE" []);
    ("looks_thinkforsecs", SCallEsc "looks.thinkForSeconds" "MESSAGE" ["SECONDS"]);
    ("looks_show", SCallInputs "looks.show" []);
    ("looks_hide", SCallInputs "looks.hide" []);
    ("looks_switchcostumeto", SCallEsc "looks.switchCostumeTo" "COSTUME" []);
    ("looks_nextcostume", SCallInputs "looks.nextCostume" []);
    ("looks_setsizeto", SCallInputs "looks.setSizeTo" ["SIZE"]);
    ("looks_changesizoby", SCallInputs "looks.changeSizeBy" ["SIZE"]);
    ("sound_play", SCallEsc "sound.playSound" "SOUND_MENU" []);
    ("sound_playuntildone", SCallEsc "sound.playSoundUntilDone" "SOUND_MENU" []);
    ("sound_stopallsounds", SCallInputs "sound.stopAllSounds" []);
    ("sound_changevolumeby", SCallInputs "sound.changeVolumeBy" ["VOLUME"]);
    ("sound_setvolumeto", SCallInputs "sound.setVolumeTo" ["VOLUME"]);
    ("sensing_touchingobject", SExprEsc "sensing.isTouching" "TOUCHINGOBJECT");
    ("sensing_mousedown", SExprConst "sensing.mouseDown()");
    ("sensing_mousex", SExprConst "sensing.mouseX()");
    ("sensing_mousey", SExprConst "sensing.mouseY()");
    ("sensing_keyoptions", SExprEsc "sensing.keyPressed" "KEY_OPTION");
    ("control_wait", SCallInputs "control.wait" ["DURATION"]);
    ("control_stop", SCallEsc "control.stop" "STOP_OPTION" []) ].

Definition classify (op : string) : Shape :=
  match assoc op opcodeTable with
  | Some sh => sh
  | None => SDefault
  end.

(** The comment of the [default] case. *)
Definition defaultComment (op : string) : string :=
  if includes op "motion_" then "// Motion block: " +:+ op
  else if includes op "looks_" then "// Looks block: " +:+ op
  else if includes op "sound_" then "// Sound block: " +:+ op
  else if includes op "sensing_" then "// Sensing block: " +:+ op
  else "// Unsupported block: " +:+ op.

(** What one case of the [switch] does: [return] a text at once, or
    extend [code] and [break], after which the "next" chain follows. *)
Inductive Emitted : Type :=
| Returned (s : string)
| Appended (code : string).

Fixpoint mapO {A B : Type} (f : A -> Outcome B) (l : list A) : Outcome (list B) :=
  match l with
  | [] => Ok []
  | x :: l' => y <~ f x; ys <~ mapO f l'; Ok (y :: ys)
  end.

(** Every text of [args], each preceded by [", "]. *)
Definition commaArgs (args : list string) : string :=
  String.concat "" (map (fun a => ", " +:+ a) args).

(** ** [processInput] (lines 738-785) *)

(** The opcodes whose text [processInput] returns untrimmed. *)
Definition isExpressionOpcode (op : string) : bool :=
  startsWith op "operator_" || startsWith op "data_itemoflist" ||
  startsWith op "data_lengthoflist" || startsWith op "sensing_" ||
  String.eqb op "data_variable" || String.eqb op "data_listcontents".

(** The names that a literal input keeps without quotes. *)
Definition knownNames : list string :=
  ["i"; "j"; "k"; "len"; "current"; "next"; "result"; "separator"].

Definition isKnownName (value : string) : bool :=
  existsb (String.eqb value) knownNames.

(** The literal branch: [value] is [inputData[1]]. *)
Definition processLiteral (value : JSValue) : Outcome string :=
  match value with
  | JStr s =>
      let numValue := js_Number s in
      if negb (js_isNaN numValue) && negb (String.eqb (trim s) "")
      then Ok (num_toString numValue)
      else if isKnownName s then Ok s
      else Ok (dq +:+ escapeString s +:+ dq)
  | JNull => Throw TypeError            (* null.toString() *)
  | v => toText v                       (* value.toString() *)
  end.

(** [processInput] with the recursive call to [decompileBlock] as the
    parameter [dec].  On an inherited member the test of the opcode
    fails: [referencedBlock.opcode] is [undefined]. *)
Definition processInput_with
    (dec : list (string * Block) -> string -> Block -> nat -> Outcome string)
    (blocks : list (string * Block)) (input : option JSValue)
    (indentation : nat) : Outcome string :=
  match input with
  | Some (JArr (inputType :: inputData :: _)) =>
      match inputData with
      | JStr ref =>
          match lookupBlock blocks ref with
          | Some (OwnBlock referencedBlock) =>
              if isExpressionOpcode (opcode referencedBlock)
              then dec blocks ref referencedBlock indentation
              else r <~ dec blocks ref referencedBlock indentation; Ok (trim r)
          | Some InheritedMember => Throw TypeError
          | None => Ok "null"
          end
      | JArr (_ :: value :: _) => processLiteral value
      | _ => Ok "null"
      end
  | _ => Ok "null"
  end.

(** ** [decompileBlock] (lines 345-729) *)

(** [block.fields?.F?.[0] || d], as the text a template prints. *)
Definition fieldText (b : Block) (f d : string) : Outcome string :=
  toText (orDefault (field0 b f) d).

(** The parameter names of a procedure definition. *)
Definition procParamNames (b : Block) : list string :=
  match mutation b with
  | Some m =>
      match inputids m with
      | Some ids =>
          imap (fun index _ =>
                  match paramnames m with
                  | Some ps => nth index ps ""
                  | None => "param" +:+ pretty (index + 1)%nat
                  end) ids
      | None => []
      end
  | None => []
  end.

(** [block.mutation?.proccode?.split(' ')[0] || 'customBlock'] *)
Definition procCallName (b : Block) : string :=
  match mutation b with
  | Some m =>
      match proccode m with
      | Some p => if String.eqb (firstWord p) "" then "customBlock" else firstWord p
      | None => "customBlock"
      end
  | None => "customBlock"
  end.

(** The inputs of a procedure call that are truthy, in the order of
    [mutation.inputids].  Under an identifier that is the name of a
    member of [Object.prototype], and not an input of the block,
    [block.inputs[id]] is that member: it is truthy and [processInput]
    reads it like an absent input, here [None]. *)
Definition procCallInputs (b : Block) : list (option JSValue) :=
  match mutation b with
  | Some m =>
      match inputids m with
      | Some ids =>
          omap (fun id =>
                  match assoc id (inputs b) with
                  | Some v => if truthy v then Some (Some v) else None
                  | None => if isProtoKey id then Some None else None
                  end) ids
      | None => []
      end
  | None => []
  end.

(** The recursive calls of [decompileBlock], with the function called
    as the parameter [dec]: an input of the block, the chain that
    starts at a block when there is one, and a nested body one level
    deeper.  Called on an inherited member, [decompileBlock] reaches
    the [default] case, where [block.opcode.includes] fails. *)
Definition inputOf
    (dec : list (string * Block) -> string -> Block -> nat -> Outcome string)
    (blocks : list (string * Block)) (block : Block) (indentation : nat)
    (name : string) : Outcome string :=
  processInput_with dec blocks (assoc name (inputs block)) indentation.

Definition chainOf
    (dec : list (string * Block) -> string -> Block -> nat -> Outcome string)
    (blocks : list (string * Block)) (target : option (string * Member))
    (indentation : nat) : Outcome string :=
  match target with
  | Some (id, OwnBlock b) => dec blocks id b indentation
  | Some (_, InheritedMember) => Throw TypeError
  | None => Ok ""
  end.

Definition bodyOf
    (dec : list (string * Block) -> string -> Block -> nat -> Outcome string)
    (blocks : list (string * Block)) (block : Block) (indentation : nat)
    (name : string) : Outcome string :=
  if keyCoerces block name
  then chainOf dec blocks (substackBlock blocks block name) (indentation + 1)%nat
  else Throw TypeError.

(** The [switch] (lines 350-721).  A field is coerced where its
    template is evaluated, after the inputs that the case reads before
    it.  The two cases that return a field return the value itself and
    every caller coerces it, at once where it is appended and in the
    template of the case where it is an input; the model coerces it
    where it is returned.  The two differ on one kind of block only: a
    case whose earlier input is such a field that cannot be coerced and
    whose later input exhausts the stack, where the code reports the
    exhaustion and the model the coercion. *)
Definition emitBlock
    (dec : list (string * Block) -> string -> Block -> nat -> Outcome string)
    (blocks : list (string * Block)) (block : Block) (indentation : nat)
  : Outcome Emitted :=
  let indent := spaces (indentation * 4) in
  let input := inputOf dec blocks block indentation in
  let body := bodyOf dec blocks block indentation in
  match classify (opcode block) with
  | SHat =>
      rest <~ chainOf dec blocks (nextBlock blocks block) indentation;
      Ok (Appended (indent +:+ "// When green flag clicked" +:+ nl +:+ rest))
  | SReturnField f d => v <~ fieldText block f d; Ok (Returned v)
  | SAssign change =>
      x <~ input "VALUE";
      v <~ fieldText block "VARIABLE" "my variable";
      Ok (Appended (indent +:+ v +:+ " = " +:+
                    (if change then v +:+ " + " else "") +:+ x +:+ ";" +:+ nl))
  | SListCall fn ins =>
      args <~ mapO input ins;
      l <~ fieldText block "LIST" "my list";
      Ok (Appended (indent +:+ "list." +:+ fn +:+ "(" +:+ dq +:+ l +:+ dq +:+
                    commaArgs args +:+ ");" +:+ nl))
  | SListExpr fn ins =>
      args <~ mapO input ins;
      l <~ fieldText block "LIST" "my list";
      Ok (Returned ("list." +:+ fn +:+ "(" +:+ dq +:+ l +:+ dq +:+
                    commaArgs args +:+ ")"))
  | SRepeat =>
      times <~ fieldText block "TIMES" "10";
      b <~ body "SUBSTACK";
      Ok (Appended (indent +:+ "for (let i = 0; i < " +:+ times +:+ "; i++) {" +:+ nl +:+
                    b +:+ indent +:+ "}" +:+ nl))
  | SRepeatUntil =>
      c <~ input "CONDITION";
      b <~ body "SUBSTACK";
      Ok (Appended (indent +:+ "while (" +:+ c +:+ ") {" +:+ nl +:+
                    b +:+ indent +:+ "}" +:+ nl))
  | SIf =>
      c <~ input "CONDITION";
      b <~ body "SUBSTACK";
      Ok (Appended (indent +:+ "if (" +:+ c +:+ ") {" +:+ nl +:+
                    b +:+ indent +:+ "}" +:+ nl))
  | SIfElse =>
      c <~ input "CONDITION";
      b <~ body "SUBSTACK";
      b2 <~ body "SUBSTACK2";
      Ok (Appended (indent +:+ "if (" +:+ c +:+ ") {" +:+ nl +:+
                    b +:+ indent +:+ "} else {" +:+ nl +:+
                    b2 +:+ indent +:+ "}" +:+ nl))
  | SCallEsc fn f ins =>
      let m := orDefault (field0 block f) "" in
      args <~ mapO input ins;
      e <~ escapeValue m;
      Ok (Appended (indent +:+ fn +:+ "(" +:+ dq +:+ e +:+ dq +:+
                    commaArgs args +:+ ");" +:+ nl))
  | SBinary tok =>
      a <~ input "OPERAND1";
      b <~ input "OPERAND2";
      Ok (Returned (a +:+ " " +:+ tok +:+ " " +:+ b))
  | SNot =>
      a <~ input "OPERAND";
      Ok (Returned ("!(" +:+ a +:+ ")"))
  | SJoin =>
      a <~ input "STRING1";
      b <~ input "STRING2";
      Ok (Returned ("operation.join(" +:+ a +:+ ", " +:+ b +:+ ")"))
  | SProcDef =>
      match orDefault (field0 block "custom_block") "customBlock" with
      | JStr procCode =>
          let procName := firstWord procCode in
          let paramNames := procParamNames block in
          b <~ body "custom_block_substack";
          Ok (Appended (indent +:+ "function " +:+ procName +:+ "(" +:+
                        join ", " paramNames +:+ ") {" +:+ nl +:+
                        b +:+ indent +:+ "}" +:+ nl))
      | _ => Throw TypeError            (* procCode.split *)
      end
  | SProcCall =>
      args <~ mapO (fun input => processInput_with dec blocks input indentation)
                   (procCallInputs block);
      Ok (Appended (indent +:+ procCallName block +:+ "(" +:+
                    join ", " args +:+ ");" +:+ nl))
  | SCallField fn f d =>
      v <~ fieldText block f d;
      Ok (Appended (indent +:+ fn +:+ "(" +:+ v +:+ ");" +:+ nl))
  | SCallInputs fn ins =>
      args <~ mapO input ins;
      Ok (Appended (indent +:+ fn +:+ "(" +:+ join ", " args +:+ ");" +:+ nl))
  | SExprEsc fn f =>
      e <~ escapeValue (orDefault (field0 block f) "");
      Ok (Returned (fn +:+ "(" +:+ dq +:+ e +:+ dq +:+ ")"))
  | SExprConst s => Ok (Returned s)
  | SDefault => Ok (Appended (indent +:+ defaultComment (opcode block) +:+ nl))
  end.

(** The whole body: the [switch], then the "next" chain after a
    [break] (lines 723-728). *)
Definition decompileStep
    (dec : list (string * Block) -> string -> Block -> nat -> Outcome string)
    (blocks : list (string * Block)) (blockId : string) (block : Block)
    (indentation : nat) : Outcome string :=
  r <~ emitBlock dec blocks block indentation;
  match r with
  | Returned s => Ok s
  | Appended code =>
      rest <~ chainOf dec blocks (nextBlock blocks block) indentation;
      Ok (code +:+ rest)
  end.

(** [fuel] bounds the depth of the nested calls; at depth zero the
    engine reports stack exhaustion. *)
Fixpoint decompileBlock (fuel : nat) (blocks : list (string * Block))
    (blockId : string) (block : Block) (indentation : nat) {struct fuel}
  : Outcome string :=
  match fuel with
  | O => Throw RangeError
  | S fuel' => decompileStep (decompileBlock fuel') blocks blockId block indentation
  end.

Definition processInput (fuel : nat) (blocks : list (string * Block))
    (input : option JSValue) (indentation : nat) : Outcome string :=
  processInput_with (decompileBlock fuel) blocks input indentation.

(** ** [findTopLevelBlocks] (lines 297-335) *)

(** The identifier an input contributes to [childBlocks]: the second
    element of an array of two or more elements, when it is a string. *)
Definition inputChild (input : JSValue) : option string :=
  match input with
  | JArr (_ :: JStr id :: _) => Some id
  | _ => None
  end.

(** The truthy [next] of a block. *)
Definition nextChild (b : Block) : option string :=
  match next b with
  | Some id => if String.eqb id "" then None else Some id
  | None => None
  end.

Definition blockChildren (b : Block) : list string :=
  omap inputChild (map snd (inputs b)) ++
  match nextChild b with Some id => [id] | None => [] end.

(** [childBlocks] after the first loop. *)
Definition childBlocks (blocks : list (string * Block)) : gset string :=
  fold_left (fun (acc : gset string) (kb : string * Block) =>
               acc ∪ list_to_set (blockChildren kb.2))
            blocks ∅.

(** One step of the third loop: an event block not yet listed. *)
Definition pushEvent (top : list string) (kb : string * Block) : list string :=
  if startsWith (opcode kb.2) "event_" && negb (bool_decide (kb.1 ∈ top))
  then top ++ [kb.1] else top.

Definition findTopLevelBlocks (blocks : list (string * Block)) : list string :=
  let children := childBlocks blocks in
  let allBlockIds := map fst blocks in
  let topLevelBlockIds :=
    List.filter (fun blockId => negb (bool_decide (blockId ∈ children))) allBlockIds in
  fold_left pushEvent blocks topLevelBlockIds.

(** ** [generateJavaScriptFromBlocks] (lines 171-290) *)

(** The cloud sign U+2601. *)
Definition cloud : string := bytes [226; 152; 129].

(** [x !== cloud] fails for the string [cloud] only. *)
Definition isCloud (x : JSValue) : bool :=
  match x with
  | JStr s => String.eqb s cloud
  | _ => false
  end.

(** *** The two [Set]s

    A [Set] holds raw values, in insertion order.  Two primitives are
    the same member when they are the same value; for numbers that is
    having the same text, since ECMAScript prints two numbers alike
    only when they are equal, [NaN] counting as equal to itself and the
    two zeros to each other.  An array or an object parsed from the
    file is a member of its own, whatever it holds. *)
Definition sameValueZero (x y : JSValue) : bool :=
  match x, y with
  | JNull, JNull => true
  | JBool a, JBool b => Bool.eqb a b
  | JNum a, JNum b => String.eqb (num_toString a) (num_toString b)
  | JStr a, JStr b => String.eqb a b
  | _, _ => false
  end.

(** [Set.prototype.add] *)
Definition setAdd (x : JSValue) (l : list JSValue) : list JSValue :=
  if existsb (sameValueZero x) l then l else l ++ [x].

(** *** The two value objects

    Each is a plain object, created empty; the map holds its own
    properties, the property key of a name being its text. *)

(** What [obj[k]] gives. *)
Inductive Read : Type :=
| Own (v : JSValue)
| InheritedFunction (k : string)
| InheritedPrototype
| Undefined.

(** [obj[k]] *)
Definition objGet (obj : gmap string JSValue) (k : string) : Read :=
  match obj !! k with
  | Some v => Own v
  | None =>
      if String.eqb k "__proto__" then InheritedPrototype
      else if isProtoKey k then InheritedFunction k
      else Undefined
  end.

(** [k in obj] *)
Definition objIn (obj : gmap string JSValue) (k : string) : bool :=
  match obj !! k with
  | Some _ => true
  | None => isProtoKey k
  end.

(** An assignment to [__proto__] calls the setter of
    [Object.prototype]: it never makes an own property.  A primitive is
    ignored; an object, an array or [null] becomes the prototype of the
    object assigned to. *)
Definition replacesPrototype (k : string) (v : JSValue) : bool :=
  String.eqb k "__proto__" &&
  match v with
  | JNull | JArr _ | JObj _ => true
  | _ => false
  end.

(** [obj[k] = v].  What an object inherits once its prototype is
    replaced is not modelled, [objSet] leaves the object as it is then;
    the statements about what is read from a value object are for
    declarations that keep the prototype ([prototypeKept]). *)
Definition objSet (obj : gmap string JSValue) (k : string) (v : JSValue)
  : gmap string JSValue :=
  if String.eqb k "__proto__" then obj else <[k := v]> obj.

(** The two [Set]s [foundVariables] and [foundLists], and the two value
    objects. *)
Record Collected : Type := {
  variableSet : list JSValue;
  listSet : list JSValue;
  variableInitialValues : gmap string JSValue;
  listInitialValues : gmap string JSValue
}.

(** The names found, as the preamble prints them. *)
Definition foundVariables (c : Collected) : list string :=
  map js_toString (variableSet c).

Definition foundLists (c : Collected) : list string :=
  map js_toString (listSet c).

(** The entries of a declaration object in either shape: the elements
    of an array, or the values of an object. *)
Definition declEntries (decls : JSValue) : list JSValue :=
  match decls with
  | JArr l => l
  | JObj o => map snd o
  | _ => []
  end.

(** [variable[1] !== undefined ? variable[1] : ""] *)
Definition declaredValue (rest : list JSValue) : JSValue :=
  match rest with
  | v :: _ => v
  | [] => JStr ""
  end.

(** [list[1] || []] *)
Definition declaredItems (rest : list JSValue) : JSValue :=
  match rest with
  | v :: _ => if truthy v then v else JArr []
  | [] => JArr []
  end.

Definition declareVariable (c : Collected) (variable : JSValue) : Collected :=
  match variable with
  | JArr (name :: rest) =>
      if truthy name && negb (isCloud name) then
        {| variableSet := setAdd name (variableSet c);
           listSet := listSet c;
           variableInitialValues :=
             objSet (variableInitialValues c) (js_toString name) (declaredValue rest);
           listInitialValues := listInitialValues c |}
      else c
  | _ => c
  end.

Definition declareList (c : Collected) (entry : JSValue) : Collected :=
  match entry with
  | JArr (name :: rest) =>
      if truthy name then
        {| variableSet := variableSet c;
           listSet := setAdd name (listSet c);
           variableInitialValues := variableInitialValues c;
           listInitialValues :=
             objSet (listInitialValues c) (js_toString name) (declaredItems rest) |}
      else c
  | _ => c
  end.

(** The scan of one block (lines 221-235). *)
Definition scanBlock (c : Collected) (kb : string * Block) : Collected :=
  let block := kb.2 in
  if String.eqb (opcode block) "data_setvariableto" ||
     String.eqb (opcode block) "data_changevariableby" then
    match field0 block "VARIABLE" with
    | Some v =>
        if truthy v && negb (isCloud v) then
          {| variableSet := setAdd v (variableSet c);
             listSet := listSet c;
             variableInitialValues :=
               if objIn (variableInitialValues c) (js_toString v)
               then variableInitialValues c
               else objSet (variableInitialValues c) (js_toString v) (JStr "");
             listInitialValues := listInitialValues c |}
        else c
    | None => c
    end
  else if startsWith (opcode block) "data_" then
    match field0 block "LIST" with
    | Some v =>
        if truthy v then
          {| variableSet := variableSet c;
             listSet := setAdd v (listSet c);
             variableInitialValues := variableInitialValues c;
             listInitialValues :=
               if objIn (listInitialValues c) (js_toString v)
               then listInitialValues c
               else objSet (listInitialValues c) (js_toString v) (JArr []) |}
        else c
    | None => c
    end
  else c.

(** The eight assignments of lines 238-245. *)
Definition knownValues : list (string * JSValue) :=
  [ ("len", JNum (num_lit 0)); ("i", JNum (num_lit 1));
    ("j", JNum (num_lit 1)); ("k", JNum (num_lit 1));
    ("result", JStr ""); ("separator", JStr "");
    ("current", JStr ""); ("next", JStr "") ].

Definition assignKnown (m : gmap string JSValue) : gmap string JSValue :=
  fold_left (fun acc (kv : string * JSValue) => objSet acc kv.1 kv.2) knownValues m.

Definition emptyCollected : Collected :=
  {| variableSet := []; listSet := [];
     variableInitialValues := ∅; listInitialValues := ∅ |}.

(** The declarations given explicitly, in either shape (lines 180-218). *)
Definition explicitDeclarations (variables lists : JSValue) : Collected :=
  fold_left declareList (declEntries lists)
    (fold_left declareVariable (declEntries variables) emptyCollected).

(** The declarations collected before any text is written. *)
Definition collect (blocks : list (string * Block)) (variables lists : JSValue)
  : Collected :=
  let c := fold_left scanBlock blocks (explicitDeclarations variables lists) in
  {| variableSet := variableSet c;
     listSet := listSet c;
     variableInitialValues := assignKnown (variableInitialValues c);
     listInitialValues := listInitialValues c |}.

(** Every name that the collection uses as a property key can be
    coerced.  The collection raises at the first name that cannot; as
    nothing else is seen of it then, the model collects first and looks
    at the names after. *)
Definition namesCoerce (c : Collected) : bool :=
  forallb coercible (variableSet c) && forallb coercible (listSet c).

(** [typeof value === 'string' ? quoted : value], printed. *)
Definition valueText (value : Read) : Outcome string :=
  match value with
  | Own (JStr s) => Ok (dq +:+ escapeString s +:+ dq)
  | Own v => toText v
  | InheritedFunction k => Ok (nativeFunctionText k)
  | InheritedPrototype => Ok "[object Object]"
  | Undefined => Ok "undefined"
  end.

Definition variableLine (m : gmap string JSValue) (varName : JSValue) : Outcome string :=
  n <~ toText varName;
  t <~ valueText (objGet m n);
  Ok ("let " +:+ n +:+ " = " +:+ t +:+ ";" +:+ nl).

(** Lines 248-255. *)
Definition variablePreamble (c : Collected) : Outcome string :=
  match variableSet c with
  | [] => Ok ""
  | names =>
      ls <~ mapO (variableLine (variableInitialValues c)) names;
      Ok (String.concat "" ls +:+ nl)
  end.

Definition quoteItem (item : JSValue) : JSValue :=
  match item with
  | JStr s => JStr (dq +:+ escapeString s +:+ dq)
  | v => v
  end.

(** The seed of the list called [numbers]. *)
Definition numbersSeed : string := "[1, 2, 3, 4, 5, 6, 7, 8, 9, 10]".

(** [x > 0] on a value: a string is converted with [Number], an array
    and an object through their text (that of an object is no number),
    [true] is 1 and [null] is 0. *)
Definition gtZero (x : JSValue) : Outcome bool :=
  match x with
  | JNull => Ok false
  | JBool b => Ok b
  | JNum n => Ok (positive n)
  | JStr s => Ok (positive (js_Number s))
  | JArr _ => t <~ toText x; Ok (positive (js_Number t))
  | JObj _ => t <~ toText x; Ok false
  end.

(** [v.length > 0]: an array and a string have a length, an object has
    one when it has a property of that name, a number and a boolean
    have none. *)
Definition hasPositiveLength (v : JSValue) : Outcome bool :=
  match v with
  | JArr l => Ok (match l with [] => false | _ :: _ => true end)
  | JStr s => Ok (negb (String.eqb s ""))
  | JObj o => match assoc "length" o with Some x => gtZero x | None => Ok false end
  | JNull | JBool _ | JNum _ => Ok false
  end.

(** [listName === 'numbers'] *)
Definition isNumbers (listName : JSValue) : bool :=
  match listName with
  | JStr s => String.eqb s "numbers"
  | _ => false
  end.

Definition createListLine (listName : string) : string :=
  "list.createList(" +:+ dq +:+ listName +:+ dq +:+ ");" +:+ nl.

(** The declaration of the list printed as [n], from what is read for
    it (lines 263-270).  [.map] exists on an array only: any other
    value of positive length raises; [.join] coerces the items. *)
Definition listDeclaration (n : string) (value : Read) : Outcome string :=
  match value with
  | Own v =>
      long <~ (if truthy v then hasPositiveLength v else Ok false);
      if long then
        match v with
        | JArr items =>
            if forallb coercible items then
              Ok ("list.newList(" +:+ dq +:+ n +:+ dq +:+ ", [" +:+
                  joinValues ", " (map quoteItem items) +:+ "], false);" +:+ nl)
            else Throw TypeError
        | _ => Throw TypeError
        end
      else Ok (createListLine n)
  | InheritedFunction k =>
      if (0 <? functionLength k)%nat then Throw TypeError
      else Ok (createListLine n)
  | InheritedPrototype | Undefined => Ok (createListLine n)
  end.

(** One list declaration (lines 259-271). *)
Definition listLine (m : gmap string JSValue) (listName : JSValue) : Outcome string :=
  if isNumbers listName then
    Ok ("list.newList(" +:+ dq +:+ "numbers" +:+ dq +:+ ", " +:+ numbersSeed +:+
        ", false);" +:+ nl)
  else
    n <~ toText listName;
    listDeclaration n (objGet m n).

(** Lines 258-274. *)
Definition listPreamble (c : Collected) : Outcome string :=
  match listSet c with
  | [] => Ok ""
  | names =>
      ls <~ mapO (listLine (listInitialValues c)) names;
      Ok (String.concat "" ls +:+ nl)
  end.

(** One entry point with the blank line after it (lines 281-284);
    [blocks[blockId]] of an absent identifier has no [opcode], and
    neither has an inherited member. *)
Definition emitEntry (fuel : nat) (blocks : list (string * Block)) (blockId : string)
  : Outcome string :=
  match lookupBlock blocks blockId with
  | Some (OwnBlock block) => r <~ decompileBlock fuel blocks blockId block 0; Ok (r +:+ nl)
  | Some InheritedMember | None => Throw TypeError
  end.

Definition generateJavaScriptFromBlocks (fuel : nat) (blocks : list (string * Block))
    (variables lists : JSValue) : Outcome string :=
  let c := collect blocks variables lists in
  if namesCoerce c then
    vs <~ variablePreamble c;
    let code := "// Decompiled from Scratch project" +:+ nl +:+ nl +:+ vs in
    ls <~ listPreamble c;
    match findTopLevelBlocks blocks with
    | [] => Ok (code +:+ ls +:+ "// No blocks found" +:+ nl)
    | topLevelBlocks =>
        chains <~ mapO (emitEntry fuel blocks) topLevelBlocks;
        Ok (code +:+ ls +:+ "// Main code" +:+ nl +:+ String.concat "" chains)
    end
  else Throw TypeError.

(** ** The generation loop of [createjvavscratchProject] (lines 84-126)

    Of the project descriptor only what generation reads is kept.  The
    function is modelled from the stage directory on; what it does
    before (the project directory, the configuration file, the three
    top directories) has left the file system in the state the model
    starts from. *)
Record Target : Type := {
  isStage : bool;
  name : string;
  t_blocks : option (list (string * Block));
  t_variables : option JSValue;
  t_lists : option JSValue
}.

Record ProjectJson : Type := {
  stage : option Target;
  targets : list Target
}.

(** [sprite.blocks || {}] and [sprite.variables || {}] *)
Definition blocksOr (x : option (list (string * Block))) : list (string * Block) :=
  match x with Some b => b | None => [] end.

Definition valueOr (x : option JSValue) : JSValue :=
  match x with
  | Some v => if truthy v then v else JObj []
  | None => JObj []
  end.

(** [projectJson.stage?.f || projectJson.targets?.find(t => t.isStage)?.f] *)
Definition stageTarget (p : ProjectJson) : option Target :=
  List.find isStage (targets p).

Definition stageBlocks (p : ProjectJson) : list (string * Block) :=
  match stage p with
  | Some t =>
      match t_blocks t with
      | Some b => b
      | None => blocksOr (match stageTarget p with Some t' => t_blocks t' | None => None end)
      end
  | None => blocksOr (match stageTarget p with Some t' => t_blocks t' | None => None end)
  end.

Definition stageValue (p : ProjectJson) (f : Target -> option JSValue) : JSValue :=
  let fromTargets := valueOr (match stageTarget p with Some t' => f t' | None => None end) in
  match stage p with
  | Some t =>
      match f t with
      | Some v => if truthy v then v else fromTargets
      | None => fromTargets
      end
  | None => fromTargets
  end.

Context {F : FileSystem}.

(** How a run ends: it returns, or it is aborted by an exception of
    the generator or by a failed operation on the file system. *)
Inductive Ending : Type :=
| Finished
| Raised (e : JSError)
| FileFailed.

(** The state of a run: the file system and the array [sprites]. *)
Record Progress : Type := {
  files : Files;
  sprites : list string
}.

(** One actor, the stage or a sprite: its directory is made and its
    name listed, then its text is generated, then its file is written
    (lines 85-96 and 102-113). *)
Definition writeActor (fuel : nat) (st : Progress) (actor : string)
    (blocks : list (string * Block)) (variables lists : JSValue)
  : Progress * Ending :=
  let (fs1, made) := makeDirectory (files st) actor in
  if made then
    let st1 := {| files := fs1; sprites := sprites st ++ [actor] |} in
    match generateJavaScriptFromBlocks fuel blocks variables lists with
    | Ok code =>
        let (fs2, written) := writeSource fs1 actor code in
        ({| files := fs2; sprites := sprites st1 |},
         if written then Finished else FileFailed)
    | Throw e => (st1, Raised e)
    end
  else ({| files := fs1; sprites := sprites st |}, FileFailed).

(** Lines 85-96. *)
Definition writeStage (fuel : nat) (fs : Files) (projectJson : ProjectJson)
  : Progress * Ending :=
  writeActor fuel {| files := fs; sprites := [] |} "Stage"
    (stageBlocks projectJson)
    (stageValue projectJson t_variables) (stageValue projectJson t_lists).

(** The loop of lines 100-113. *)
Fixpoint writeSprites (fuel : nat) (targets : list Target) (st : Progress)
  : Progress * Ending :=
  match targets with
  | [] => (st, Finished)
  | sprite :: rest =>
      if isStage sprite then writeSprites fuel rest st
      else
        match writeActor fuel st (name sprite) (blocksOr (t_blocks sprite))
                (valueOr (t_variables sprite)) (valueOr (t_lists sprite)) with
        | (st', Finished) => writeSprites fuel rest st'
        | aborted => aborted
        end
  end.

(** Lines 84-126: the run from the parsed [projectJson] on, in the
    state [fs] of the file system that the setup of lines 48-81 leaves. *)
Definition createjvavscratchProject (fuel : nat) (fs : Files)
    (projectJson : ProjectJson) : Files * Ending :=
  match writeStage fuel fs projectJson with
  | (st1, Finished) =>
      match writeSprites fuel (targets projectJson) st1 with
      | (st2, Finished) =>
          let (fs3, done) := finishProject (files st2) (sprites st2) in
          (fs3, if done then Finished else FileFailed)
      | (st2, aborted) => (files st2, aborted)
      end
  | (st1, aborted) => (files st1, aborted)
  end.

End Model.

Arguments JSValue : clear implicits.
Arguments Block : clear implicits.
Arguments Target : clear implicits.
Arguments ProjectJson : clear implicits.
Arguments Collected : clear implicits.
Arguments Member : clear implicits.
Arguments Read : clear implicits.
Arguments Progress : clear implicits.

(** ** A runtime for decimal integers

    An instance of [JSNumbers] on which the definitions can be run:
    numbers are the integers and [NaN], printed in decimal.  It agrees
    with ECMAScript on integers of magnitude below 2^53, on the empty
    string and on strings of decimal digits with an optional sign, and
    on strings that start with a lower-case letter; other strings
    (fractions, exponents, hexadecimal, surrounding white space,
    [Infinity]) it converts to [NaN]. *)
Inductive DecNum : Type :=
| DNaN
| DInt (z : Z).

Definition digitValue (a : ascii) : option Z :=
  if (48 <=? nat_of_ascii a)%nat && (nat_of_ascii a <=? 57)%nat
  then Some (Z.of_nat (nat_of_ascii a - 48)) else None.

Fixpoint parseDigits (acc : Z) (s : string) : option Z :=
  match s with
  | EmptyString => Some acc
  | String a s' =>
      match digitValue a with
      | Some d => parseDigits (10 * acc + d) s'
      | None => None
      end
  end.

Definition parseUnsigned (s : string) : option Z :=
  match s with
  | EmptyString => None
  | _ => parseDigits 0 s
  end.

Definition decNumber (s : string) : DecNum :=
  match s with
  | EmptyString => DInt 0
  | String a s' =>
      if Ascii.eqb a "-"%char then
        match parseUnsigned s' with Some z => DInt (- z) | None => DNaN end
      else if Ascii.eqb a "+"%char then
        match parseUnsigned s' with Some z => DInt z | None => DNaN end
      else
        match parseUnsigned s with Some z => DInt z | None => DNaN end
  end.

Definition decToString (n : DecNum) : string :=
  match n with
  | DNaN => "NaN"
  | DInt z => pretty z
  end.

Lemma decNumber_word_NaN (s : string) :
  startsLower s = true ->
  (match decNumber s with DNaN => true | DInt _ => false end) = true.
Proof.
  destruct s as [|a s]; [discriminate|]. unfold startsLower. intros H.
  apply andb_prop in H as [H1 H2].
  assert (Hm : Ascii.eqb a "-" = false).
  { apply Ascii.eqb_neq. intros ->. vm_compute in H1. discriminate. }
  assert (Hp : Ascii.eqb a "+" = false).
  { apply Ascii.eqb_neq. intros ->. vm_compute in H1. discriminate. }
  unfold decNumber. rewrite Hm, Hp. unfold parseUnsigned, parseDigits.
  unfold digitValue.
  apply Nat.leb_le in H1.
  destruct (nat_of_ascii a <=? 57)%nat eqn:E.
  - apply Nat.leb_le in E. lia.
  - rewrite andb_false_r. reflexivity.
Qed.

Definition decimalNumbers : JSNumbers := {|
  num := DecNum;
  num_lit := fun n => DInt (Z.of_nat n);
  js_Number := decNumber;
  js_isNaN := fun n => match n with DNaN => true | DInt _ => false end;
  num_toString := decToString;
  num_truthy := fun n => match n with DNaN => false | DInt z => negb (Z.eqb z 0) end;
  Number_word_NaN := decNumber_word_NaN
|}.

(** ** Vocabulary of the statements *)

(** The opcodes of the binary comparisons and arithmetic, each with
    its operator token. *)
Definition binaryOperators : list (string * string) :=
  [ ("operator_equals", "=="); ("operator_greaterthan", ">");
    ("operator_gt", ">"); ("operator_lessthan", "<"); ("operator_lt", "<");
    ("operator_add", "+"); ("operator_subtract", "-");
    ("operator_multiply", "*"); ("operator_divide", "/") ].

(** A string parses as a number when [Number] does not give [NaN] and
    the string is not blank; this is the test of lines 770-771 (of a
    blank string [Number] makes 0, and the source does not count it as
    a number). *)
Definition parsesAsNumber {N : JSNumbers} (s : string) : bool :=
  negb (js_isNaN (js_Number s)) && negb (String.eqb (trim s) "").

(** A literal input: [[type, [kind, value, ...], ...]]. *)
Definition literalInput {N : JSNumbers} (ty kind value : JSValue N)
    (more more' : list (JSValue N)) : JSValue N :=
  JArr (ty :: JArr (kind :: value :: more) :: more').

Section Vocabulary.

Context {N : JSNumbers}.

(** [id] is referred to: it is the second element of an input tuple
    of some block, or the non-empty "next" of some block. *)
Definition isChild (blocks : list (string * Block N)) (id : string) : bool :=
  existsb (fun kb : string * Block N =>
             existsb (fun kv : string * JSValue N =>
                        match inputChild kv.2 with
                        | Some c => String.eqb c id
                        | None => false
                        end) (inputs kb.2)
             || match nextChild kb.2 with
                | Some c => String.eqb c id
                | None => false
                end) blocks.

(** The opcode is in the event category. *)
Definition isEvent (b : Block N) : bool := startsWith (opcode b) "event_".

(** The identifiers no block refers to, in the order of the block
    map, followed by the event blocks that are referred to, in the
    order of the block map. *)
Definition topLevelOrder (blocks : list (string * Block N)) : list string :=
  map fst (List.filter (fun kb => negb (isChild blocks kb.1)) blocks) ++
  map fst (List.filter (fun kb => isEvent kb.2 && isChild blocks kb.1) blocks).

(** The variable name the scan reads off a block: the target of a
    variable-set or variable-change block. *)
Definition isVariableWrite (b : Block N) : bool :=
  String.eqb (opcode b) "data_setvariableto" ||
  String.eqb (opcode b) "data_changevariableby".

Definition scannedVariable (b : Block N) : option string :=
  if isVariableWrite b then
    match field0 b "VARIABLE" with
    | Some v => if truthy v && negb (isCloud v) then Some (js_toString v) else None
    | None => None
    end
  else None.

(** The list name the scan reads off a block: the list of any other
    data block. *)
Definition scannedList (b : Block N) : option string :=
  if isVariableWrite b then None
  else if startsWith (opcode b) "data_" then
    match field0 b "LIST" with
    | Some v => if truthy v then Some (js_toString v) else None
    | None => None
    end
  else None.

(** The names the scan finds in a block map. *)
Definition scannedVariables (blocks : list (string * Block N)) : list string :=
  omap scannedVariable (map snd blocks).

Definition scannedLists (blocks : list (string * Block N)) : list string :=
  omap scannedList (map snd blocks).

(** A statement opcode: its case ends in [break], so that the "next"
    chain is followed after it; the other cases [return] a text. *)
Definition isStatement (op : string) : bool :=
  match classify op with
  | SReturnField _ _ | SListExpr _ _ | SBinary _ | SNot | SJoin
  | SExprEsc _ _ | SExprConst _ => false
  | _ => true
  end.

(** Every identifier of [ids] names a statement block whose "next" is
    again in [ids]: a chain that never ends. *)
Definition endlessChain (blocks : list (string * Block N)) (ids : string -> Prop) : Prop :=
  forall id, ids id ->
    exists b id',
      assoc id blocks = Some b /\ isStatement (opcode b) = true /\
      nextChild b = Some id' /\ ids id'.

(** The text of one target, as the generation loop asks for it. *)
Definition targetCode (fuel : nat) (t : Target N) : Outcome string :=
  generateJavaScriptFromBlocks fuel (blocksOr (t_blocks t))
    (valueOr (t_variables t)) (valueOr (t_lists t)).

(** The text of the stage. *)
Definition stageCode (fuel : nat) (p : ProjectJson N) : Outcome string :=
  generateJavaScriptFromBlocks fuel (stageBlocks p)
    (stageValue p t_variables) (stageValue p t_lists).

(** An explicit declaration that assigns an object, an array or [null]
    to [__proto__], and so replaces the prototype of a value object. *)
Definition variableTampers (variable : JSValue N) : bool :=
  match variable with
  | JArr (name :: rest) =>
      truthy name && negb (isCloud name) &&
      replacesPrototype (js_toString name) (declaredValue rest)
  | _ => false
  end.

Definition listTampers (entry : JSValue N) : bool :=
  match entry with
  | JArr (name :: rest) =>
      truthy name && replacesPrototype (js_toString name) (declaredItems rest)
  | _ => false
  end.

(** No declaration replaces the prototype of a value object: both
    inherit from [Object.prototype] throughout. *)
Definition prototypeKept (variables lists : JSValue N) : bool :=
  forallb (fun e => negb (variableTampers e)) (declEntries variables) &&
  forallb (fun e => negb (listTampers e)) (declEntries lists).

(** What one entry declares for the variable called [name]: the
    entry counts when its name is truthy, is not the cloud sign and has
    the text [name]. *)
Definition variableEntry (name : string) (e : JSValue N) : option (JSValue N) :=
  match e with
  | JArr (n :: rest) =>
      if truthy n && negb (isCloud n) && String.eqb (js_toString n) name
      then Some (declaredValue rest) else None
  | _ => None
  end.

(** What one entry declares for the list called [name]. *)
Definition listEntry (name : string) (e : JSValue N) : option (JSValue N) :=
  match e with
  | JArr (n :: rest) =>
      if truthy n && String.eqb (js_toString n) name
      then Some (declaredItems rest) else None
  | _ => None
  end.

(** The last of the values that [f] finds in [l]. *)
Definition lastFound {A B : Type} (f : A -> option B) (l : list A) : option B :=
  fold_left (fun acc e => match f e with Some v => Some v | None => acc end) l None.

(** The value a variable is explicitly declared with, and the items a
    list is explicitly declared with: those of the last entry that
    counts. *)
Definition explicitVariable (name : string) (variables : JSValue N) : option (JSValue N) :=
  lastFound (variableEntry name) (declEntries variables).

Definition explicitList (name : string) (lists : JSValue N) : option (JSValue N) :=
  lastFound (listEntry name) (declEntries lists).

(** A list entry that declares the list called [name] without items:
    the place of the items is absent, falsy or an empty array. *)
Definition declaresEmpty (name : string) (entry : JSValue N) : bool :=
  match entry with
  | JArr (JStr n :: rest) =>
      String.eqb n name && negb (String.eqb n "") &&
      match declaredItems rest with
      | JArr [] => true
      | _ => false
      end
  | _ => false
  end.

(** A block that uses the list called [name]: a data block, other
    than the two that write a variable, whose list field starts with
    that non-empty string. *)
Definition usesList (name : string) (b : Block N) : bool :=
  negb (isVariableWrite b) && startsWith (opcode b) "data_" &&
  match field0 b "LIST" with
  | Some (JStr n) => String.eqb n name && negb (String.eqb n "")
  | _ => false
  end.

(** The list called [name] has no initial values: no entry declares
    items for it, and it is either declared without items or only used
    by a block, under a name that no object inherits. *)
Definition withoutItems (blocks : list (string * Block N)) (lists : JSValue N)
    (name : string) : Prop :=
  (forall e items, In e (declEntries lists) ->
                   listEntry name e = Some items -> items = JArr []) /\
  ((exists e, In e (declEntries lists) /\ declaresEmpty name e = true) \/
   (isProtoKey name = false /\
    exists kb, In kb blocks /\ usesList name kb.2 = true)).

(** The declaration that is written for a list without items. *)
Definition emptyListLine (name : string) : string :=
  if String.eqb name "numbers"
  then "list.newList(" +:+ dq +:+ "numbers" +:+ dq +:+ ", [" +:+
       join ", " (map pretty (seq 1 10)) +:+ "], false);" +:+ nl
  else "list.createList(" +:+ dq +:+ name +:+ dq +:+ ");" +:+ nl.

(** A string as a literal of the generated text. *)
Definition quoted (s : string) : string := dq +:+ escapeString s +:+ dq.

(** The declaration of a variable with a printed value. *)
Definition variableDeclaration (name text : string) : string :=
  "let " +:+ name +:+ " = " +:+ text +:+ ";" +:+ nl.

(** The declaration of a list with string items. *)
Definition filledListLine (name : string) (items : list string) : string :=
  "list.newList(" +:+ dq +:+ name +:+ dq +:+ ", [" +:+
  join ", " (map quoted items) +:+ "], false);" +:+ nl.

End Vocabulary.

(** *** Example data, on the decimal runtime *)

Definition ex_num (z : Z) : JSValue decimalNumbers := @JNum decimalNumbers (DInt z).

Definition ex_block (op : string) (fs ins : list (string * JSValue decimalNumbers))
    (nx : option string) : Block decimalNumbers :=
  {| opcode := op; fields := fs; inputs := ins; mutation := None; next := nx |}.

Definition ex_literal (s : string) : JSValue decimalNumbers :=
  literalInput (ex_num 1) (ex_num 10) (JStr s) [] [].

(** An event block that another block has as its "next", listed before
    that block. *)
Definition ex_event_child : list (string * Block decimalNumbers) :=
  [ ("E", ex_block "event_whenflagclicked" [] [] None);
    ("X", ex_block "looks_show" [] [] (Some "E")) ].

(** A cloud variable, declared in either shape. *)
Definition ex_cloud_pairs : JSValue decimalNumbers :=
  JArr [JArr [JStr (cloud +:+ " score"); ex_num 0]].

Definition ex_cloud_mapping : JSValue decimalNumbers :=
  JObj [("id1", JArr [JStr (cloud +:+ " score"); ex_num 0])].

(** The variable [i] declared with the value 7. *)
Definition ex_i_seven : JSValue decimalNumbers :=
  JArr [JArr [JStr "i"; ex_num 7]].

(** The variable [score] declared with the value 7, and a block that
    sets it. *)
Definition ex_score_seven : JSValue decimalNumbers :=
  JArr [JArr [JStr "score"; ex_num 7]].

Definition ex_score_blocks : list (string * Block decimalNumbers) :=
  [ ("S", ex_block "data_setvariableto"
            [("VARIABLE", JArr [JStr "score"; JStr "id1"])]
            [("VALUE", ex_literal "5")] None) ].

(** A green-flag block [A] whose "next" is [B], and [B] whose "next"
    is [A]. *)
Definition ex_hat : Block decimalNumbers :=
  ex_block "event_whenflagclicked" [] [] (Some "B").

Definition ex_show : Block decimalNumbers :=
  ex_block "looks_show" [] [] (Some "A").

Definition ex_cycle : list (string * Block decimalNumbers) :=
  [ ("A", ex_hat); ("B", ex_show) ].

(** The same two-block cycle without an event block. *)
Definition ex_plain_cycle : list (string * Block decimalNumbers) :=
  [ ("A", ex_block "looks_hide" [] [] (Some "B"));
    ("B", ex_block "looks_show" [] [] (Some "A")) ].

Definition ex_target (n : string) (blocks : list (string * Block decimalNumbers))
  : Target decimalNumbers :=
  {| isStage := false; name := n; t_blocks := Some blocks;
     t_variables := None; t_lists := None |}.

Definition ex_cat : Target decimalNumbers := ex_target "Cat" ex_cycle.

Definition ex_dog : Target decimalNumbers :=
  ex_target "Dog" [ ("S", ex_block "looks_show" [] [] None) ].

(** A project with an empty stage, the cyclic target and a sound
    target after it. *)
Definition ex_project : ProjectJson decimalNumbers :=
  {| stage := None; targets := [ex_cat; ex_dog] |}.

Definition ex_empty_code : string :=
  "// Decompiled from Scratch project" +:+ nl +:+ nl +:+
  "// No blocks found" +:+ nl.

(** A file system that only records what is asked of it; every
    operation succeeds. *)
Inductive FileEvent : Type :=
| MadeDirectory (name : string)
| WroteSource (name code : string)
| FinishedProject (sprites : list string).

Definition recordingFiles : FileSystem := {|
  Files := list FileEvent;
  makeDirectory := fun fs name => ((fs ++ [MadeDirectory name])%list, true);
  writeSource := fun fs name code => ((fs ++ [WroteSource name code])%list, true);
  finishProject := fun fs sprites => ((fs ++ [FinishedProject sprites])%list, true)
|}.

(** A list that is only used, never declared, and bears the name of a
    member of [Object.prototype]. *)
Definition ex_constructor_blocks : list (string * Block decimalNumbers) :=
  [ ("a", ex_block "data_deletealloflist"
            [("LIST", JArr [JStr "constructor"; JStr "id1"])] [] None) ].

(** The lists [numbers] and [scores], declared without items. *)
Definition ex_empty_lists : JSValue decimalNumbers :=
  JObj [ ("id1", JArr [JStr "numbers"; JArr []]);
         ("id2", JArr [JStr "scores"; JArr []]) ].

(** [1 + 2] *)
Definition ex_add : Block decimalNumbers :=
  ex_block "operator_add" []
    [("OPERAND1", ex_literal "1"); ("OPERAND2", ex_literal "2")] None.

(** An if/else block with a first body and no second one. *)
Definition ex_ifelse : Block decimalNumbers :=
  ex_block "control_if_else" []
    [("SUBSTACK", JArr [ex_num 2; JStr "B"])] None.

Definition ex_ifelse_blocks : list (string * Block decimalNumbers) :=
  [ ("A", ex_ifelse); ("B", ex_block "looks_show" [] [] None) ].

(** A character that [escapeString] leaves alone. *)
Definition plainChar (a : ascii) : bool :=
  negb (Ascii.eqb a ch_bs) && negb (Ascii.eqb a ch_dq) &&
  negb (Ascii.eqb a ch_lf) && negb (Ascii.eqb a ch_cr) &&
  negb (Ascii.eqb a ch_tab).

Fixpoint allPlain (s : string) : bool :=
  match s with
  | EmptyString => true
  | String a s' => plainChar a && allPlain s'
  end.

(** ** More vocabulary: recursion depth and references *)

(** [a] is [b], unless [a] is the exhaustion of the stack. *)
Definition upTo {A : Type} (a b : Outcome A) : Prop :=
  a = Throw RangeError \/ a = b.

Section References.

Context {N : JSNumbers}.

(** The text an input holds in its second place, whatever the value. *)
Definition inputRef (v : JSValue N) : option string :=
  match index1 v with
  | Some x => Some (js_toString x)
  | None => None
  end.

(** Every identifier a block may lead to: through the second place of
    any of its inputs, and through its non-empty "next". *)
Definition references (b : Block N) : list string :=
  omap inputRef (map snd (inputs b)) ++
  match nextChild b with Some id => [id] | None => [] end.

(** [rank] goes down along every reference that resolves: the graph
    has no cycle. *)
Definition ranked (blocks : list (string * Block N)) (rank : string -> nat) : Prop :=
  forall id b id' b',
    assoc id blocks = Some b -> In id' (references b) ->
    assoc id' blocks = Some b' -> (rank id' < rank id)%nat.

(** The same block with another "next". *)
Definition withNext (b : Block N) (nx : option string) : Block N :=
  {| opcode := opcode b; fields := fields b; inputs := inputs b;
     mutation := mutation b; next := nx |}.

(** The members of a [Set] that are strings. *)
Definition stringNames (l : list (JSValue N)) : list string :=
  omap (fun v => match v with JStr s => Some s | _ => None end) l.

(** No name given as a string is held twice, and what is read for a
    name that is held is never [undefined]. *)
Definition wellFormed (c : Collected N) : Prop :=
  NoDup (stringNames (variableSet c)) /\ NoDup (stringNames (listSet c)) /\
  (forall v, In v (variableSet c) ->
             objGet (variableInitialValues c) (js_toString v) <> Undefined) /\
  (forall v, In v (listSet c) ->
             objGet (listInitialValues c) (js_toString v) <> Undefined).

(** An input that is no reference and no literal: absent, not an
    array, an array of fewer than two elements, a reference to an
    identifier under which the block object has nothing, or a second
    element that is neither a string nor an array of two or more
    elements. *)
Definition malformedInput (blocks : list (string * Block N))
    (input : option (JSValue N)) : Prop :=
  input = None \/
  (exists v, input = Some v /\ forall l, v <> JArr l) \/
  input = Some (JArr []) \/
  (exists x, input = Some (JArr [x])) \/
  (exists ty ref more,
     input = Some (JArr (ty :: JStr ref :: more)) /\ lookupBlock blocks ref = None) \/
  (exists ty d more,
     input = Some (JArr (ty :: d :: more)) /\
     (forall s, d <> JStr s) /\ (forall k v l, d <> JArr (k :: v :: l))).

End References.

(** *** Runs of the generation loop *)

Section Runs.

Context {N : JSNumbers} {F : FileSystem}.

(** The run before any actor is dealt with. *)
Definition started (fs : Files) : Progress F * Ending :=
  ({| files := fs; sprites := [] |}, Finished).

(** The stage is done, then the targets of [pre]. *)
Definition stageThen (fuel : nat) (fs : Files) (p : ProjectJson N)
    (pre : list (Target N)) : Progress F * Ending :=
  match writeStage fuel fs p with
  | (st, Finished) => writeSprites fuel pre st
  | aborted => aborted
  end.

(** A run that is cut short at the actor called [actor], whose
    generation raises [e], after [before]: when [before] went through,
    the directory of the actor is made and the run ends with [e] (or
    with the failure to make the directory); when [before] was itself
    aborted, the run ended there. *)
Definition abortedAt (before : Progress F * Ending) (actor : string) (e : JSError)
  : Files * Ending :=
  match before with
  | (st, Finished) =>
      let (fs, made) := makeDirectory (files st) actor in
      (fs, if made then Raised e else FileFailed)
  | (st, aborted) => (files st, aborted)
  end.

(** The targets that are not marked as stage, and their names. *)
Definition spriteTargets (targets : list (Target N)) : list (Target N) :=
  List.filter (fun t => negb (isStage t)) targets.

Definition spriteNames (targets : list (Target N)) : list string :=
  map name (spriteTargets targets).

(** The file system after the directory of each actor is made and its
    text written into it, one actor after the other, when every one of
    these operations succeeds. *)
Fixpoint written (fs : Files) (actors : list (string * string)) : option Files :=
  match actors with
  | [] => Some fs
  | (actor, code) :: rest =>
      match makeDirectory fs actor with
      | (fs1, true) =>
          match writeSource fs1 actor code with
          | (fs2, true) => written fs2 rest
          | (_, false) => None
          end
      | (_, false) => None
      end
  end.

End Runs.

(** ** [uuid] (scratch-uuid.ts)

    A string is the list of its code units here, of any type [A], since
    [charAt] counts code units.  [Math.random] is the sequence [random]
    of its successive samples, taken as exact rationals; [Length] is a
    natural number, 32 when absent. *)
Section Uuid.

Context {A : Type}.

(** [Math.floor(r * n)] *)
Definition randomIndex (r : Q) (n : nat) : nat :=
  Z.to_nat (Qfloor (r * inject_Z (Z.of_nat n))).

(** [s.charAt(i)]: one code unit, or the empty string out of range. *)
Definition charAt (s : list A) (i : nat) : list A :=
  match nth_error s i with
  | Some c => [c]
  | None => []
  end.

(** The loop, from iteration [i] with [n] iterations left. *)
Fixpoint uuidLoop (random : nat -> Q) (Include : list A) (i n : nat)
    (result : list A) : list A :=
  match n with
  | O => result
  | S n' =>
      uuidLoop random Include (S i) n'
        (result ++ charAt Include (randomIndex (random i) (length Include)))
  end.

Definition uuid (random : nat -> Q) (Include : list A) (Length : option nat) : list A :=
  uuidLoop random Include 0
    (match Length with Some n => n | None => 32%nat end) [].

End Uuid.

(** ** [evaluate] (evaluate.ts)

    A loaded value is callable or not, and a callable returns (what
    an implementation raises by itself is outside the model);
    [builtin] gives the module of a generator file by type name, [None]
    when the file does not exist.  The result is the lines written to
    the error console and what the call ends in. *)
Section Evaluate.

Context {Args R : Type}.

Inductive Loaded : Type :=
| Callable (f : Args -> R)
| NotCallable.

(** [data(blockCluster, instance, id, buildData)] *)
Definition callLoaded (data : option Loaded) (args : Args) : Outcome R :=
  match data with
  | Some (Callable f) => Ok (f args)
  | _ => Throw TypeError
  end.

Definition evaluate (builtin : string -> option Loaded) (type : string)
    (args : Args) (type_implements : list (string * Loaded))
  : list string * Outcome R :=
  match assoc type type_implements with
  | Some data => ([], callLoaded (Some data) args)
  | None =>
      match builtin type with
      | None =>
          (["[internal] attempt to load non-existant type: " +:+ type],
           callLoaded None args)
      | Some data => ([], callLoaded (Some data) args)
      end
  end.

End Evaluate.

Arguments Loaded : clear implicits.

(** *** More example data *)

(** A block of an opcode the decompiler does not know. *)
Definition ex_unknown : Block decimalNumbers :=
  ex_block "pen_clear" [] [] None.

(** A green-flag block followed by a say block. *)
Definition ex_flag_blocks : list (string * Block decimalNumbers) :=
  [ ("F", ex_block "event_whenflagclicked" [] [] (Some "S"));
    ("S", ex_block "looks_say" [("MESSAGE", JArr [JStr "hi"])] [] None) ].

Definition ex_flag_rank (id : string) : nat :=
  if String.eqb id "F" then 1 else 0.

(** The hexadecimal alphabet of [includes.scratch_alphanumeric]. *)
Definition ex_hex : list ascii := list_ascii_of_string "0123456789abcdef".

Definition ex_random (i : nat) : Q := (Z.of_nat (i mod 7) # 7)%Q.

(** ** Properties of [escapeString] *)

Lemma append_assoc (s t u : string) : (s +:+ t) +:+ u = s +:+ (t +:+ u).
Proof. induction s as [|a s IH]; simpl; [reflexivity|now rewrite IH]. Qed.

Section EscapeString.

Lemma replaceAll_app c r s t :
  replaceAll c r (s +:+ t) = replaceAll c r s +:+ replaceAll c r t.
Proof.
  induction s as [|a s IH]; simpl; [reflexivity|].
  destruct (Ascii.eqb a c); simpl; rewrite IH.
  - now rewrite append_assoc.
  - reflexivity.
Qed.

Lemma escapeString_app s t :
  escapeString (s +:+ t) = escapeString s +:+ escapeString t.
Proof. unfold escapeString. now rewrite !replaceAll_app. Qed.

Lemma escapeString_single a : escapeString (str1 a) = escapeChar a.
Proof.
  unfold escapeString, escapeChar, str1; simpl.
  destruct (Ascii.eqb_spec a ch_bs) as [->|H1]; [reflexivity|].
  destruct (Ascii.eqb_spec a ch_dq) as [->|H2]; [reflexivity|].
  destruct (Ascii.eqb_spec a ch_lf) as [->|H3]; [reflexivity|].
  destruct (Ascii.eqb_spec a ch_cr) as [->|H4]; [reflexivity|].
  destruct (Ascii.eqb_spec a ch_tab) as [->|H5]; [reflexivity|].
  simpl.
  apply Ascii.eqb_neq in H2, H3, H4, H5.
  now rewrite ?H2, ?H3, ?H4, ?H5; simpl; rewrite ?H3, ?H4, ?H5;
    simpl; rewrite ?H4, ?H5; simpl; rewrite ?H5.
Qed.

(** The chained replacements never rewrite what an earlier one
    produced: [escapeString] is a character-wise substitution. *)
Lemma escapeString_chars s : escapeString s = escapeChars s.
Proof.
  induction s as [|a s IH]; [reflexivity|].
  change (String a s) with (str1 a +:+ s).
  rewrite escapeString_app, escapeString_single, IH. reflexivity.
Qed.

Lemma escapeChar_cases a :
  (a = ch_bs /\ escapeChar a = String ch_bs (str1 ch_bs)) \/
  (a = ch_dq /\ escapeChar a = String ch_bs (str1 ch_dq)) \/
  (a = ch_lf /\ escapeChar a = String ch_bs "n") \/
  (a = ch_cr /\ escapeChar a = String ch_bs "r") \/
  (a = ch_tab /\ escapeChar a = String ch_bs "t") \/
  (Ascii.eqb a ch_bs = false /\ Ascii.eqb a ch_dq = false /\
   Ascii.eqb a ch_lf = false /\ Ascii.eqb a ch_cr = false /\
   Ascii.eqb a ch_tab = false /\ escapeChar a = str1 a).
Proof.
  unfold escapeChar.
  destruct (Ascii.eqb_spec a ch_bs) as [->|H1]; [tauto|].
  destruct (Ascii.eqb_spec a ch_dq) as [->|H2]; [tauto|].
  destruct (Ascii.eqb_spec a ch_lf) as [->|H3]; [tauto|].
  destruct (Ascii.eqb_spec a ch_cr) as [->|H4]; [tauto|].
  destruct (Ascii.eqb_spec a ch_tab) as [->|H5]; [tauto|].
  repeat right. tauto.
Qed.

Lemma decode_escapeChars s : decodeEscapes (escapeChars s) = Some s.
Proof.
  induction s as [|a s IH]; [reflexivity|].
  simpl escapeChars.
  destruct (escapeChar_cases a)
    as [[-> E]|[[-> E]|[[-> E]|[[-> E]|[[-> E]|(B & Q & L & C & T & E)]]]]];
    rewrite E; simpl; rewrite ?B, IH; reflexivity.
Qed.

Lemma noBareQuote_escapeChars s : noBareQuote (escapeChars s) = true.
Proof.
  induction s as [|a s IH]; [reflexivity|].
  simpl escapeChars.
  destruct (escapeChar_cases a)
    as [[-> E]|[[-> E]|[[-> E]|[[-> E]|[[-> E]|(B & Q & L & C & T & E)]]]]];
    rewrite E; simpl; rewrite ?B, ?Q; exact IH.
Qed.

Lemma noRawControl_escapeChars s : noRawControl (escapeChars s) = true.
Proof.
  induction s as [|a s IH]; [reflexivity|].
  simpl escapeChars.
  destruct (escapeChar_cases a)
    as [[-> E]|[[-> E]|[[-> E]|[[-> E]|[[-> E]|(B & Q & L & C & T & E)]]]]];
    rewrite E; simpl; rewrite ?L, ?C, ?T; exact IH.
Qed.

End EscapeString.

(** C10. For every string [s], decoding [escapeString s] under the
    standard escape rules gives [s] back, and the output holds no
    double quote outside an escape pair and no raw line feed, carriage
    return or tab: between double quotes it is a string literal that
    denotes [s]. *)
Theorem escapeString_roundtrip (s : string) :
  decodeEscapes (escapeString s) = Some s /\
  noBareQuote (escapeString s) = true /\
  noRawControl (escapeString s) = true.
Proof.
  rewrite escapeString_chars.
  split; [apply decode_escapeChars|].
  split; [apply noBareQuote_escapeChars|apply noRawControl_escapeChars].
Qed.

(** ** Properties of expression generation *)

Section Expressions.

Context {N : JSNumbers}.

Lemma decompileBlock_S fuel (blocks : list (string * Block N)) blockId block ind :
  decompileBlock (S fuel) blocks blockId block ind =
  decompileStep (decompileBlock fuel) blocks blockId block ind.
Proof. reflexivity. Qed.

Lemma lookupBlock_own (blocks : list (string * Block N)) id b :
  lookupBlock blocks id = Some (OwnBlock b) <-> assoc id blocks = Some b.
Proof.
  unfold lookupBlock. destruct (assoc id blocks) as [b0|].
  - split; intros [= ->]; reflexivity.
  - split; [|discriminate]. now destruct (isProtoKey id).
Qed.

Lemma classify_binary op tok :
  In (op, tok) binaryOperators -> classify op = SBinary tok.
Proof.
  unfold binaryOperators. simpl.
  intros H; repeat (destruct H as [H|H]; [inversion H; reflexivity|]).
  destruct H.
Qed.

(** The four degenerate shapes of an input all read as [null]. *)
Lemma processInput_malformed fuel (blocks : list (string * Block N)) ind :
  processInput fuel blocks None ind = Ok "null" /\
  (forall v, (forall l, v <> JArr l) ->
             processInput fuel blocks (Some v) ind = Ok "null") /\
  processInput fuel blocks (Some (JArr [])) ind = Ok "null" /\
  (forall x, processInput fuel blocks (Some (JArr [x])) ind = Ok "null") /\
  (forall ty ref rest, lookupBlock blocks ref = None ->
     processInput fuel blocks (Some (JArr (ty :: JStr ref :: rest))) ind = Ok "null").
Proof.
  unfold processInput, processInput_with.
  repeat split; try reflexivity.
  - intros v Hv. destruct v; try reflexivity. now destruct (Hv l).
  - intros ty ref rest H. now rewrite H.
Qed.

Lemma isKnownName_In s : isKnownName s = true <-> In s knownNames.
Proof.
  unfold isKnownName. rewrite existsb_exists. split.
  - intros (x & Hx & E). apply String.eqb_eq in E. now subst.
  - intros H. exists s. split; [exact H|apply String.eqb_refl].
Qed.

Lemma knownName_startsLower s : In s knownNames -> startsLower s = true.
Proof.
  unfold knownNames. simpl.
  intros H; repeat (destruct H as [H|H]; [subst s; reflexivity|]).
  destruct H.
Qed.

(** C5. A binary comparison or arithmetic block is emitted as its
    left operand text, a space, the operator token of its opcode, a
    space and its right operand text, the operand texts being what
    [processInput] gives for the inputs [OPERAND1] and [OPERAND2];
    this holds for each of the tokens ==, >, <, +, -, * and /. *)
Theorem binary_operator_text fuel (blocks : list (string * Block N))
    blockId block ind op tok left right :
  In (op, tok) binaryOperators ->
  opcode block = op ->
  processInput fuel blocks (assoc "OPERAND1" (inputs block)) ind = Ok left ->
  processInput fuel blocks (assoc "OPERAND2" (inputs block)) ind = Ok right ->
  decompileBlock (S fuel) blocks blockId block ind =
  Ok (left +:+ " " +:+ tok +:+ " " +:+ right).
Proof.
  intros Hin Hop Hl Hr.
  rewrite decompileBlock_S. unfold decompileStep, emitBlock.
  rewrite Hop, (classify_binary _ _ Hin).
  unfold inputOf. unfold processInput in Hl, Hr.
  rewrite Hl. simpl. rewrite Hr. reflexivity.
Qed.

(** C6, the failing input.  A literal input whose value is [null]
    makes [processInput] call [toString] on [null]: it raises a
    [TypeError] where the specification promises the text [null]. *)
Theorem null_literal_raises fuel (blocks : list (string * Block N)) ty kind ind :
  processInput fuel blocks (Some (literalInput ty kind JNull [] [])) ind =
  Throw TypeError.
Proof. reflexivity. Qed.

(** C9. A literal input whose value is a string [s] is emitted as
    the bare number [Number(s)] when [s] parses as a number, as the
    bare identifier [s] when [s] is one of the known loop and
    accumulator names, and as an escaped double-quoted literal for
    every other string. *)
Theorem literal_string_text fuel (blocks : list (string * Block N))
    ty kind s more more' ind :
  let out :=
    processInput fuel blocks (Some (literalInput ty kind (JStr s) more more')) ind in
  (parsesAsNumber s = true -> out = Ok (num_toString (js_Number s))) /\
  (In s knownNames -> out = Ok s) /\
  (parsesAsNumber s = false -> ~ In s knownNames ->
     out = Ok (dq +:+ escapeString s +:+ dq)).
Proof.
  unfold processInput, processInput_with, literalInput, processLiteral, parsesAsNumber.
  cbv zeta. repeat split.
  - intros ->. reflexivity.
  - intros Hin.
    rewrite (Number_word_NaN s (knownName_startsLower s Hin)). simpl.
    apply isKnownName_In in Hin. now rewrite Hin.
  - intros -> Hn.
    destruct (isKnownName s) eqn:E; [|reflexivity].
    apply isKnownName_In in E. contradiction.
Qed.

End Expressions.

Lemma literal_string_text_witness :
  processInput 0 [] (Some (ex_literal "42")) 0 = Ok "42" /\
  processInput 0 [] (Some (ex_literal "len")) 0 = Ok "len" /\
  processInput 0 [] (Some (ex_literal "hello")) 0 = Ok (dq +:+ "hello" +:+ dq).
Proof.
  split; [|split].
  - exact (proj1 (literal_string_text (N := decimalNumbers) 0 []
                    (ex_num 1) (ex_num 10) "42" [] [] 0) eq_refl).
  - refine (proj1 (proj2 (literal_string_text (N := decimalNumbers) 0 []
                            (ex_num 1) (ex_num 10) "len" [] [] 0)) _).
    simpl. tauto.
  - refine (proj2 (proj2 (literal_string_text (N := decimalNumbers) 0 []
                            (ex_num 1) (ex_num 10) "hello" [] [] 0)) eq_refl _).
    simpl. intros H. repeat (destruct H as [H|H]; [discriminate H|]). exact H.
Defined.

Lemma binary_operator_text_witness :
  decompileBlock 1 [] "a" ex_add 0 = Ok "1 + 2".
Proof.
  apply (binary_operator_text (N := decimalNumbers) 0 [] "a" ex_add 0
           "operator_add" "+" "1" "2").
  - simpl. tauto.
  - reflexivity.
  - reflexivity.
  - reflexivity.
Defined.

(** ** Properties of statement generation *)

Section Statements.

Context {N : JSNumbers}.

(** C7, as amended.  An if/else block is always emitted as an if/else
    pair: the else block is there also when no alternate body is
    present, and is then empty.  Only an if block, which has no
    alternate body, is emitted without an else block. *)
Theorem branching_text fuel (blocks : list (string * Block N))
    blockId block ind c b rest :
  processInput fuel blocks (assoc "CONDITION" (inputs block)) ind = Ok c ->
  bodyOf (decompileBlock fuel) blocks block ind "SUBSTACK" = Ok b ->
  chainOf (decompileBlock fuel) blocks (nextBlock blocks block) ind = Ok rest ->
  (opcode block = "control_if_else" ->
   forall b2,
     bodyOf (decompileBlock fuel) blocks block ind "SUBSTACK2" = Ok b2 ->
     decompileBlock (S fuel) blocks blockId block ind =
     Ok ((spaces (ind * 4) +:+ "if (" +:+ c +:+ ") {" +:+ nl +:+
          b +:+ spaces (ind * 4) +:+ "} else {" +:+ nl +:+
          b2 +:+ spaces (ind * 4) +:+ "}" +:+ nl) +:+ rest) /\
     (substackBlock blocks block "SUBSTACK2" = None -> b2 = "")) /\
  (opcode block = "control_if" ->
   decompileBlock (S fuel) blocks blockId block ind =
   Ok ((spaces (ind * 4) +:+ "if (" +:+ c +:+ ") {" +:+ nl +:+
        b +:+ spaces (ind * 4) +:+ "}" +:+ nl) +:+ rest)).
Proof.
  intros Hc Hb Hrest. unfold processInput in Hc. split.
  - intros Hop b2 Hb2. split.
    + rewrite decompileBlock_S. unfold decompileStep, emitBlock.
      rewrite Hop. change (classify "control_if_else") with SIfElse.
      cbv zeta. unfold inputOf. rewrite Hc. simpl bindO.
      rewrite Hb. simpl bindO. rewrite Hb2. simpl bindO.
      rewrite Hrest. reflexivity.
    + intros Hnone. unfold bodyOf in Hb2. rewrite Hnone in Hb2.
      destruct (keyCoerces block "SUBSTACK2"); [|discriminate Hb2].
      simpl in Hb2. congruence.
  - intros Hop.
    rewrite decompileBlock_S. unfold decompileStep, emitBlock.
    rewrite Hop. change (classify "control_if") with SIf.
    cbv zeta. unfold inputOf. rewrite Hc. simpl bindO.
    rewrite Hb. simpl bindO. rewrite Hrest. reflexivity.
Qed.

End Statements.

Lemma branching_text_witness :
  decompileBlock 3 ex_ifelse_blocks "A" ex_ifelse 0 =
  Ok ("if (null) {" +:+ nl +:+ "    looks.show();" +:+ nl +:+
      "} else {" +:+ nl +:+ "}" +:+ nl).
Proof.
  exact (proj1 (proj1 (branching_text (N := decimalNumbers) 2 ex_ifelse_blocks
                         "A" ex_ifelse 0 "null" ("    looks.show();" +:+ nl) ""
                         eq_refl eq_refl eq_refl)
                  eq_refl "" eq_refl)).
Defined.

(** C7, counterexample.  An if/else block without an alternate body:
    the text has an else block all the same. *)
Lemma branching_else_not_omitted :
  substackBlock ex_ifelse_blocks ex_ifelse "SUBSTACK2" = None /\
  exists out,
    decompileBlock 3 ex_ifelse_blocks "A" ex_ifelse 0 = Ok out /\
    includes out "else" = true.
Proof.
  split; [reflexivity|].
  eexists. split; [reflexivity|]. vm_compute. reflexivity.
Qed.

(** ** Properties of [findTopLevelBlocks] *)

Section TopLevel.

Context {N : JSNumbers}.

Lemma fold_children_elem (blocks : list (string * Block N)) (acc : gset string) id :
  id ∈ fold_left (fun (acc : gset string) (kb : string * Block N) =>
                    acc ∪ list_to_set (blockChildren kb.2)) blocks acc
  <-> id ∈ acc \/ exists kb, In kb blocks /\ In id (blockChildren kb.2).
Proof.
  revert acc. induction blocks as [|kb blocks IH]; intros acc; simpl.
  - split; [auto|]. intros [H|(kb & [] & _)]. exact H.
  - rewrite IH, elem_of_union, elem_of_list_to_set, list_elem_of_In. split.
    + intros [[H|H]|(kb' & Hin & H)]; eauto 6.
    + intros [H|(kb' & [<-|Hin] & H)]; eauto 6.
Qed.

Lemma blockChildren_In (b : Block N) id :
  In id (blockChildren b) <->
  (exists kv, In kv (inputs b) /\ inputChild kv.2 = Some id) \/
  nextChild b = Some id.
Proof.
  unfold blockChildren. rewrite in_app_iff, <- list_elem_of_In, list_elem_of_omap.
  split.
  - intros [(v & Hv & E)|H].
    + left. apply list_elem_of_In, in_map_iff in Hv as (kv & <- & Hkv). eauto.
    + right. destruct (nextChild b); simpl in H; [|tauto].
      destruct H as [->|[]]. reflexivity.
  - intros [(kv & Hkv & E)|H].
    + left. exists kv.2. split; [|exact E].
      apply list_elem_of_In, in_map. exact Hkv.
    + right. rewrite H. simpl. auto.
Qed.

Lemma isChild_spec (blocks : list (string * Block N)) id :
  isChild blocks id = true <-> id ∈ childBlocks blocks.
Proof.
  unfold childBlocks, isChild.
  rewrite fold_children_elem, existsb_exists. split.
  - intros (kb & Hkb & H). right. exists kb. split; [exact Hkb|].
    apply blockChildren_In. apply orb_prop in H as [H|H].
    + left. apply existsb_exists in H as (kv & Hkv & H).
      exists kv. split; [exact Hkv|].
      destruct (inputChild kv.2); [|discriminate].
      apply String.eqb_eq in H. now subst.
    + right. destruct (nextChild kb.2); [|discriminate].
      apply String.eqb_eq in H. now subst.
  - intros [H|(kb & Hkb & H)]; [now apply not_elem_of_empty in H|].
    exists kb. split; [exact Hkb|].
    apply blockChildren_In in H as [(kv & Hkv & E)|E].
    + apply orb_true_intro. left. apply existsb_exists.
      exists kv. split; [exact Hkv|]. rewrite E. apply String.eqb_refl.
    + apply orb_true_intro. right. rewrite E. apply String.eqb_refl.
Qed.

Lemma isChild_decide (blocks : list (string * Block N)) id :
  bool_decide (id ∈ childBlocks blocks) = isChild blocks id.
Proof.
  destruct (isChild blocks id) eqn:E.
  - apply bool_decide_eq_true, isChild_spec, E.
  - apply bool_decide_eq_false. intros H. apply isChild_spec in H. congruence.
Qed.

Lemma filter_map_fst {A B : Type} (f : A -> bool) (l : list (A * B)) :
  List.filter f (map fst l) = map fst (List.filter (fun kb => f kb.1) l).
Proof.
  induction l as [|[a b] l IH]; simpl; [reflexivity|].
  destruct (f a); simpl; now rewrite IH.
Qed.

(** The third loop appends, in map order, the event blocks that the
    second loop left out. *)
Lemma fold_pushEvent (blocks : list (string * Block N)) (acc : list string) :
  NoDup (map fst blocks) ->
  fold_left pushEvent blocks acc =
  (acc ++ map fst (List.filter
                     (fun kb => isEvent kb.2 && negb (bool_decide (kb.1 ∈ acc)))
                     blocks))%list.
Proof.
  revert acc. induction blocks as [|kb blocks IH]; intros acc Hnd; simpl.
  - now rewrite app_nil_r.
  - apply NoDup_cons in Hnd as [Hnotin Hnd].
    unfold pushEvent at 2. fold (isEvent kb.2).
    destruct (isEvent kb.2 && negb (bool_decide (kb.1 ∈ acc))) eqn:E; simpl.
    + rewrite IH by exact Hnd. rewrite <- app_assoc. simpl. do 2 f_equal.
      f_equal. apply filter_ext_in. intros kb' Hin. f_equal. f_equal.
      apply bool_decide_ext. rewrite elem_of_app, list_elem_of_singleton.
      split; [|tauto]. intros [H|H]; [exact H|].
      exfalso. apply Hnotin. rewrite <- H. apply list_elem_of_In, in_map.
      exact Hin.
    + apply IH. exact Hnd.
Qed.

Lemma topLevel_filters (blocks : list (string * Block N)) :
  NoDup (map fst blocks) ->
  findTopLevelBlocks blocks = topLevelOrder blocks.
Proof.
  intros Hnd. unfold findTopLevelBlocks, topLevelOrder.
  rewrite fold_pushEvent by exact Hnd.
  rewrite filter_map_fst. f_equal.
  - f_equal. apply filter_ext. intros kb. now rewrite isChild_decide.
  - f_equal. apply filter_ext_in. intros kb Hin. f_equal.
    rewrite <- (isChild_decide blocks kb.1).
    destruct (bool_decide (kb.1 ∈ childBlocks blocks)) eqn:E; simpl.
    + apply negb_true_iff, bool_decide_eq_false.
      rewrite list_elem_of_In. intros H.
      apply in_map_iff in H as (kb' & Hk & H).
      apply filter_In in H as [_ H]. rewrite Hk, E in H. discriminate.
    + apply negb_false_iff, bool_decide_eq_true, list_elem_of_In.
      apply in_map_iff. exists kb. split; [reflexivity|].
      apply filter_In. split; [exact Hin|]. now rewrite E.
Qed.

(** C4, as amended.  The entry points are exactly the identifiers
    that no input tuple holds as its second element and no block has
    as its non-empty "next", together with every event block; they
    are listed with the identifiers that are not referred to first,
    in block-map order, and the referred-to event blocks after them,
    in block-map order. *)
Theorem findTopLevelBlocks_characterised (blocks : list (string * Block N)) :
  NoDup (map fst blocks) ->
  findTopLevelBlocks blocks = topLevelOrder blocks /\
  (forall id,
     In id (findTopLevelBlocks blocks) <->
     exists b, In (id, b) blocks /\ (isChild blocks id = false \/ isEvent b = true)).
Proof.
  intros Hnd. split; [now apply topLevel_filters|].
  intros id. rewrite (topLevel_filters blocks Hnd). unfold topLevelOrder.
  rewrite in_app_iff, !in_map_iff. split.
  - intros [([k b] & <- & H)|([k b] & <- & H)];
      apply filter_In in H as [Hin H]; simpl in *; exists b.
    + apply negb_true_iff in H. auto.
    + apply andb_prop in H as [H _]. auto.
  - intros (b & Hin & H).
    destruct (isChild blocks id) eqn:E.
    + right. exists (id, b). split; [reflexivity|].
      apply filter_In. split; [exact Hin|]. simpl. rewrite E.
      destruct H as [H|H]; [discriminate|]. now rewrite H.
    + left. exists (id, b). split; [reflexivity|].
      apply filter_In. split; [exact Hin|]. simpl. now rewrite E.
Qed.

End TopLevel.

Lemma findTopLevelBlocks_characterised_witness :
  findTopLevelBlocks ex_event_child = topLevelOrder ex_event_child.
Proof.
  refine (proj1 (findTopLevelBlocks_characterised (N := decimalNumbers)
                   ex_event_child _)).
  apply NoDup_cons. split.
  - intros H. apply list_elem_of_singleton in H. discriminate.
  - apply NoDup_singleton.
Defined.

(** C4, counterexample.  The event block [E] comes first in the block
    map and is the "next" of [X]: the resolver lists it after [X]. *)
Lemma findTopLevelBlocks_not_map_order :
  map fst ex_event_child = ["E"; "X"] /\
  findTopLevelBlocks ex_event_child = ["X"; "E"].
Proof. split; reflexivity. Qed.

(** ** Properties of the declaration preamble *)

Section Declarations.

Context {N : JSNumbers}.

(** The seed holds the numerals 1 to 10, in ascending order. *)
Lemma numbersSeed_literals :
  numbersSeed = "[" +:+ join ", " (map pretty (seq 1 10)) +:+ "]".
Proof. vm_compute. reflexivity. Qed.

(** *** Reading and writing a value object *)

Lemma isProtoKey_proto k : isProtoKey k = false -> k <> "__proto__".
Proof. intros H ->. discriminate H. Qed.

Lemma objSet_insert (m : gmap string (JSValue N)) k v :
  k <> "__proto__" -> objSet m k v = <[k := v]> m.
Proof.
  intros Hk. unfold objSet.
  destruct (String.eqb_spec k "__proto__"); [contradiction|reflexivity].
Qed.

Lemma objSet_lookup (m : gmap string (JSValue N)) k v name :
  name <> "__proto__" ->
  objSet m k v !! name = if decide (k = name) then Some v else m !! name.
Proof.
  intros Hn. unfold objSet.
  destruct (String.eqb_spec k "__proto__") as [->|Hk].
  - destruct (decide ("__proto__" = name)) as [E|_]; [now destruct Hn|reflexivity].
  - destruct (decide (k = name)) as [->|Hne].
    + apply lookup_insert_eq.
    + now apply lookup_insert_ne.
Qed.

Lemma objGet_plain (m : gmap string (JSValue N)) name :
  isProtoKey name = false ->
  objGet m name = match m !! name with Some v => Own v | None => Undefined end.
Proof.
  intros Hp. unfold objGet. rewrite Hp.
  destruct (String.eqb_spec name "__proto__") as [->|_]; [discriminate Hp|reflexivity].
Qed.

(** *** What the explicit declarations put into the value objects *)

Lemma declareVariable_lookup (c : Collected N) e name :
  name <> "__proto__" ->
  variableInitialValues (declareVariable c e) !! name =
  match e with
  | JArr (n :: rest) =>
      if truthy n && negb (isCloud n) && String.eqb (js_toString n) name
      then Some (declaredValue rest) else variableInitialValues c !! name
  | _ => variableInitialValues c !! name
  end.
Proof.
  intros Hn. unfold declareVariable.
  destruct e as [| | | |[|n rest]|]; try reflexivity.
  destruct (truthy n && negb (isCloud n)); [|reflexivity].
  cbn [variableInitialValues andb]. rewrite objSet_lookup by exact Hn.
  destruct (decide (js_toString n = name)) as [->|Hne].
  - now rewrite String.eqb_refl.
  - apply String.eqb_neq in Hne. now rewrite Hne.
Qed.

Lemma declareList_lookup (c : Collected N) e name :
  name <> "__proto__" ->
  listInitialValues (declareList c e) !! name =
  match e with
  | JArr (n :: rest) =>
      if truthy n && String.eqb (js_toString n) name
      then Some (declaredItems rest) else listInitialValues c !! name
  | _ => listInitialValues c !! name
  end.
Proof.
  intros Hn. unfold declareList.
  destruct e as [| | | |[|n rest]|]; try reflexivity.
  destruct (truthy n); [|reflexivity].
  cbn [listInitialValues andb]. rewrite objSet_lookup by exact Hn.
  destruct (decide (js_toString n = name)) as [->|Hne].
  - now rewrite String.eqb_refl.
  - apply String.eqb_neq in Hne. now rewrite Hne.
Qed.

Lemma declareVariable_lists (c : Collected N) e :
  listInitialValues (declareVariable c e) = listInitialValues c.
Proof.
  unfold declareVariable. destruct e as [| | | |[|n rest]|]; try reflexivity.
  now destruct (truthy n && negb (isCloud n)).
Qed.

Lemma declareList_variables (c : Collected N) e :
  variableInitialValues (declareList c e) = variableInitialValues c.
Proof.
  unfold declareList. destruct e as [| | | |[|n rest]|]; try reflexivity.
  now destruct (truthy n).
Qed.

Lemma fold_declareVariable_lists (l : list (JSValue N)) c :
  listInitialValues (fold_left declareVariable l c) = listInitialValues c.
Proof.
  revert c. induction l as [|e l IH]; intros c; simpl; [reflexivity|].
  now rewrite IH, declareVariable_lists.
Qed.

Lemma fold_declareList_variables (l : list (JSValue N)) c :
  variableInitialValues (fold_left declareList l c) = variableInitialValues c.
Proof.
  revert c. induction l as [|e l IH]; intros c; simpl; [reflexivity|].
  now rewrite IH, declareList_variables.
Qed.

(** A fold that keeps the last value found is a fold from nothing,
    with the start value as the fallback. *)
Lemma fold_last {A : Type} (f : A -> option (JSValue N)) (l : list A) acc :
  fold_left (fun acc e => match f e with Some v => Some v | None => acc end) l acc =
  match fold_left (fun acc e => match f e with Some v => Some v | None => acc end) l None with
  | Some v => Some v
  | None => acc
  end.
Proof.
  revert acc. induction l as [|e l IH]; intros acc; simpl; [reflexivity|].
  rewrite IH. rewrite (IH (match f e with Some v => Some v | None => None end)).
  destruct (fold_left _ l None); [reflexivity|]. now destruct (f e).
Qed.

Lemma fold_declareVariable_lookup (l : list (JSValue N)) c name :
  name <> "__proto__" ->
  variableInitialValues (fold_left declareVariable l c) !! name =
  match fold_left (fun acc e => match variableEntry name e with
                                | Some v => Some v | None => acc end) l None with
  | Some v => Some v
  | None => variableInitialValues c !! name
  end.
Proof.
  intros Hn. revert c. induction l as [|e l IH]; intros c; simpl; [reflexivity|].
  rewrite (IH (declareVariable c e)),
    (fold_last (variableEntry name) l
       (match variableEntry name e with Some v => Some v | None => None end)).
  clear IH. destruct (fold_left _ l None) as [v|]; [reflexivity|].
  rewrite declareVariable_lookup by exact Hn.
  unfold variableEntry. destruct e as [| | | |[|n rest]|]; try reflexivity.
  now destruct (truthy n && negb (isCloud n) && String.eqb (js_toString n) name).
Qed.

Lemma fold_declareList_lookup (l : list (JSValue N)) c name :
  name <> "__proto__" ->
  listInitialValues (fold_left declareList l c) !! name =
  match fold_left (fun acc e => match listEntry name e with
                                | Some v => Some v | None => acc end) l None with
  | Some v => Some v
  | None => listInitialValues c !! name
  end.
Proof.
  intros Hn. revert c. induction l as [|e l IH]; intros c; simpl; [reflexivity|].
  rewrite (IH (declareList c e)),
    (fold_last (listEntry name) l
       (match listEntry name e with Some v => Some v | None => None end)).
  clear IH. destruct (fold_left _ l None) as [v|]; [reflexivity|].
  rewrite declareList_lookup by exact Hn.
  unfold listEntry. destruct e as [| | | |[|n rest]|]; try reflexivity.
  now destruct (truthy n && String.eqb (js_toString n) name).
Qed.

Lemma explicit_lookup (variables lists : JSValue N) name :
  name <> "__proto__" ->
  variableInitialValues (explicitDeclarations variables lists) !! name =
    explicitVariable name variables /\
  listInitialValues (explicitDeclarations variables lists) !! name =
    explicitList name lists.
Proof.
  intros Hn. unfold explicitDeclarations. split.
  - rewrite fold_declareList_variables, fold_declareVariable_lookup by exact Hn.
    unfold explicitVariable, lastFound, emptyCollected. cbn [variableInitialValues].
    rewrite lookup_empty. now destruct (fold_left _ _ None).
  - rewrite fold_declareList_lookup by exact Hn.
    rewrite fold_declareVariable_lists.
    unfold explicitList, lastFound, emptyCollected. cbn [listInitialValues].
    rewrite lookup_empty. now destruct (fold_left _ _ None).
Qed.

(** *** What the scan adds to the value objects

    A name that [Object.prototype] has is found [in] the object, so
    that nothing is stored for it. *)

Lemma scanBlock_variable (c : Collected N) kb name :
  variableInitialValues (scanBlock c kb) !! name =
  match variableInitialValues c !! name with
  | Some v => Some v
  | None =>
      if bool_decide (scannedVariable kb.2 = Some name) && negb (isProtoKey name)
      then Some (JStr "") else None
  end.
Proof.
  unfold scanBlock, scannedVariable, isVariableWrite.
  destruct (String.eqb (opcode kb.2) "data_setvariableto" ||
            String.eqb (opcode kb.2) "data_changevariableby").
  - destruct (field0 kb.2 "VARIABLE") as [v|];
      [destruct (truthy v && negb (isCloud v))|]; cbn [variableInitialValues].
    + unfold objIn, objSet.
      destruct (decide (js_toString v = name)) as [->|Hne].
      * destruct (variableInitialValues c !! name) eqn:E; [exact E|].
        rewrite bool_decide_eq_true_2 by reflexivity. cbn [andb].
        destruct (isProtoKey name) eqn:Ep; cbn [negb]; [exact E|].
        destruct (String.eqb_spec name "__proto__") as [->|_]; [discriminate Ep|].
        apply lookup_insert_eq.
      * rewrite bool_decide_eq_false_2 by congruence. cbn [andb].
        assert (E : forall m : gmap string (JSValue N),
                      m = variableInitialValues c \/
                      m = <[js_toString v := JStr ""]> (variableInitialValues c) ->
                      m !! name = match variableInitialValues c !! name with
                                  | Some x => Some x | None => None end).
        { intros m [->| ->]; [|rewrite lookup_insert_ne by exact Hne];
            now destruct (variableInitialValues c !! name). }
        apply E.
        destruct (variableInitialValues c !! js_toString v); [now left|].
        destruct (isProtoKey (js_toString v)); [now left|].
        destruct (String.eqb (js_toString v) "__proto__"); [now left|now right].
    + rewrite bool_decide_eq_false_2 by discriminate.
      now destruct (variableInitialValues c !! name).
    + rewrite bool_decide_eq_false_2 by discriminate.
      now destruct (variableInitialValues c !! name).
  - rewrite bool_decide_eq_false_2 by discriminate.
    assert (E : forall c', variableInitialValues c' = variableInitialValues c ->
                variableInitialValues c' !! name =
                match variableInitialValues c !! name with
                | Some v => Some v | None => None end).
    { intros c' ->. now destruct (variableInitialValues c !! name). }
    cbn [andb].
    destruct (startsWith (opcode kb.2) "data_"); [|now apply E].
    destruct (field0 kb.2 "LIST") as [v|]; [|now apply E].
    destruct (truthy v); now apply E.
Qed.

Lemma scanBlock_list (c : Collected N) kb name :
  listInitialValues (scanBlock c kb) !! name =
  match listInitialValues c !! name with
  | Some v => Some v
  | None =>
      if bool_decide (scannedList kb.2 = Some name) && negb (isProtoKey name)
      then Some (JArr []) else None
  end.
Proof.
  assert (E : forall c', listInitialValues c' = listInitialValues c ->
              listInitialValues c' !! name =
              match listInitialValues c !! name with
              | Some v => Some v | None => None end).
  { intros c' ->. now destruct (listInitialValues c !! name). }
  unfold scanBlock, scannedList, isVariableWrite.
  destruct (String.eqb (opcode kb.2) "data_setvariableto" ||
            String.eqb (opcode kb.2) "data_changevariableby").
  - rewrite bool_decide_eq_false_2 by discriminate. cbn [andb].
    destruct (field0 kb.2 "VARIABLE") as [v|]; [|now apply E].
    destruct (truthy v && negb (isCloud v)); now apply E.
  - destruct (startsWith (opcode kb.2) "data_");
      [|rewrite bool_decide_eq_false_2 by discriminate; now apply E].
    destruct (field0 kb.2 "LIST") as [v|];
      [|rewrite bool_decide_eq_false_2 by discriminate; now apply E].
    destruct (truthy v);
      [|rewrite bool_decide_eq_false_2 by discriminate; now apply E].
    cbn [listInitialValues]. unfold objIn, objSet.
    destruct (decide (js_toString v = name)) as [->|Hne].
    + destruct (listInitialValues c !! name) eqn:E'; [exact E'|].
      rewrite bool_decide_eq_true_2 by reflexivity. cbn [andb].
      destruct (isProtoKey name) eqn:Ep; cbn [negb]; [exact E'|].
      destruct (String.eqb_spec name "__proto__") as [->|_]; [discriminate Ep|].
      apply lookup_insert_eq.
    + rewrite bool_decide_eq_false_2 by congruence. cbn [andb].
      assert (E2 : forall m : gmap string (JSValue N),
                     m = listInitialValues c \/
                     m = <[js_toString v := JArr []]> (listInitialValues c) ->
                     m !! name = match listInitialValues c !! name with
                                 | Some x => Some x | None => None end).
      { intros m [->| ->]; [|rewrite lookup_insert_ne by exact Hne];
          now destruct (listInitialValues c !! name). }
      apply E2.
      destruct (listInitialValues c !! js_toString v); [now left|].
      destruct (isProtoKey (js_toString v)); [now left|].
      destruct (String.eqb (js_toString v) "__proto__"); [now left|now right].
Qed.

Lemma omap_cons_elem {A : Type} (f : A -> option string) (x : A) (l : list A) name :
  name ∈ omap f (x :: l) <-> f x = Some name \/ name ∈ omap f l.
Proof.
  simpl. destruct (f x) as [y|].
  - rewrite elem_of_cons. split.
    + intros [->|H]; auto.
    + intros [[= ->]|H]; auto.
  - split; [auto|]. intros [[=]|H]. exact H.
Qed.

Lemma scan_variables (blocks : list (string * Block N)) (c : Collected N) name :
  variableInitialValues (fold_left scanBlock blocks c) !! name =
  match variableInitialValues c !! name with
  | Some v => Some v
  | None =>
      if bool_decide (name ∈ scannedVariables blocks) && negb (isProtoKey name)
      then Some (JStr "") else None
  end.
Proof.
  unfold scannedVariables.
  revert c. induction blocks as [|kb blocks IH]; intros c; simpl fold_left.
  - rewrite bool_decide_eq_false_2 by apply not_elem_of_nil.
    now destruct (variableInitialValues c !! name).
  - rewrite IH, scanBlock_variable.
    destruct (variableInitialValues c !! name); [reflexivity|].
    simpl map. destruct (decide (scannedVariable kb.2 = Some name)) as [E|E].
    + rewrite (bool_decide_eq_true_2 _ E).
      rewrite (bool_decide_eq_true_2 (name ∈ omap scannedVariable (kb.2 :: map snd blocks)))
        by (apply omap_cons_elem; auto).
      cbn [andb]. destruct (isProtoKey name); cbn [negb];
        [now rewrite andb_false_r|reflexivity].
    + rewrite (bool_decide_eq_false_2 _ E). cbn [andb].
      rewrite (bool_decide_ext (name ∈ omap scannedVariable (kb.2 :: map snd blocks))
                 (name ∈ omap scannedVariable (map snd blocks))); [reflexivity|].
      rewrite omap_cons_elem. tauto.
Qed.

Lemma scan_lists (blocks : list (string * Block N)) (c : Collected N) name :
  listInitialValues (fold_left scanBlock blocks c) !! name =
  match listInitialValues c !! name with
  | Some v => Some v
  | None =>
      if bool_decide (name ∈ scannedLists blocks) && negb (isProtoKey name)
      then Some (JArr []) else None
  end.
Proof.
  unfold scannedLists.
  revert c. induction blocks as [|kb blocks IH]; intros c; simpl fold_left.
  - rewrite bool_decide_eq_false_2 by apply not_elem_of_nil.
    now destruct (listInitialValues c !! name).
  - rewrite IH, scanBlock_list.
    destruct (listInitialValues c !! name); [reflexivity|].
    simpl map. destruct (decide (scannedList kb.2 = Some name)) as [E|E].
    + rewrite (bool_decide_eq_true_2 _ E).
      rewrite (bool_decide_eq_true_2 (name ∈ omap scannedList (kb.2 :: map snd blocks)))
        by (apply omap_cons_elem; auto).
      cbn [andb]. destruct (isProtoKey name); cbn [negb];
        [now rewrite andb_false_r|reflexivity].
    + rewrite (bool_decide_eq_false_2 _ E). cbn [andb].
      rewrite (bool_decide_ext (name ∈ omap scannedList (kb.2 :: map snd blocks))
                 (name ∈ omap scannedList (map snd blocks))); [reflexivity|].
      rewrite omap_cons_elem. tauto.
Qed.

(** *** The eight assignments after the scan *)

Lemma assignKnown_lookup (m : gmap string (JSValue N)) name :
  assignKnown m !! name =
  match assoc name knownValues with
  | Some k => Some k
  | None => m !! name
  end.
Proof.
  unfold assignKnown, knownValues.
  cbn [assoc fold_left fst snd].
  rewrite !objSet_insert by discriminate.
  repeat
    match goal with
    | |- context [String.eqb ?k name] =>
        destruct (String.eqb_spec k name) as [<-|?];
        [ repeat first [ rewrite lookup_insert_eq
                       | rewrite lookup_insert_ne by discriminate ];
          reflexivity | ]
    end.
  now rewrite !lookup_insert_ne by assumption.
Qed.

Lemma knownValues_plain name k :
  assoc name (@knownValues N) = Some k -> isProtoKey name = false.
Proof.
  unfold knownValues. cbn [assoc].
  repeat
    match goal with
    | |- context [String.eqb ?x name] =>
        destruct (String.eqb_spec x name) as [<-|?]; [reflexivity|]
    end.
  discriminate.
Qed.

(** The own properties of the two value objects, for every name but
    [__proto__]. *)
Lemma collect_lookup (blocks : list (string * Block N)) (variables lists : JSValue N) name :
  name <> "__proto__" ->
  variableInitialValues (collect blocks variables lists) !! name =
    match assoc name knownValues with
    | Some k => Some k
    | None =>
        match explicitVariable name variables with
        | Some v => Some v
        | None =>
            if bool_decide (name ∈ scannedVariables blocks) && negb (isProtoKey name)
            then Some (JStr "") else None
        end
    end /\
  listInitialValues (collect blocks variables lists) !! name =
    match explicitList name lists with
    | Some v => Some v
    | None =>
        if bool_decide (name ∈ scannedLists blocks) && negb (isProtoKey name)
        then Some (JArr []) else None
    end.
Proof.
  intros Hn. destruct (explicit_lookup variables lists name Hn) as [Ev El].
  unfold collect. cbn [variableInitialValues listInitialValues]. split.
  - now rewrite assignKnown_lookup, scan_variables, Ev.
  - now rewrite scan_lists, El.
Qed.

(** *** Where the declarations are in the generated text *)

Lemma bindO_Ok {A B : Type} (m : Outcome A) (k : A -> Outcome B) b :
  bindO m k = Ok b -> exists a, m = Ok a /\ k a = Ok b.
Proof. destruct m as [a|e]; simpl; [eauto|discriminate]. Qed.

Lemma mapO_In {A B : Type} (f : A -> Outcome B) (l : list A) ys x :
  mapO f l = Ok ys -> In x l ->
  exists y ys1 ys2, f x = Ok y /\ ys = (ys1 ++ y :: ys2)%list.
Proof.
  revert ys. induction l as [|a l IH]; intros ys H Hin; [destruct Hin|].
  simpl in H. apply bindO_Ok in H as (y & Hy & H).
  apply bindO_Ok in H as (ys' & Hys & H). injection H as <-.
  destruct Hin as [->|Hin].
  - exists y, [], ys'. split; [exact Hy|reflexivity].
  - destruct (IH ys' Hys Hin) as (y0 & ys1 & ys2 & Hy0 & ->).
    exists y0, (y :: ys1), ys2. split; [exact Hy0|reflexivity].
Qed.

Lemma append_nil_r (s : string) : s +:+ "" = s.
Proof. induction s as [|a s IH]; simpl; [reflexivity|now rewrite IH]. Qed.

Lemma concat_cons (x : string) (l : list string) :
  String.concat "" (x :: l) = x +:+ String.concat "" l.
Proof. destruct l; simpl; [now rewrite append_nil_r|reflexivity]. Qed.

Lemma concat_app (l1 l2 : list string) :
  String.concat "" (l1 ++ l2) = String.concat "" l1 +:+ String.concat "" l2.
Proof.
  induction l1 as [|x l1 IH]; [reflexivity|].
  change ((x :: l1) ++ l2)%list with (x :: (l1 ++ l2))%list.
  now rewrite !concat_cons, IH, append_assoc.
Qed.

(** A generated text holds the declaration of every variable and of
    every list of the two sets, and every name of the sets was
    coerced. *)
Lemma generate_declarations fuel (blocks : list (string * Block N))
    (variables lists : JSValue N) out :
  generateJavaScriptFromBlocks fuel blocks variables lists = Ok out ->
  let c := collect blocks variables lists in
  (forall v, In v (variableSet c) ->
     coercible v = true /\
     exists line before after,
       variableLine (variableInitialValues c) v = Ok line /\
       out = before +:+ line +:+ after) /\
  (forall v, In v (listSet c) ->
     coercible v = true /\
     exists line before after,
       listLine (listInitialValues c) v = Ok line /\
       out = before +:+ line +:+ after).
Proof.
  intros Hout c. unfold generateJavaScriptFromBlocks in Hout. fold c in Hout.
  destruct (namesCoerce c) eqn:Hnames; [|discriminate Hout].
  apply andb_prop in Hnames as [Hvn Hln]. rewrite forallb_forall in Hvn, Hln.
  apply bindO_Ok in Hout as (vs & Hvs & Hout). cbv zeta in Hout.
  apply bindO_Ok in Hout as (ls & Hls & Hout).
  assert (Htail : exists tail,
            out = ("// Decompiled from Scratch project" +:+ nl +:+ nl +:+ vs) +:+
                  ls +:+ tail).
  { destruct (findTopLevelBlocks blocks) as [|t top].
    - injection Hout as <-. eauto.
    - apply bindO_Ok in Hout as (chains & _ & Hout). injection Hout as <-. eauto. }
  destruct Htail as (tail & ->). split.
  - intros v Hv. split; [now apply Hvn|].
    unfold variablePreamble in Hvs.
    destruct (variableSet c) as [|n0 names] eqn:Es; [destruct Hv|].
    apply bindO_Ok in Hvs as (lines & Hlines & Hvs). injection Hvs as <-.
    destruct (mapO_In _ _ _ v Hlines Hv) as (y & ys1 & ys2 & Hy & ->).
    exists y,
      ("// Decompiled from Scratch project" +:+ nl +:+ nl +:+ String.concat "" ys1),
      (String.concat "" ys2 +:+ nl +:+ ls +:+ tail).
    split; [exact Hy|].
    rewrite concat_app, concat_cons. now rewrite !append_assoc.
  - intros v Hv. split; [now apply Hln|].
    unfold listPreamble in Hls.
    destruct (listSet c) as [|n0 names] eqn:Es; [destruct Hv|].
    apply bindO_Ok in Hls as (lines & Hlines & Hls). injection Hls as <-.
    destruct (mapO_In _ _ _ v Hlines Hv) as (y & ys1 & ys2 & Hy & ->).
    exists y,
      (("// Decompiled from Scratch project" +:+ nl +:+ nl +:+ vs) +:+
       String.concat "" ys1),
      (String.concat "" ys2 +:+ nl +:+ tail).
    split; [exact Hy|].
    rewrite concat_app, concat_cons. now rewrite !append_assoc.
Qed.

Lemma listLine_numbers (m : gmap string (JSValue N)) :
  listLine m (JStr "numbers") = Ok (emptyListLine "numbers").
Proof.
  unfold listLine, emptyListLine. cbn [isNumbers String.eqb Ascii.eqb Bool.eqb].
  rewrite numbersSeed_literals. now rewrite !append_assoc.
Qed.

Lemma toText_coercible (v : JSValue N) :
  coercible v = true -> toText v = Ok (js_toString v).
Proof. intros H. unfold toText. now rewrite H. Qed.

Lemma found_member (l : list (JSValue N)) name :
  name ∈ map js_toString l -> exists v, In v l /\ js_toString v = name.
Proof.
  intros H. apply list_elem_of_In, in_map_iff in H as (v & Hv & Hin). eauto.
Qed.

Lemma strings_coercible (l : list string) :
  forallb coercible (map (@JStr N) l) = true.
Proof. induction l as [|x l IH]; [reflexivity|exact IH]. Qed.

Lemma joinValues_strings sep (l : list string) :
  joinValues sep (map quoteItem (map (@JStr N) l)) = join sep (map quoted l).
Proof. unfold joinValues. now rewrite !map_map. Qed.

(** C2, as amended.  In a generated text, for a name that no plain
    object inherits and declarations that keep the prototype of the
    value objects: a variable under one of the eight conventional names
    has the fixed value of that name, whatever was declared or
    inferred; any other variable has the value of its last explicit
    declaration when there is one, and otherwise the empty string when
    the scan finds the name; the declaration of the variable in the
    text carries that value, a number as its numeral and a string as a
    literal.  A list has the items of its last explicit declaration
    when there is one and otherwise the empty sequence when the scan
    finds the name, and its declaration in the text is made from them,
    except for the list called [numbers], which is written with the
    seed whatever items it has. *)
Theorem declared_value_priority fuel (blocks : list (string * Block N))
    (variables lists : JSValue N) name out :
  prototypeKept variables lists = true ->
  isProtoKey name = false ->
  generateJavaScriptFromBlocks fuel blocks variables lists = Ok out ->
  let c := collect blocks variables lists in
  let value :=
    match assoc name knownValues with
    | Some k => Own k
    | None =>
        match explicitVariable name variables with
        | Some v => Own v
        | None =>
            if bool_decide (name ∈ scannedVariables blocks)
            then Own (JStr "") else Undefined
        end
    end in
  let items :=
    match explicitList name lists with
    | Some v => Own v
    | None =>
        if bool_decide (name ∈ scannedLists blocks)
        then Own (JArr []) else Undefined
    end in
  objGet (variableInitialValues c) name = value /\
  (name ∈ foundVariables c ->
   exists text before after,
     valueText value = Ok text /\
     (forall n, value = Own (JNum n) -> text = num_toString n) /\
     (forall s, value = Own (JStr s) -> text = quoted s) /\
     out = before +:+ variableDeclaration name text +:+ after) /\
  objGet (listInitialValues c) name = items /\
  (name ∈ foundLists c -> name <> "numbers" ->
   exists line before after,
     listDeclaration name items = Ok line /\
     (items = Own (JArr []) -> line = emptyListLine name) /\
     (forall s l, items = Own (JArr (map JStr (s :: l))) ->
                  line = filledListLine name (s :: l)) /\
     out = before +:+ line +:+ after) /\
  (In (JStr "numbers") (listSet c) ->
   exists before after, out = before +:+ emptyListLine "numbers" +:+ after).
Proof.
  intros _ Hp Hout c value items.
  destruct (collect_lookup blocks variables lists name (isProtoKey_proto name Hp))
    as [Ev El].
  destruct (generate_declarations fuel blocks variables lists out Hout) as [Hvars Hlists].
  fold c in Ev, El, Hvars, Hlists.
  assert (Hvalue : objGet (variableInitialValues c) name = value).
  { rewrite objGet_plain by exact Hp. rewrite Ev, Hp. cbn [negb].
    rewrite andb_true_r. unfold value.
    destruct (assoc name knownValues); [reflexivity|].
    destruct (explicitVariable name variables); [reflexivity|].
    now destruct (bool_decide (name ∈ scannedVariables blocks)). }
  assert (Hitems : objGet (listInitialValues c) name = items).
  { rewrite objGet_plain by exact Hp. rewrite El, Hp. cbn [negb].
    rewrite andb_true_r. unfold items.
    destruct (explicitList name lists); [reflexivity|].
    now destruct (bool_decide (name ∈ scannedLists blocks)). }
  split; [exact Hvalue|]. split; [|split; [exact Hitems|split]].
  - intros Hfound. apply found_member in Hfound as (v & Hv & <-).
    destruct (Hvars v Hv) as (Hco & line & before & after & Hline & ->).
    unfold variableLine in Hline. rewrite (toText_coercible v Hco) in Hline.
    cbn [bindO] in Hline. rewrite Hvalue in Hline.
    apply bindO_Ok in Hline as (text & Htext & Hline). injection Hline as <-.
    exists text, before, after. split; [exact Htext|].
    split; [|split; [|reflexivity]].
    + intros n En. rewrite En in Htext. unfold valueText, toText in Htext.
      cbn [coercible js_toString] in Htext. now injection Htext as <-.
    + intros s Es. rewrite Es in Htext. cbn [valueText] in Htext.
      now injection Htext as <-.
  - intros Hfound Hnum. apply found_member in Hfound as (v & Hv & <-).
    destruct (Hlists v Hv) as (Hco & line & before & after & Hline & ->).
    unfold listLine in Hline.
    assert (Hn : isNumbers v = false).
    { destruct v; try reflexivity. simpl. now apply String.eqb_neq. }
    rewrite Hn, (toText_coercible v Hco) in Hline. cbn [bindO] in Hline.
    rewrite Hitems in Hline.
    exists line, before, after. split; [exact Hline|].
    split; [|split; [|reflexivity]].
    + intros Ei. rewrite Ei in Hline. cbn in Hline. injection Hline as <-.
      unfold emptyListLine, createListLine.
      now rewrite (proj2 (String.eqb_neq _ _) Hnum).
    + intros s l Ei. rewrite Ei in Hline.
      unfold listDeclaration in Hline. cbn [truthy] in Hline.
      change (hasPositiveLength (JArr (map JStr (s :: l))))
        with (@Ok bool true) in Hline.
      cbn [bindO] in Hline.
      rewrite strings_coercible, joinValues_strings in Hline.
      now injection Hline as <-.
  - intros Hin.
    destruct (Hlists (JStr "numbers") Hin) as (_ & line & before & after & Hline & ->).
    exists before, after. rewrite listLine_numbers in Hline.
    now injection Hline as <-.
Qed.

End Declarations.

Lemma declared_value_priority_witness :
  objGet (variableInitialValues (collect ex_score_blocks ex_score_seven (JObj [])))
    "score" = Own (ex_num 7) /\
  ("score" ∈ foundVariables (collect ex_score_blocks ex_score_seven (JObj [])) ->
   exists text before after,
     valueText (Own (ex_num 7)) = Ok text /\
     (forall n, Own (ex_num 7) = Own (JNum n) -> text = num_toString n) /\
     (forall s, Own (ex_num 7) = Own (JStr s) -> text = quoted s) /\
     "// Decompiled from Scratch project" +:+ nl +:+ nl +:+
     "let score = 7;" +:+ nl +:+ nl +:+
     "// Main code" +:+ nl +:+ "score = 5;" +:+ nl +:+ nl =
     before +:+ variableDeclaration "score" text +:+ after).
Proof.
  pose proof (declared_value_priority (N := decimalNumbers) 2 ex_score_blocks
                ex_score_seven (JObj []) "score"
                ("// Decompiled from Scratch project" +:+ nl +:+ nl +:+
                 "let score = 7;" +:+ nl +:+ nl +:+
                 "// Main code" +:+ nl +:+ "score = 5;" +:+ nl +:+ nl)
                eq_refl eq_refl) as H.
  destruct H as (H1 & H2 & _); [vm_compute; reflexivity|].
  split; [exact H1|exact H2].
Defined.

(** C8, the failing input.  A list that a block uses and no
    declaration names has no initial values.  When its name is
    [constructor], what is read for it is the function that every plain
    object inherits under that name: its length is 1 and it has no
    [map], so that generation raises a [TypeError] where the
    specification promises an empty list.  Under a name that no
    object inherits the same block gives the empty list. *)
Theorem inherited_list_name_raises :
  scannedLists ex_constructor_blocks = ["constructor"] /\
  explicitList "constructor" (JObj []) = @None (JSValue decimalNumbers) /\
  (forall fuel,
     generateJavaScriptFromBlocks fuel ex_constructor_blocks (JObj []) (JObj []) =
     Throw TypeError) /\
  generateJavaScriptFromBlocks 1
    [ ("a", ex_block "data_deletealloflist"
              [("LIST", JArr [JStr "scores"; JStr "id1"])] [] None) ]
    (JObj []) (JObj []) =
  Ok ("// Decompiled from Scratch project" +:+ nl +:+ nl +:+
      "list.createList(" +:+ dq +:+ "scores" +:+ dq +:+ ");" +:+ nl +:+ nl +:+
      "// Main code" +:+ nl +:+
      "list.deleteAllOfList(" +:+ dq +:+ "scores" +:+ dq +:+ ");" +:+ nl +:+ nl).
Proof.
  split; [reflexivity|]. split; [reflexivity|]. split.
  - intros fuel. unfold generateJavaScriptFromBlocks.
    assert (E : listPreamble (collect ex_constructor_blocks
                                (JObj []) (JObj [])) = Throw TypeError)
      by (vm_compute; reflexivity).
    rewrite E. reflexivity.
  - vm_compute. reflexivity.
Qed.

(** C3, the failing input.  A variable whose name starts with the
    cloud sign is declared like any other, in both shapes: only the
    name that is the cloud sign alone is skipped. *)
Theorem cloud_variable_declared :
  generateJavaScriptFromBlocks 0 [] ex_cloud_pairs (JObj []) =
    Ok ("// Decompiled from Scratch project" +:+ nl +:+ nl +:+
        "let " +:+ cloud +:+ " score = 0;" +:+ nl +:+ nl +:+
        "// No blocks found" +:+ nl) /\
  generateJavaScriptFromBlocks 0 [] ex_cloud_mapping (JObj []) =
    Ok ("// Decompiled from Scratch project" +:+ nl +:+ nl +:+
        "let " +:+ cloud +:+ " score = 0;" +:+ nl +:+ nl +:+
        "// No blocks found" +:+ nl).
Proof. split; vm_compute; reflexivity. Qed.

(** The example of the specification: declared with 7 and set by a
    block, the
    variable is declared with 7. *)
Example declared_seven_kept :
  generateJavaScriptFromBlocks 2 ex_score_blocks ex_score_seven (JObj []) =
  Ok ("// Decompiled from Scratch project" +:+ nl +:+ nl +:+
      "let score = 7;" +:+ nl +:+ nl +:+
      "// Main code" +:+ nl +:+ "score = 5;" +:+ nl +:+ nl).
Proof. vm_compute. reflexivity. Qed.

(** C2, counterexample.  The variable [i] is declared with the value
    7; the value collected and written for it is 1. *)
Lemma declared_value_overridden :
  variableInitialValues (explicitDeclarations ex_i_seven (JObj [])) !! "i" =
    Some (ex_num 7) /\
  variableInitialValues (collect [] ex_i_seven (JObj [])) !! "i" =
    Some (ex_num 1) /\
  generateJavaScriptFromBlocks 0 [] ex_i_seven (JObj []) =
    Ok ("// Decompiled from Scratch project" +:+ nl +:+ nl +:+
        "let i = 1;" +:+ nl +:+ nl +:+ "// No blocks found" +:+ nl).
Proof. repeat split; vm_compute; reflexivity. Qed.

(** ** Chains that never end *)

Section Chains.

Context {N : JSNumbers} {F : FileSystem}.

Ltac split_binds :=
  repeat match goal with
         | H : bindO ?m _ = _ |- _ =>
             let E := fresh "E" in destruct m eqn:E; simpl in H
         | H : match ?m with JStr _ => _ | _ => _ end = _ |- _ =>
             destruct m; simpl in H
         end.

Lemma statement_breaks dec (blocks : list (string * Block N)) block ind s :
  isStatement (opcode block) = true ->
  emitBlock dec blocks block ind <> Ok (Returned s).
Proof.
  unfold isStatement, emitBlock. intros Hst H.
  destruct (classify (opcode block)); try discriminate Hst;
    cbv zeta in H; split_binds; discriminate H.
Qed.

Lemma nextBlock_child (blocks : list (string * Block N)) b id b' :
  nextChild b = Some id -> assoc id blocks = Some b' ->
  nextBlock blocks b = Some (id, OwnBlock b').
Proof.
  unfold nextChild, nextBlock. intros H Hb.
  destruct (next b) as [x|]; [|discriminate].
  destruct (String.eqb x ""); [discriminate|].
  injection H as ->. apply lookupBlock_own in Hb. now rewrite Hb.
Qed.

(** A block on a chain that never ends is not decompiled at any
    depth: every run ends in an exception. *)
Lemma endless_chain_throws (blocks : list (string * Block N)) ids :
  endlessChain blocks ids ->
  forall fuel id b ind,
    ids id -> assoc id blocks = Some b ->
    exists e, decompileBlock fuel blocks id b ind = Throw e.
Proof.
  intros Hchain fuel. induction fuel as [|fuel IH]; intros id b ind Hid Hb.
  - exists RangeError. reflexivity.
  - rewrite decompileBlock_S. unfold decompileStep.
    destruct (Hchain id Hid) as (b0 & id' & Hb0 & Hst & Hnext & Hid').
    rewrite Hb in Hb0. injection Hb0 as <-.
    destruct (emitBlock (decompileBlock fuel) blocks b ind) as [[s|code]|e] eqn:E.
    + now apply statement_breaks in E.
    + destruct (Hchain id' Hid') as (b' & ? & Hb' & _).
      simpl. rewrite (nextBlock_child blocks b id' b' Hnext Hb'). simpl.
      destruct (IH id' b' ind Hid' Hb') as (e & ->). exists e. reflexivity.
    + exists e. reflexivity.
Qed.

Lemma mapO_throws {A B : Type} (f : A -> Outcome B) (l : list A) x e :
  In x l -> f x = Throw e -> exists e', mapO f l = Throw e'.
Proof.
  induction l as [|y l IH]; intros Hin Hx; [destruct Hin|].
  simpl. destruct Hin as [->|Hin].
  - rewrite Hx. eauto.
  - destruct (f y); [|eauto]. simpl.
    destruct (IH Hin Hx) as (e' & ->). eauto.
Qed.

Lemma endless_entry_throws fuel (blocks : list (string * Block N))
    variables lists ids entry :
  endlessChain blocks ids ->
  In entry (findTopLevelBlocks blocks) -> ids entry ->
  exists e, generateJavaScriptFromBlocks fuel blocks variables lists = Throw e.
Proof.
  intros Hchain Hin Hid. unfold generateJavaScriptFromBlocks.
  destruct (namesCoerce (collect blocks variables lists)); [|eauto].
  destruct (variablePreamble (collect blocks variables lists)); [|eauto].
  cbn [bindO].
  destruct (listPreamble (collect blocks variables lists)); [|eauto].
  cbn [bindO].
  destruct (findTopLevelBlocks blocks) as [|t top] eqn:Etop; [destruct Hin|].
  destruct (Hchain entry Hid) as (b & ? & Hb & _).
  destruct (endless_chain_throws blocks ids Hchain fuel entry b 0 Hid Hb) as (e & He).
  destruct (mapO_throws (emitEntry fuel blocks) (t :: top) entry e Hin) as (e' & ->).
  - unfold emitEntry. apply lookupBlock_own in Hb. now rewrite Hb, He.
  - eauto.
Qed.

(** An actor whose generation raises: its directory is made, its name
    listed, and the exception ends the run. *)
Lemma writeActor_raises fuel (st : Progress F) actor
    (blocks : list (string * Block N)) variables lists e :
  generateJavaScriptFromBlocks fuel blocks variables lists = Throw e ->
  exists st',
    writeActor fuel st actor blocks variables lists =
      (st', if (makeDirectory (files st) actor).2 then Raised e else FileFailed) /\
    files st' = (makeDirectory (files st) actor).1.
Proof.
  intros He. unfold writeActor. rewrite He.
  destruct (makeDirectory (files st) actor) as [fs1 [|]]; eauto.
Qed.

Lemma writeSprites_app fuel (pre rest : list (Target N)) (st : Progress F) :
  writeSprites fuel (pre ++ rest) st =
  match writeSprites fuel pre st with
  | (st', Finished) => writeSprites fuel rest st'
  | aborted => aborted
  end.
Proof.
  revert st. induction pre as [|t pre IH]; intros st; simpl; [reflexivity|].
  destruct (isStage t); [apply IH|].
  destruct (writeActor fuel st (name t) _ _ _) as [st' [| |]]; [apply IH| |];
    reflexivity.
Qed.

(** C1, as amended.  Chain traversal has no guard and reports no
    overflow condition of its own.  When an entry block of an actor,
    the stage or a target, lies on a chain of statement blocks that
    never ends, generating that actor ends in an exception at every
    recursion depth, the stack exhaustion of the host at the latest.
    Nothing catches it, so the run stops there: it is the run on the
    actors before that one, followed by making the directory of the
    actor; the file of the actor is not written and nothing is done for
    any later target. *)
Theorem endless_chain_aborts fuel (fs : Files) (p : ProjectJson N) :
  (forall ids entry,
     endlessChain (stageBlocks p) ids ->
     In entry (findTopLevelBlocks (stageBlocks p)) ->
     ids entry ->
     exists e,
       stageCode fuel p = Throw e /\
       createjvavscratchProject fuel fs p = abortedAt (started fs) "Stage" e) /\
  (forall pre bad post ids entry,
     targets p = (pre ++ bad :: post)%list ->
     isStage bad = false ->
     endlessChain (blocksOr (t_blocks bad)) ids ->
     In entry (findTopLevelBlocks (blocksOr (t_blocks bad))) ->
     ids entry ->
     exists e,
       targetCode fuel bad = Throw e /\
       createjvavscratchProject fuel fs p =
         abortedAt (stageThen fuel fs p pre) (name bad) e).
Proof.
  split.
  - intros ids entry Hchain Hin Hid.
    destruct (endless_entry_throws fuel _ (stageValue p t_variables)
                (stageValue p t_lists) ids entry Hchain Hin Hid) as (e & He).
    exists e. split; [exact He|].
    unfold createjvavscratchProject, writeStage, abortedAt, started.
    destruct (writeActor_raises fuel {| files := fs; sprites := [] |} "Stage"
                _ _ _ e He) as (st' & -> & Hfs).
    cbn [files] in *.
    destruct (makeDirectory fs "Stage") as [fs1 [|]]; cbn [fst snd] in *;
      now rewrite Hfs.
  - intros pre bad post ids entry Ht Hst Hchain Hin Hid.
    destruct (endless_entry_throws fuel _ (valueOr (t_variables bad))
                (valueOr (t_lists bad)) ids entry Hchain Hin Hid) as (e & He).
    exists e. split; [exact He|].
    unfold createjvavscratchProject, abortedAt, stageThen.
    destruct (writeStage fuel fs p) as [st1 [| |]]; try reflexivity.
    rewrite Ht, writeSprites_app.
    destruct (writeSprites fuel pre st1) as [st2 [| |]]; try reflexivity.
    cbn [writeSprites]. rewrite Hst.
    destruct (writeActor_raises fuel st2 (name bad) _ _ _ e He) as (st' & -> & Hfs).
    destruct (makeDirectory (files st2) (name bad)) as [fs1 [|]]; cbn [fst snd] in *;
      now rewrite Hfs.
Qed.

End Chains.

Lemma ex_cycle_endless :
  endlessChain ex_cycle (fun id => id = "A" \/ id = "B").
Proof.
  intros id [->| ->].
  - exists ex_hat, "B". repeat split; auto.
  - exists ex_show, "A". repeat split; auto.
Defined.

Lemma endless_chain_aborts_witness :
  exists e,
    targetCode 5 ex_cat = Throw e /\
    createjvavscratchProject (F := recordingFiles) 5 [] ex_project =
      abortedAt (stageThen (F := recordingFiles) 5 [] ex_project []) "Cat" e.
Proof.
  apply (proj2 (endless_chain_aborts (N := decimalNumbers) (F := recordingFiles)
                  5 [] ex_project)
           [] ex_cat [ex_dog] (fun id => id = "A" \/ id = "B") "A").
  - reflexivity.
  - reflexivity.
  - exact ex_cycle_endless.
  - change (findTopLevelBlocks ex_cycle) with ["A"]. left. reflexivity.
  - left. reflexivity.
Defined.

Lemma ex_cycle_overflows fuel ind :
  decompileBlock fuel ex_cycle "A" ex_hat ind = Throw RangeError /\
  decompileBlock fuel ex_cycle "B" ex_show ind = Throw RangeError.
Proof.
  induction fuel as [|fuel [IHa IHb]]; [split; reflexivity|].
  rewrite !decompileBlock_S. unfold decompileStep, emitBlock. split.
  - change (classify (opcode ex_hat)) with (@SHat).
    change (nextBlock ex_cycle ex_hat) with (Some ("B", OwnBlock ex_show)).
    cbn [chainOf]. rewrite IHb. reflexivity.
  - change (classify (opcode ex_show)) with (SCallInputs "looks.show" []).
    change (nextBlock ex_cycle ex_show) with (Some ("A", OwnBlock ex_hat)).
    cbn [chainOf mapO bindO]. rewrite IHa. reflexivity.
Qed.

Lemma ex_cat_overflows fuel : targetCode fuel ex_cat = Throw RangeError.
Proof.
  unfold targetCode, generateJavaScriptFromBlocks.
  change (blocksOr (t_blocks ex_cat)) with ex_cycle.
  change (listPreamble (collect ex_cycle (valueOr (t_variables ex_cat))
                          (valueOr (t_lists ex_cat))))
    with (@Ok string "").
  cbn [bindO].
  change (findTopLevelBlocks ex_cycle) with ["A"].
  cbn [mapO]. unfold emitEntry.
  change (lookupBlock ex_cycle "A") with (Some (OwnBlock ex_hat)). cbv iota beta.
  rewrite (proj1 (ex_cycle_overflows fuel 0)). reflexivity.
Qed.

Lemma ex_stage_code fuel :
  generateJavaScriptFromBlocks fuel (stageBlocks ex_project)
    (stageValue ex_project t_variables) (stageValue ex_project t_lists) =
  Ok ex_empty_code.
Proof. vm_compute. reflexivity. Qed.

(** C1, counterexample.  With the cycle entered from the green-flag
    block, every recursion depth ends in the stack exhaustion of the
    host: the stage is written, the directory of the cyclic target is
    made, and neither that target nor the sound target after it is
    written.  With the same cycle and no event block there is no entry
    point: the target is written as if it had no blocks, and nothing is
    reported. *)
Lemma cyclic_chain_not_reported :
  (forall fuel,
     createjvavscratchProject (F := recordingFiles) fuel [] ex_project =
     ([MadeDirectory "Stage"; WroteSource "Stage" ex_empty_code; MadeDirectory "Cat"],
      Raised RangeError)) /\
  (forall fuel,
     generateJavaScriptFromBlocks fuel ex_plain_cycle (JObj []) (JObj []) =
     Ok ex_empty_code).
Proof.
  split; intros fuel.
  - unfold createjvavscratchProject, writeStage, writeActor.
    cbn [makeDirectory writeSource recordingFiles files sprites].
    rewrite ex_stage_code.
    change (targets ex_project) with [ex_cat; ex_dog].
    cbn [writeSprites]. change (isStage ex_cat) with false. cbv iota.
    unfold writeActor. cbn [makeDirectory recordingFiles files sprites].
    fold (targetCode fuel ex_cat). rewrite ex_cat_overflows. reflexivity.
  - vm_compute. reflexivity.
Qed.

(** ** Further properties of [escapeString] *)

(** X1. Two strings with the same escaped text are the same string. *)
Theorem escapeString_injective (s t : string) :
  escapeString s = escapeString t -> s = t.
Proof.
  intros H.
  assert (E : Some s = Some t).
  { rewrite <- (decode_escapeChars s), <- (decode_escapeChars t).
    rewrite <- !escapeString_chars. now rewrite H. }
  now injection E.
Qed.

Lemma escapeString_injective_witness : "a" = "a".
Proof. exact (escapeString_injective "a" "a" eq_refl). Defined.

(** X2. Escaping a concatenation is concatenating the escaped parts:
    a text may be escaped piece by piece. *)
Theorem escapeString_concat (s t : string) :
  escapeString (s +:+ t) = escapeString s +:+ escapeString t.
Proof. apply escapeString_app. Qed.

(** X3. A string without backslash, double quote, line feed, carriage
    return or tab is returned unchanged. *)
Theorem escapeString_plain (s : string) :
  allPlain s = true -> escapeString s = s.
Proof.
  rewrite escapeString_chars.
  induction s as [|a s IH]; [reflexivity|]. simpl. intros H.
  apply andb_prop in H as [Ha Hs]. rewrite (IH Hs).
  unfold plainChar in Ha.
  repeat (apply andb_prop in Ha as [Ha ?]).
  unfold escapeChar.
  repeat match goal with
         | H : negb (Ascii.eqb a ?c) = true |- _ =>
             apply negb_true_iff in H; rewrite H
         end.
  reflexivity.
Qed.

Lemma escapeString_plain_witness : escapeString "score" = "score".
Proof. exact (escapeString_plain "score" eq_refl). Defined.

(** ** Further properties of [decompileBlock] *)

Section Blocks.

Context {N : JSNumbers}.

Ltac split_binds :=
  repeat match goal with
         | H : bindO ?m _ = _ |- _ =>
             let E := fresh "E" in destruct m eqn:E; simpl in H
         | H : match ?m with JStr _ => _ | _ => _ end = _ |- _ =>
             destruct m; simpl in H
         end.

Lemma prefix_append (p s : string) : String.prefix p (p +:+ s) = true.
Proof.
  induction p as [|a p IH]; simpl; [now destruct s|].
  destruct (ascii_dec a a) as [_|Hne]; [exact IH|now destruct Hne].
Qed.

Lemma prefix_append_assoc (p s t : string) :
  String.prefix p ((p +:+ s) +:+ t) = true.
Proof. rewrite append_assoc. apply prefix_append. Qed.

Lemma expression_returns dec (blocks : list (string * Block N)) block ind code :
  isStatement (opcode block) = false ->
  emitBlock dec blocks block ind <> Ok (Appended code).
Proof.
  unfold isStatement, emitBlock. intros Hst H.
  destruct (classify (opcode block)); try discriminate Hst;
    cbv zeta in H; split_binds; discriminate H.
Qed.

(** X4. The chain after a green-flag block is written twice: once by
    the case of the block and once more by the step to the next block
    that follows every case. *)
Theorem hat_chain_twice fuel (blocks : list (string * Block N))
    blockId block ind rest :
  opcode block = "event_whenflagclicked" ->
  chainOf (decompileBlock fuel) blocks (nextBlock blocks block) ind = Ok rest ->
  decompileBlock (S fuel) blocks blockId block ind =
  Ok ((spaces (ind * 4) +:+ "// When green flag clicked" +:+ nl +:+ rest) +:+ rest).
Proof.
  intros Hop Hrest.
  rewrite decompileBlock_S. unfold decompileStep, emitBlock.
  rewrite Hop. change (classify "event_whenflagclicked") with SHat.
  cbv zeta. rewrite Hrest. reflexivity.
Qed.

(** X5. A block of an opcode without a case of its own never raises by
    itself: it becomes one comment line that names the opcode, at the
    indentation of the block, and the chain goes on after it. *)
Theorem unknown_opcode_comment fuel (blocks : list (string * Block N))
    blockId block ind :
  assoc (opcode block) opcodeTable = None ->
  decompileBlock (S fuel) blocks blockId block ind =
    (rest <~ chainOf (decompileBlock fuel) blocks (nextBlock blocks block) ind;
     Ok ((spaces (ind * 4) +:+ defaultComment (opcode block) +:+ nl) +:+ rest)) /\
  exists category,
    defaultComment (opcode block) = "// " +:+ category +:+ " block: " +:+ opcode block.
Proof.
  intros Hop. split.
  - rewrite decompileBlock_S. unfold decompileStep, emitBlock, classify.
    rewrite Hop. reflexivity.
  - unfold defaultComment.
    destruct (includes (opcode block) "motion_"); [now exists "Motion"|].
    destruct (includes (opcode block) "looks_"); [now exists "Looks"|].
    destruct (includes (opcode block) "sound_"); [now exists "Sound"|].
    destruct (includes (opcode block) "sensing_"); [now exists "Sensing"|].
    now exists "Unsupported".
Qed.

(** X6. The text of a value-producing block does not depend on its
    "next": the chain after such a block is never written. *)
Theorem expression_ignores_next fuel (blocks : list (string * Block N))
    blockId block ind nx :
  isStatement (opcode block) = false ->
  decompileBlock (S fuel) blocks blockId (withNext block nx) ind =
  decompileBlock (S fuel) blocks blockId block ind.
Proof.
  intros Hst. rewrite !decompileBlock_S. unfold decompileStep.
  assert (E : emitBlock (decompileBlock fuel) blocks (withNext block nx) ind =
              emitBlock (decompileBlock fuel) blocks block ind).
  { unfold isStatement in Hst. unfold emitBlock. simpl opcode.
    destruct (classify (opcode block)); try discriminate Hst; reflexivity. }
  rewrite E.
  destruct (emitBlock (decompileBlock fuel) blocks block ind) as [[s|code]|e] eqn:E';
    try reflexivity.
  now apply expression_returns in E'.
Qed.

(** X7. The text of a statement block starts with the indentation of
    the block, four spaces a level. *)
Theorem statement_indented fuel (blocks : list (string * Block N))
    blockId block ind s :
  isStatement (opcode block) = true ->
  decompileBlock (S fuel) blocks blockId block ind = Ok s ->
  String.prefix (spaces (ind * 4)) s = true.
Proof.
  intros Hst H. rewrite decompileBlock_S in H.
  unfold decompileStep in H. apply bindO_Ok in H as (r & Hr & H).
  unfold emitBlock, isStatement in *.
  destruct (classify (opcode block)); try discriminate Hst;
    cbv zeta in Hr; split_binds; try discriminate Hr;
    injection Hr as <-; apply bindO_Ok in H as (rest & _ & H);
    injection H as <-; apply prefix_append_assoc.
Qed.

End Blocks.

(** ** Recursion depth *)

Section Depth.

Context {N : JSNumbers}.

(** [dec'] agrees with [dec] wherever [dec] does not exhaust the stack. *)
Let deeper (dec dec' : list (string * Block N) -> string -> Block N -> nat -> Outcome string)
  : Prop :=
  forall blocks id b ind, upTo (dec blocks id b ind) (dec' blocks id b ind).

Lemma upTo_refl {A : Type} (a : Outcome A) : upTo a a.
Proof. now right. Qed.

Lemma upTo_bind {A B : Type} (m m' : Outcome A) (k k' : A -> Outcome B) :
  upTo m m' -> (forall x, upTo (k x) (k' x)) -> upTo (bindO m k) (bindO m' k').
Proof.
  intros [->| <-] Hk; [now left|].
  destruct m as [a|e]; simpl; [apply Hk|now right].
Qed.

Lemma upTo_mapO {A B : Type} (f f' : A -> Outcome B) (l : list A) :
  (forall x, upTo (f x) (f' x)) -> upTo (mapO f l) (mapO f' l).
Proof.
  intros Hf. induction l as [|x l IH]; simpl; [apply upTo_refl|].
  apply upTo_bind; [apply Hf|]. intros y.
  apply upTo_bind; [exact IH|]. intros ys. apply upTo_refl.
Qed.

Lemma processInput_with_upTo dec dec' (blocks : list (string * Block N)) input ind :
  deeper dec dec' ->
  upTo (processInput_with dec blocks input ind) (processInput_with dec' blocks input ind).
Proof.
  intros Hd. unfold processInput_with.
  destruct input as [[| | | |[|ty [|[| | |ref| |] more]]|]|]; try apply upTo_refl.
  destruct (lookupBlock blocks ref) as [[rb|]|]; try apply upTo_refl.
  destruct (isExpressionOpcode (opcode rb)); [apply Hd|].
  apply upTo_bind; [apply Hd|]. intros r. apply upTo_refl.
Qed.

Lemma chainOf_upTo dec dec' (blocks : list (string * Block N)) target ind :
  deeper dec dec' ->
  upTo (chainOf dec blocks target ind) (chainOf dec' blocks target ind).
Proof.
  intros Hd. destruct target as [[id [b|]]|]; simpl;
    [apply Hd|apply upTo_refl|apply upTo_refl].
Qed.

Ltac deepen Hd :=
  repeat first
    [ apply upTo_refl
    | apply processInput_with_upTo; exact Hd
    | apply chainOf_upTo; exact Hd
    | apply upTo_mapO; intros
    | apply upTo_bind; [|intros]
    | match goal with
      | |- upTo (match ?x with _ => _ end) _ => destruct x
      end ].

Lemma emitBlock_upTo dec dec' (blocks : list (string * Block N)) block ind :
  deeper dec dec' ->
  upTo (emitBlock dec blocks block ind) (emitBlock dec' blocks block ind).
Proof.
  intros Hd. unfold emitBlock, inputOf, bodyOf.
  destruct (classify (opcode block)); cbv zeta; deepen Hd.
Qed.

Lemma decompileStep_upTo dec dec' (blocks : list (string * Block N)) id block ind :
  deeper dec dec' ->
  upTo (decompileStep dec blocks id block ind) (decompileStep dec' blocks id block ind).
Proof.
  intros Hd. unfold decompileStep.
  apply upTo_bind; [now apply emitBlock_upTo|].
  intros [s|code]; [apply upTo_refl|].
  apply upTo_bind; [now apply chainOf_upTo|]. intros r. apply upTo_refl.
Qed.

Lemma decompileBlock_upTo fuel fuel' :
  (fuel <= fuel')%nat -> deeper (decompileBlock fuel) (decompileBlock fuel').
Proof.
  revert fuel'. induction fuel as [|fuel IH]; intros fuel' Hle blocks id b ind.
  - now left.
  - destruct fuel' as [|fuel']; [lia|].
    rewrite !decompileBlock_S. apply decompileStep_upTo. apply IH. lia.
Qed.

Lemma generate_upTo fuel fuel' (blocks : list (string * Block N)) variables lists :
  (fuel <= fuel')%nat ->
  upTo (generateJavaScriptFromBlocks fuel blocks variables lists)
       (generateJavaScriptFromBlocks fuel' blocks variables lists).
Proof.
  intros Hle. unfold generateJavaScriptFromBlocks.
  destruct (namesCoerce (collect blocks variables lists)); [|apply upTo_refl].
  apply upTo_bind; [apply upTo_refl|]. intros vs. cbv zeta.
  apply upTo_bind; [apply upTo_refl|]. intros ls.
  destruct (findTopLevelBlocks blocks) as [|t top]; [apply upTo_refl|].
  apply upTo_bind; [|intros; apply upTo_refl].
  apply upTo_mapO. intros id. unfold emitEntry.
  destruct (lookupBlock blocks id) as [[b|]|]; try apply upTo_refl.
  apply upTo_bind; [now apply decompileBlock_upTo|]. intros r. apply upTo_refl.
Qed.

(** X8. A deeper stack changes nothing: what [decompileBlock] gives at
    one recursion depth, text or [TypeError], it gives at every greater
    depth, unless it was the exhaustion of the stack. *)
Theorem decompileBlock_deeper fuel fuel' (blocks : list (string * Block N))
    blockId block ind r :
  (fuel <= fuel')%nat ->
  decompileBlock fuel blocks blockId block ind = r ->
  r <> Throw RangeError ->
  decompileBlock fuel' blocks blockId block ind = r.
Proof.
  intros Hle <- Hr.
  destruct (decompileBlock_upTo fuel fuel' Hle blocks blockId block ind) as [E|E];
    [contradiction|now symmetry].
Qed.

(** X9. The same for a whole target: the text generated at one depth
    is the text generated at every greater depth. *)
Theorem generate_deeper fuel fuel' (blocks : list (string * Block N))
    variables lists r :
  (fuel <= fuel')%nat ->
  generateJavaScriptFromBlocks fuel blocks variables lists = r ->
  r <> Throw RangeError ->
  generateJavaScriptFromBlocks fuel' blocks variables lists = r.
Proof.
  intros Hle <- Hr.
  destruct (generate_upTo fuel fuel' blocks variables lists Hle) as [E|E];
    [contradiction|now symmetry].
Qed.

End Depth.

(** ** Graphs without cycles *)

Section Acyclic.

Context {N : JSNumbers}.

Let safe {A : Type} (a : Outcome A) : Prop := a <> Throw RangeError.

Lemma safe_bind {A B : Type} (m : Outcome A) (k : A -> Outcome B) :
  safe m -> (forall x, safe (k x)) -> safe (bindO m k).
Proof.
  unfold safe. intros Hm Hk. destruct m as [a|e]; simpl; [apply Hk|].
  intros [= ->]. now apply Hm.
Qed.

Lemma safe_mapO {A B : Type} (f : A -> Outcome B) (l : list A) :
  (forall x, In x l -> safe (f x)) -> safe (mapO f l).
Proof.
  induction l as [|x l IH]; intros Hf; simpl; [discriminate|].
  apply safe_bind; [apply Hf; now left|]. intros y.
  apply safe_bind; [apply IH; intros; apply Hf; now right|].
  intros ys. discriminate.
Qed.

Lemma toText_safe (v : JSValue N) : safe (toText v).
Proof. unfold toText. destruct (coercible v); discriminate. Qed.

Lemma assoc_In {A : Type} k (l : list (string * A)) v :
  assoc k l = Some v -> In v (map snd l).
Proof.
  induction l as [|[k' v'] l IH]; simpl; [discriminate|].
  destruct (String.eqb k' k); [intros [= ->]; now left|auto].
Qed.

Lemma references_input (b : Block N) v id :
  In v (map snd (inputs b)) -> inputRef v = Some id -> In id (references b).
Proof.
  intros Hv Hr. unfold references. apply in_app_iff. left.
  apply list_elem_of_In, list_elem_of_omap. exists v.
  split; [now apply list_elem_of_In|exact Hr].
Qed.

Lemma references_next (b : Block N) id :
  nextChild b = Some id -> In id (references b).
Proof.
  intros H. unfold references. apply in_app_iff. right. rewrite H. now left.
Qed.

(** The calls [dec] receives from the block [b] are on blocks that [b]
    refers to. *)
Let calleesSafe
    (dec : list (string * Block N) -> string -> Block N -> nat -> Outcome string)
    (blocks : list (string * Block N)) (b : Block N) : Prop :=
  forall id' b' ind',
    In id' (references b) -> assoc id' blocks = Some b' ->
    safe (dec blocks id' b' ind').

Lemma processInput_with_safe dec (blocks : list (string * Block N)) b v ind :
  calleesSafe dec blocks b -> In v (map snd (inputs b)) ->
  safe (processInput_with dec blocks (Some v) ind).
Proof.
  intros Hd Hv. unfold processInput_with.
  destruct v as [| | | |[|ty [|[| | |ref| |] more]]|] eqn:Ev; try discriminate.
  - destruct (lookupBlock blocks ref) as [[rb|]|] eqn:Er; try discriminate.
    apply lookupBlock_own in Er.
    assert (Hs : safe (dec blocks ref rb ind)).
    { apply Hd; [|exact Er]. apply (references_input b v); subst v; [exact Hv|reflexivity]. }
    destruct (isExpressionOpcode (opcode rb)); [exact Hs|].
    apply safe_bind; [exact Hs|]. discriminate.
  - destruct l as [|k [|value rest]]; try discriminate.
    unfold processLiteral.
    destruct value as [| | |s| |]; try discriminate; try apply toText_safe.
    destruct (negb (js_isNaN (js_Number s)) && negb (String.eqb (trim s) ""));
      [discriminate|]. destruct (isKnownName s); discriminate.
Qed.

Lemma inputOf_safe dec (blocks : list (string * Block N)) b ind name :
  calleesSafe dec blocks b -> safe (inputOf dec blocks b ind name).
Proof.
  intros Hd. unfold inputOf.
  destruct (assoc name (inputs b)) as [v|] eqn:E; [|discriminate].
  apply (processInput_with_safe dec blocks b); [exact Hd|].
  now apply assoc_In in E.
Qed.

Lemma nextBlock_safe dec (blocks : list (string * Block N)) b ind :
  calleesSafe dec blocks b -> safe (chainOf dec blocks (nextBlock blocks b) ind).
Proof.
  intros Hd. unfold nextBlock.
  destruct (next b) as [id|] eqn:En; [|discriminate].
  destruct (String.eqb id "") eqn:Ee; [discriminate|].
  destruct (lookupBlock blocks id) as [[b'|]|] eqn:Eb; try discriminate.
  apply lookupBlock_own in Eb.
  simpl. apply Hd; [|exact Eb].
  apply references_next. unfold nextChild. now rewrite En, Ee.
Qed.

Lemma bodyOf_safe dec (blocks : list (string * Block N)) b ind name :
  calleesSafe dec blocks b -> safe (bodyOf dec blocks b ind name).
Proof.
  intros Hd. unfold bodyOf, substackBlock.
  destruct (keyCoerces b name); [|discriminate].
  destruct (assoc name (inputs b)) as [v|] eqn:E; [|discriminate].
  destruct (truthy v); [|discriminate].
  destruct (index1 v) as [x|] eqn:Ex; [|discriminate].
  destruct (truthy x); [|discriminate].
  destruct (lookupBlock blocks (js_toString x)) as [[b'|]|] eqn:Eb; try discriminate.
  apply lookupBlock_own in Eb.
  simpl. apply Hd; [|exact Eb].
  apply (references_input b v); [now apply assoc_In in E|].
  unfold inputRef. now rewrite Ex.
Qed.

Lemma procCallInputs_In (b : Block N) v :
  In (Some v) (procCallInputs b) -> In v (map snd (inputs b)).
Proof.
  unfold procCallInputs.
  destruct (mutation b) as [m|]; [|intros []].
  destruct (inputids m) as [ids|]; [|intros []].
  intros H. apply list_elem_of_In, list_elem_of_omap in H as (id & _ & H).
  destruct (assoc id (inputs b)) as [v'|] eqn:E.
  - destruct (truthy v'); [|discriminate].
    injection H as ->. now apply assoc_In in E.
  - destruct (isProtoKey id); discriminate.
Qed.

Lemma escapeValue_safe (v : JSValue N) : safe (escapeValue v).
Proof. destruct v; discriminate. Qed.

Ltac settle Hd :=
  repeat first
    [ apply inputOf_safe; exact Hd
    | apply bodyOf_safe; exact Hd
    | apply nextBlock_safe; exact Hd
    | apply escapeValue_safe
    | apply toText_safe
    | apply safe_mapO; intros
    | apply safe_bind; [|intros]
    | match goal with
      | |- safe (match ?x with _ => _ end) => destruct x
      | |- safe (Ok _) => discriminate
      | |- safe (Throw TypeError) => discriminate
      end ].

Lemma decompileStep_safe dec (blocks : list (string * Block N)) id b ind :
  calleesSafe dec blocks b -> safe (decompileStep dec blocks id b ind).
Proof.
  intros Hd. unfold decompileStep.
  apply safe_bind.
  - unfold emitBlock. destruct (classify (opcode b)); cbv zeta; settle Hd.
    match goal with
    | H : In ?x (procCallInputs b) |- _ => destruct x as [v|]; [|discriminate]
    end.
    apply (processInput_with_safe dec blocks b); [exact Hd|].
    now apply procCallInputs_In.
  - intros [s|code]; settle Hd.
Qed.

Lemma ranked_safe (blocks : list (string * Block N)) rank :
  ranked blocks rank ->
  forall fuel id b ind,
    assoc id blocks = Some b -> (rank id < fuel)%nat ->
    safe (decompileBlock fuel blocks id b ind).
Proof.
  intros Hr fuel. induction fuel as [|fuel IH]; intros id b ind Hb Hlt; [lia|].
  rewrite decompileBlock_S. apply decompileStep_safe.
  intros id' b' ind' Hin Hb'. apply IH; [exact Hb'|].
  specialize (Hr id b id' b' Hb Hin Hb'). lia.
Qed.

Lemma gtZero_safe (x : JSValue N) : safe (gtZero x).
Proof.
  destruct x; try discriminate; simpl;
    (apply safe_bind; [apply toText_safe|discriminate]).
Qed.

Lemma listPreamble_safe (c : Collected N) : safe (listPreamble c).
Proof.
  unfold listPreamble.
  destruct (listSet c); [discriminate|].
  apply safe_bind; [|discriminate].
  apply safe_mapO. intros x _. unfold listLine, listDeclaration.
  destruct (isNumbers x); [discriminate|].
  apply safe_bind; [apply toText_safe|]. intros n.
  destruct (objGet _ _) as [v|k| |]; try discriminate.
  - apply safe_bind.
    + destruct (truthy v); [|discriminate]. unfold hasPositiveLength.
      destruct v as [| | | | |o]; try discriminate.
      destruct (assoc "length" o); [apply gtZero_safe|discriminate].
    + intros [|]; [|discriminate].
      destruct v as [| | | |items|]; try discriminate.
      destruct (forallb coercible items); discriminate.
  - destruct (0 <? functionLength k)%nat; discriminate.
Qed.

Lemma variablePreamble_safe (c : Collected N) : safe (variablePreamble c).
Proof.
  unfold variablePreamble.
  destruct (variableSet c); [discriminate|].
  apply safe_bind; [|discriminate].
  apply safe_mapO. intros x _. unfold variableLine.
  apply safe_bind; [apply toText_safe|]. intros n.
  apply safe_bind; [|discriminate]. unfold valueText.
  destruct (objGet _ _) as [[| | | | |]|k| |]; try discriminate; apply toText_safe.
Qed.

Lemma generate_safe (blocks : list (string * Block N)) rank fuel variables lists :
  ranked blocks rank ->
  (forall id b, assoc id blocks = Some b -> (rank id < fuel)%nat) ->
  safe (generateJavaScriptFromBlocks fuel blocks variables lists).
Proof.
  intros Hr Hfuel. unfold generateJavaScriptFromBlocks.
  destruct (namesCoerce (collect blocks variables lists)); [|discriminate].
  apply safe_bind; [apply variablePreamble_safe|]. intros vs. cbv zeta.
  apply safe_bind; [apply listPreamble_safe|].
  intros ls. destruct (findTopLevelBlocks blocks) as [|t top]; [discriminate|].
  apply safe_bind; [|discriminate].
  apply safe_mapO. intros id _. unfold emitEntry.
  destruct (lookupBlock blocks id) as [[b|]|] eqn:Hb; try discriminate.
  apply lookupBlock_own in Hb.
  apply safe_bind; [|discriminate].
  apply (ranked_safe blocks rank Hr); [exact Hb|]. now apply (Hfuel id b).
Qed.

(** X10. On a block graph without cycles the stack is never exhausted:
    when every reference that resolves leads to a block of smaller
    rank, a block of rank [r] is decompiled within depth [r + 1], and a
    whole target within any depth above all ranks. *)
Theorem acyclic_never_overflows (blocks : list (string * Block N)) rank fuel
    variables lists :
  ranked blocks rank ->
  (forall id b, assoc id blocks = Some b -> (rank id < fuel)%nat) ->
  (forall id b ind, assoc id blocks = Some b ->
     decompileBlock (S (rank id)) blocks id b ind <> Throw RangeError) /\
  generateJavaScriptFromBlocks fuel blocks variables lists <> Throw RangeError.
Proof.
  intros Hr Hfuel. split.
  - intros id b ind Hb. apply (ranked_safe blocks rank Hr); [exact Hb|lia].
  - now apply (generate_safe blocks rank).
Qed.

End Acyclic.

(** *** The further properties at concrete blocks *)

Lemma hat_chain_twice_witness :
  decompileBlock 3 ex_flag_blocks "F" (ex_block "event_whenflagclicked" [] [] (Some "S")) 0 =
  Ok ("// When green flag clicked" +:+ nl +:+
      "looks.say(" +:+ dq +:+ "hi" +:+ dq +:+ ");" +:+ nl +:+
      "looks.say(" +:+ dq +:+ "hi" +:+ dq +:+ ");" +:+ nl).
Proof.
  exact (hat_chain_twice (N := decimalNumbers) 2 ex_flag_blocks "F"
           (ex_block "event_whenflagclicked" [] [] (Some "S")) 0
           ("looks.say(" +:+ dq +:+ "hi" +:+ dq +:+ ");" +:+ nl)
           eq_refl eq_refl).
Defined.

Lemma unknown_opcode_comment_witness :
  decompileBlock 1 [] "p" ex_unknown 1 =
  Ok ("    // Unsupported block: pen_clear" +:+ nl).
Proof.
  exact (proj1 (unknown_opcode_comment (N := decimalNumbers) 0 [] "p" ex_unknown 1
                  eq_refl)).
Defined.

Lemma expression_ignores_next_witness :
  decompileBlock 1 [] "a" (withNext ex_add (Some "b")) 0 = Ok "1 + 2".
Proof.
  rewrite (expression_ignores_next (N := decimalNumbers) 0 [] "a" ex_add 0
             (Some "b") eq_refl).
  reflexivity.
Defined.

Lemma statement_indented_witness :
  String.prefix (spaces 4) ("    // Unsupported block: pen_clear" +:+ nl) = true.
Proof.
  exact (statement_indented (N := decimalNumbers) 0 [] "p" ex_unknown 1
           ("    // Unsupported block: pen_clear" +:+ nl) eq_refl eq_refl).
Defined.

Lemma decompileBlock_deeper_witness :
  decompileBlock 40 ex_flag_blocks "F"
    (ex_block "event_whenflagclicked" [] [] (Some "S")) 0 =
  decompileBlock 2 ex_flag_blocks "F"
    (ex_block "event_whenflagclicked" [] [] (Some "S")) 0.
Proof.
  apply (decompileBlock_deeper (N := decimalNumbers) 2 40).
  - lia.
  - reflexivity.
  - vm_compute. discriminate.
Defined.

Lemma generate_deeper_witness :
  generateJavaScriptFromBlocks 40 ex_flag_blocks (JObj []) (JObj []) =
  generateJavaScriptFromBlocks 2 ex_flag_blocks (JObj []) (JObj []).
Proof.
  apply (generate_deeper (N := decimalNumbers) 2 40).
  - lia.
  - reflexivity.
  - vm_compute. discriminate.
Defined.

Lemma ex_flag_ranked : ranked ex_flag_blocks ex_flag_rank.
Proof.
  intros id b id' b' Hb Hin Hb'. unfold ex_flag_blocks in Hb.
  cbn [assoc] in Hb.
  destruct (String.eqb_spec "F" id) as [<-|_].
  - injection Hb as <-. destruct Hin as [<-|[]]. vm_compute. lia.
  - destruct (String.eqb_spec "S" id) as [<-|_]; [|discriminate].
    injection Hb as <-. destruct Hin.
Qed.

Lemma acyclic_never_overflows_witness :
  generateJavaScriptFromBlocks 2 ex_flag_blocks (JObj []) (JObj []) <> Throw RangeError.
Proof.
  refine (proj2 (acyclic_never_overflows (N := decimalNumbers) ex_flag_blocks
                   ex_flag_rank 2 (JObj []) (JObj []) ex_flag_ranked _)).
  intros id b _. unfold ex_flag_rank. destruct (String.eqb id "F"); lia.
Defined.

(** ** Further properties of [findTopLevelBlocks] *)

Section Entries.

Context {N : JSNumbers}.

Lemma assoc_key {A : Type} k (l : list (string * A)) :
  In k (map fst l) -> exists v, assoc k l = Some v.
Proof.
  induction l as [|[k' v'] l IH]; simpl; [intros []|].
  intros [->|H].
  - rewrite String.eqb_refl. eauto.
  - destruct (String.eqb k' k); eauto.
Qed.

Lemma fold_pushEvent_keys (l : list (string * Block N)) acc id :
  In id (fold_left pushEvent l acc) -> In id acc \/ In id (map fst l).
Proof.
  revert acc. induction l as [|kb l IH]; intros acc; simpl; [auto|].
  intros H. apply IH in H as [H|H]; [|auto].
  unfold pushEvent in H.
  destruct (startsWith (opcode kb.2) "event_" && negb (bool_decide (kb.1 ∈ acc)));
    [|auto].
  apply in_app_iff in H as [H|[<-|[]]]; auto.
Qed.

Lemma NoDup_filter_keys (h : string * Block N -> bool) (l : list (string * Block N)) :
  NoDup (map fst l) -> NoDup (map fst (List.filter h l)).
Proof.
  induction l as [|kb l IH]; simpl; [auto|]. intros Hnd.
  apply NoDup_cons in Hnd as [Hnotin Hnd].
  destruct (h kb); simpl; [|auto].
  apply NoDup_cons. split; [|auto].
  intros Hin. apply Hnotin.
  apply list_elem_of_In in Hin. apply list_elem_of_In.
  apply in_map_iff in Hin as (kb' & E & Hin). apply filter_In in Hin as [Hin _].
  apply in_map_iff. eauto.
Qed.

(** X11. Every entry point names a block of the map, so that the
    lookup before [decompileBlock] never misses; and when the
    identifiers of the map are distinct, no entry point is listed
    twice. *)
Theorem entries_present_once (blocks : list (string * Block N)) :
  (forall id, In id (findTopLevelBlocks blocks) ->
              exists b, assoc id blocks = Some b) /\
  (NoDup (map fst blocks) -> NoDup (findTopLevelBlocks blocks)).
Proof.
  split.
  - intros id H. apply assoc_key. unfold findTopLevelBlocks in H.
    apply fold_pushEvent_keys in H as [H|H]; [|exact H].
    now apply filter_In in H as [H _].
  - intros Hnd. rewrite (topLevel_filters blocks Hnd). unfold topLevelOrder.
    apply NoDup_app. repeat split; try now apply NoDup_filter_keys.
    intros id H1 H2.
    apply list_elem_of_In, in_map_iff in H1 as (kb1 & <- & H1).
    apply list_elem_of_In, in_map_iff in H2 as (kb2 & E & H2).
    apply filter_In in H1 as [_ H1]. apply filter_In in H2 as [_ H2].
    apply andb_prop in H2 as [_ H2]. rewrite E in H2.
    rewrite H2 in H1. discriminate.
Qed.

End Entries.

(** ** Further properties of the declarations *)

Section Found.

Context {N : JSNumbers}.

Lemma sameValueZero_text (x y : JSValue N) :
  sameValueZero x y = true -> js_toString x = js_toString y.
Proof.
  destruct x as [|a|a|a| |], y as [|b|b|b| |]; try discriminate; simpl.
  - reflexivity.
  - intros H. apply Bool.eqb_prop in H. now subst.
  - intros H. now apply String.eqb_eq in H.
  - intros H. now apply String.eqb_eq in H.
Qed.

Lemma sameValueZero_string s (y : JSValue N) :
  sameValueZero (JStr s) y = true <-> y = JStr s.
Proof.
  destruct y; simpl; try (split; discriminate).
  rewrite String.eqb_eq. split; [now intros ->|now intros [= ->]].
Qed.

Lemma setAdd_In x (l : list (JSValue N)) v :
  In v (setAdd x l) -> v = x \/ In v l.
Proof.
  unfold setAdd. destruct (existsb (sameValueZero x) l); [auto|].
  rewrite in_app_iff. simpl. intuition.
Qed.

Lemma setAdd_keeps x (l : list (JSValue N)) v : In v l -> In v (setAdd x l).
Proof.
  unfold setAdd. destruct (existsb (sameValueZero x) l); [auto|].
  rewrite in_app_iff. auto.
Qed.

Lemma setAdd_string s (l : list (JSValue N)) : In (JStr s) (setAdd (JStr s) l).
Proof.
  unfold setAdd. destruct (existsb (sameValueZero (JStr s)) l) eqn:E.
  - apply existsb_exists in E as (y & Hy & Hs).
    apply sameValueZero_string in Hs. now subst.
  - rewrite in_app_iff. simpl. auto.
Qed.

Lemma setAdd_text x (l : list (JSValue N)) n :
  n ∈ map js_toString (setAdd x l) <-> n = js_toString x \/ n ∈ map js_toString l.
Proof.
  unfold setAdd. destruct (existsb (sameValueZero x) l) eqn:E.
  - split; [auto|]. intros [->|H]; [|exact H].
    apply existsb_exists in E as (y & Hy & Hs).
    apply sameValueZero_text in Hs. rewrite Hs.
    apply list_elem_of_In, in_map, Hy.
  - rewrite map_app, elem_of_app. simpl. rewrite list_elem_of_singleton. tauto.
Qed.

Lemma stringNames_In (l : list (JSValue N)) s : s ∈ stringNames l <-> In (JStr s) l.
Proof.
  unfold stringNames. rewrite list_elem_of_omap. split.
  - intros (v & Hv & E). destruct v; try discriminate.
    injection E as ->. now apply list_elem_of_In.
  - intros H. exists (JStr s). split; [now apply list_elem_of_In|reflexivity].
Qed.

Lemma setAdd_NoDup x (l : list (JSValue N)) :
  NoDup (stringNames l) -> NoDup (stringNames (setAdd x l)).
Proof.
  intros Hnd. unfold setAdd. destruct (existsb (sameValueZero x) l) eqn:E; [exact Hnd|].
  unfold stringNames. rewrite omap_app. fold (stringNames l).
  destruct x as [| | |s| |]; simpl; rewrite ?app_nil_r; try exact Hnd.
  apply NoDup_app. repeat split; [exact Hnd| |apply NoDup_singleton].
  intros y Hy Hy'. apply list_elem_of_singleton in Hy'. subst y.
  apply stringNames_In in Hy.
  assert (H : existsb (sameValueZero (JStr s)) l = true).
  { apply existsb_exists. exists (JStr s). split; [exact Hy|].
    now apply sameValueZero_string. }
  congruence.
Qed.

Lemma objGet_defined (m : gmap string (JSValue N)) k :
  objGet m k <> Undefined <-> objIn m k = true.
Proof.
  unfold objGet, objIn. destruct (m !! k); [split; [reflexivity|discriminate]|].
  destruct (String.eqb_spec k "__proto__") as [->|_].
  - split; [reflexivity|discriminate].
  - destruct (isProtoKey k); split; try reflexivity; try discriminate.
    intros H. now destruct H.
Qed.

Lemma objIn_objSet_same (m : gmap string (JSValue N)) k v :
  objIn (objSet m k v) k = true.
Proof.
  unfold objIn, objSet. destruct (String.eqb_spec k "__proto__") as [->|_].
  - now destruct (m !! "__proto__").
  - now rewrite lookup_insert_eq.
Qed.

Lemma objIn_objSet_keep (m : gmap string (JSValue N)) k v n :
  objIn m n = true -> objIn (objSet m k v) n = true.
Proof.
  unfold objIn, objSet. intros H.
  destruct (String.eqb k "__proto__"); [exact H|].
  destruct (decide (k = n)) as [->|Hne].
  - now rewrite lookup_insert_eq.
  - now rewrite lookup_insert_ne.
Qed.

(** The invariant of the collection: strings are held once, and every
    name held is found [in] its value object. *)
Let held (c : Collected N) : Prop :=
  NoDup (stringNames (variableSet c)) /\ NoDup (stringNames (listSet c)) /\
  (forall v, In v (variableSet c) ->
             objIn (variableInitialValues c) (js_toString v) = true) /\
  (forall v, In v (listSet c) ->
             objIn (listInitialValues c) (js_toString v) = true).

Lemma declareVariable_held (c : Collected N) e : held c -> held (declareVariable c e).
Proof.
  intros (H1 & H2 & H3 & H4). unfold declareVariable.
  destruct e as [| | | |[|name rest]|]; try (repeat split; assumption).
  destruct (truthy name && negb (isCloud name)); [|repeat split; assumption].
  repeat split; simpl; try assumption.
  - now apply setAdd_NoDup.
  - intros v Hv. apply setAdd_In in Hv as [->|Hv].
    + apply objIn_objSet_same.
    + apply objIn_objSet_keep. auto.
Qed.

Lemma declareList_held (c : Collected N) e : held c -> held (declareList c e).
Proof.
  intros (H1 & H2 & H3 & H4). unfold declareList.
  destruct e as [| | | |[|name rest]|]; try (repeat split; assumption).
  destruct (truthy name); [|repeat split; assumption].
  repeat split; simpl; try assumption.
  - now apply setAdd_NoDup.
  - intros v Hv. apply setAdd_In in Hv as [->|Hv].
    + apply objIn_objSet_same.
    + apply objIn_objSet_keep. auto.
Qed.

Lemma scanBlock_held (c : Collected N) kb : held c -> held (scanBlock c kb).
Proof.
  intros (H1 & H2 & H3 & H4). unfold scanBlock.
  destruct (String.eqb (opcode kb.2) "data_setvariableto" ||
            String.eqb (opcode kb.2) "data_changevariableby").
  - destruct (field0 kb.2 "VARIABLE") as [v|]; [|repeat split; assumption].
    destruct (truthy v && negb (isCloud v)); [|repeat split; assumption].
    repeat split; simpl; try assumption.
    + now apply setAdd_NoDup.
    + intros x Hx.
      destruct (objIn (variableInitialValues c) (js_toString v)) eqn:E.
      * apply setAdd_In in Hx as [->|Hx]; [exact E|auto].
      * apply setAdd_In in Hx as [->|Hx].
        -- apply objIn_objSet_same.
        -- apply objIn_objSet_keep. auto.
  - destruct (startsWith (opcode kb.2) "data_"); [|repeat split; assumption].
    destruct (field0 kb.2 "LIST") as [v|]; [|repeat split; assumption].
    destruct (truthy v); [|repeat split; assumption].
    repeat split; simpl; try assumption.
    + now apply setAdd_NoDup.
    + intros x Hx.
      destruct (objIn (listInitialValues c) (js_toString v)) eqn:E.
      * apply setAdd_In in Hx as [->|Hx]; [exact E|auto].
      * apply setAdd_In in Hx as [->|Hx].
        -- apply objIn_objSet_same.
        -- apply objIn_objSet_keep. auto.
Qed.

Lemma fold_held {A : Type} (f : Collected N -> A -> Collected N) (l : list A) c :
  (forall c x, held c -> held (f c x)) ->
  held c -> held (fold_left f l c).
Proof.
  intros Hf. revert c. induction l as [|x l IH]; intros c Hc; simpl; auto.
Qed.

Lemma assignKnown_keeps (m : gmap string (JSValue N)) n :
  objIn m n = true -> objIn (assignKnown m) n = true.
Proof.
  unfold assignKnown. generalize (@knownValues N). intros l. revert m.
  induction l as [|kv l IH]; intros m H; simpl; [exact H|].
  apply IH. now apply objIn_objSet_keep.
Qed.

(** X12. When every collected name can be coerced to a property key,
    so that the collection does not raise, and no declaration replaces
    the prototype of a value object, no name given as a string is
    declared twice, and what is read for a declared name is never
    [undefined]: the preamble prints a value for every name, the
    inherited one where nothing was stored. *)
Theorem declarations_well_formed (blocks : list (string * Block N))
    (variables lists : JSValue N) :
  prototypeKept variables lists = true ->
  namesCoerce (collect blocks variables lists) = true ->
  wellFormed (collect blocks variables lists).
Proof.
  intros _ _.
  assert (H : held (fold_left scanBlock blocks (explicitDeclarations variables lists))).
  { apply fold_held; [apply scanBlock_held|].
    apply fold_held; [apply declareList_held|].
    apply fold_held; [apply declareVariable_held|].
    repeat split; try apply NoDup_nil_2; intros v []. }
  destruct H as (H1 & H2 & H3 & H4). unfold collect.
  repeat split; simpl; try assumption.
  - intros v Hv. apply objGet_defined, assignKnown_keeps. auto.
  - intros v Hv. apply objGet_defined. auto.
Qed.

Lemma scanBlock_foundVariables (c : Collected N) kb n :
  n ∈ foundVariables (scanBlock c kb) <->
  n ∈ foundVariables c \/ scannedVariable kb.2 = Some n.
Proof.
  unfold foundVariables, scanBlock, scannedVariable, isVariableWrite.
  destruct (String.eqb (opcode kb.2) "data_setvariableto" ||
            String.eqb (opcode kb.2) "data_changevariableby").
  - destruct (field0 kb.2 "VARIABLE") as [v|]; [|split; [auto|intros [H|[=]]; auto]].
    destruct (truthy v && negb (isCloud v)); [|split; [auto|intros [H|[=]]; auto]].
    cbn [variableSet]. rewrite setAdd_text. split.
    + intros [->|H]; auto.
    + intros [H|[= ->]]; auto.
  - assert (E : forall c', variableSet c' = variableSet c ->
                n ∈ map js_toString (variableSet c') <->
                n ∈ map js_toString (variableSet c) \/ None = Some n).
    { intros c' ->. split; [auto|intros [H|[=]]; auto]. }
    destruct (startsWith (opcode kb.2) "data_"); [|now apply E].
    destruct (field0 kb.2 "LIST") as [v|]; [|now apply E].
    destruct (truthy v); now apply E.
Qed.

Lemma scanBlock_foundLists (c : Collected N) kb n :
  n ∈ foundLists (scanBlock c kb) <->
  n ∈ foundLists c \/ scannedList kb.2 = Some n.
Proof.
  assert (E : forall c', listSet c' = listSet c ->
              n ∈ map js_toString (listSet c') <->
              n ∈ map js_toString (listSet c) \/ None = Some n).
  { intros c' ->. split; [auto|intros [H|[=]]; auto]. }
  unfold foundLists, scanBlock, scannedList, isVariableWrite.
  destruct (String.eqb (opcode kb.2) "data_setvariableto" ||
            String.eqb (opcode kb.2) "data_changevariableby").
  - destruct (field0 kb.2 "VARIABLE") as [v|]; [|now apply E].
    destruct (truthy v && negb (isCloud v)); now apply E.
  - destruct (startsWith (opcode kb.2) "data_"); [|now apply E].
    destruct (field0 kb.2 "LIST") as [v|]; [|now apply E].
    destruct (truthy v); [|now apply E].
    cbn [listSet]. rewrite setAdd_text. split.
    + intros [->|H]; auto.
    + intros [H|[= ->]]; auto.
Qed.

Lemma scan_found (blocks : list (string * Block N)) (c : Collected N) n :
  (n ∈ foundVariables (fold_left scanBlock blocks c) <->
   n ∈ foundVariables c \/ n ∈ scannedVariables blocks) /\
  (n ∈ foundLists (fold_left scanBlock blocks c) <->
   n ∈ foundLists c \/ n ∈ scannedLists blocks).
Proof.
  unfold scannedVariables, scannedLists.
  revert c. induction blocks as [|kb blocks IH]; intros c; simpl fold_left.
  - simpl. split; (split; [auto|intros [H|H]; [exact H|now apply not_elem_of_nil in H]]).
  - destruct (IH (scanBlock c kb)) as [IHv IHl]. simpl map. split.
    + rewrite IHv, scanBlock_foundVariables, omap_cons_elem. tauto.
    + rewrite IHl, scanBlock_foundLists, omap_cons_elem. tauto.
Qed.

(** X13. The names declared are the names declared explicitly and the
    names the scan finds, nothing else: the eight conventional names
    are given values, but none of them is declared unless it is found
    in one of these two ways. *)
Theorem declared_names (blocks : list (string * Block N))
    (variables lists : JSValue N) n :
  (n ∈ foundVariables (collect blocks variables lists) <->
   n ∈ foundVariables (explicitDeclarations variables lists) \/
   n ∈ scannedVariables blocks) /\
  (n ∈ foundLists (collect blocks variables lists) <->
   n ∈ foundLists (explicitDeclarations variables lists) \/
   n ∈ scannedLists blocks).
Proof. unfold collect, foundVariables, foundLists. simpl. apply scan_found. Qed.

End Found.

(** ** A list declared without items *)

Section EmptyLists.

Context {N : JSNumbers}.

Lemma lastFound_all {A : Type} (f : A -> option (JSValue N)) (l : list A) acc v0 :
  (forall e v, In e l -> f e = Some v -> v = v0) ->
  acc = Some v0 \/ (exists e, In e l /\ f e = Some v0) ->
  fold_left (fun acc e => match f e with Some v => Some v | None => acc end) l acc =
  Some v0.
Proof.
  revert acc. induction l as [|e l IH]; intros acc Hall Hex; simpl.
  - destruct Hex as [H|(e & [] & _)]. exact H.
  - apply IH; [intros e' v Hin; apply Hall; now right|].
    destruct (f e) as [v|] eqn:Ef.
    + left. f_equal. apply (Hall e v); [now left|exact Ef].
    + destruct Hex as [H|(e0 & [<-|Hin] & He0)]; [now left|congruence|].
      right. eauto.
Qed.

Lemma declareList_listSet (c : Collected N) e v :
  In v (listSet c) -> In v (listSet (declareList c e)).
Proof.
  intros H. unfold declareList.
  destruct e as [| | | |[|n rest]|]; try exact H.
  destruct (truthy n); [|exact H]. simpl. now apply setAdd_keeps.
Qed.

Lemma scanBlock_listSet (c : Collected N) kb v :
  In v (listSet c) -> In v (listSet (scanBlock c kb)).
Proof.
  intros H. unfold scanBlock.
  destruct (String.eqb (opcode kb.2) "data_setvariableto" ||
            String.eqb (opcode kb.2) "data_changevariableby").
  - destruct (field0 kb.2 "VARIABLE") as [x|]; [|exact H].
    now destruct (truthy x && negb (isCloud x)).
  - destruct (startsWith (opcode kb.2) "data_"); [|exact H].
    destruct (field0 kb.2 "LIST") as [x|]; [|exact H].
    destruct (truthy x); [|exact H]. simpl. now apply setAdd_keeps.
Qed.

Lemma fold_listSet {A : Type} (f : Collected N -> A -> Collected N) (l : list A) c v :
  (forall c x, In v (listSet c) -> In v (listSet (f c x))) ->
  In v (listSet c) -> In v (listSet (fold_left f l c)).
Proof.
  intros Hf. revert c. induction l as [|x l IH]; intros c Hc; simpl; auto.
Qed.

Lemma declared_held (l : list (JSValue N)) c name e :
  In e l -> declaresEmpty name e = true ->
  In (JStr name) (listSet (fold_left declareList l c)).
Proof.
  revert c. induction l as [|e0 l IH]; intros c Hin He; [destruct Hin|].
  simpl. destruct Hin as [->|Hin]; [|now apply (IH _ Hin)].
  apply fold_listSet; [intros; now apply declareList_listSet|].
  unfold declaresEmpty in He.
  destruct e as [| | | |[|[| | |n| |] rest]|]; try discriminate He.
  apply andb_prop in He as [He _]. apply andb_prop in He as [He1 He2].
  apply String.eqb_eq in He1. subst n.
  unfold declareList. cbn [truthy]. rewrite He2. simpl. apply setAdd_string.
Qed.

Lemma listLine_empty (m : gmap string (JSValue N)) name :
  name <> "__proto__" -> m !! name = Some (JArr []) ->
  listLine m (JStr name) = Ok (emptyListLine name).
Proof.
  intros Hn Hm. unfold listLine, emptyListLine. cbn [isNumbers js_toString].
  destruct (String.eqb name "numbers").
  - rewrite numbersSeed_literals. now rewrite !append_assoc.
  - unfold toText. cbn [coercible js_toString bindO].
    unfold objGet. rewrite Hm. reflexivity.
Qed.

Lemma lastFound_Some {A : Type} (f : A -> option (JSValue N)) (l : list A) acc v :
  fold_left (fun acc e => match f e with Some v => Some v | None => acc end) l acc =
  Some v ->
  acc = Some v \/ exists e, In e l /\ f e = Some v.
Proof.
  revert acc. induction l as [|e l IH]; intros acc H; simpl in H; [now left|].
  apply IH in H as [H|(e' & Hin & He')]; [|right; exists e'; split; [now right|exact He']].
  destruct (f e) as [x|] eqn:Ef; [|now left].
  right. exists e. split; [now left|congruence].
Qed.

Lemma scanned_held (blocks : list (string * Block N)) c name kb :
  In kb blocks -> usesList name kb.2 = true ->
  In (JStr name) (listSet (fold_left scanBlock blocks c)) /\
  name ∈ scannedLists blocks.
Proof.
  intros Hin Hu. split.
  - revert c. induction blocks as [|kb0 blocks IH]; intros c; [destruct Hin|].
    simpl. destruct Hin as [->|Hin]; [|now apply IH].
    apply fold_listSet; [intros; now apply scanBlock_listSet|].
    unfold usesList, isVariableWrite in Hu. unfold scanBlock.
    apply andb_prop in Hu as [Hu Hf]. apply andb_prop in Hu as [Hw Hd].
    apply negb_true_iff in Hw. rewrite Hw, Hd.
    destruct (field0 kb.2 "LIST") as [[| | |n| |]|]; try discriminate Hf.
    apply andb_prop in Hf as [Hf1 Hf2]. apply String.eqb_eq in Hf1. subst n.
    cbn [truthy]. rewrite Hf2. simpl. apply setAdd_string.
  - unfold scannedLists. apply list_elem_of_omap. exists kb.2. split.
    + apply list_elem_of_In, in_map, Hin.
    + unfold usesList in Hu. unfold scannedList.
      apply andb_prop in Hu as [Hu Hf]. apply andb_prop in Hu as [Hw Hd].
      apply negb_true_iff in Hw. rewrite Hw, Hd.
      destruct (field0 kb.2 "LIST") as [[| | |n| |]|]; try discriminate Hf.
      apply andb_prop in Hf as [Hf1 Hf2]. apply String.eqb_eq in Hf1. subst n.
      cbn [truthy]. now rewrite Hf2.
Qed.

(** X21. A list without initial values gets its declaration in the
    generated text whenever a text is generated: the seed of the
    numerals 1 to 10 for the list called [numbers], an empty list under
    any other name.  The list is one that is explicitly declared under
    a non-empty name and never with items, or one that a block uses
    under a name that no object inherits; no declaration replaces the
    prototype of a value object. *)
Theorem empty_list_initializer fuel (blocks : list (string * Block N))
    (variables lists : JSValue N) name out :
  prototypeKept variables lists = true ->
  withoutItems blocks lists name ->
  generateJavaScriptFromBlocks fuel blocks variables lists = Ok out ->
  exists before after, out = before +:+ emptyListLine name +:+ after.
Proof.
  intros Hkept [Hall Hfound] Hout.
  set (c := collect blocks variables lists) in *.
  assert (H : name <> "__proto__" /\ In (JStr name) (listSet c) /\
              listInitialValues c !! name = Some (JArr [])).
  { destruct Hfound as [(e & Hin & He)|(Hp & kb & Hin & Hu)].
    - assert (Hentry : listEntry name e = Some (JArr [])).
      { unfold declaresEmpty in He. unfold listEntry.
        destruct e as [| | | |[|[| | |n| |] rest]|]; try discriminate He.
        apply andb_prop in He as [He He3]. apply andb_prop in He as [He1 He2].
        cbn [truthy js_toString]. rewrite He1, He2. cbn [andb].
        destruct (declaredItems rest) as [| | | |[|]|]; try discriminate He3.
        reflexivity. }
      assert (Hn : name <> "__proto__").
      { intros ->. unfold prototypeKept in Hkept.
        apply andb_prop in Hkept as [_ Hkept].
        rewrite forallb_forall in Hkept. specialize (Hkept e Hin).
        unfold listEntry in Hentry. unfold listTampers in Hkept.
        destruct e as [| | | |[|n rest]|]; try discriminate Hentry.
        destruct (truthy n); [|discriminate Hentry]. cbn [andb] in *.
        destruct (String.eqb_spec (js_toString n) "__proto__") as [E|];
          [|discriminate Hentry].
        injection Hentry as Hentry. unfold replacesPrototype in Hkept.
        rewrite E, Hentry in Hkept. discriminate Hkept. }
      split; [exact Hn|]. split.
      + unfold c, collect. cbn [listSet].
        apply fold_listSet; [intros; now apply scanBlock_listSet|].
        unfold explicitDeclarations. now apply (declared_held _ _ name e).
      + unfold c. rewrite (proj2 (collect_lookup blocks variables lists name Hn)).
        unfold explicitList, lastFound.
        rewrite (lastFound_all (listEntry name) (declEntries lists) None (JArr []));
          [reflexivity|exact Hall|]. right. eauto.
    - pose proof (isProtoKey_proto name Hp) as Hn.
      destruct (scanned_held blocks (explicitDeclarations variables lists) name kb
                  Hin Hu) as [Hset Hscan].
      split; [exact Hn|]. split; [exact Hset|].
      unfold c. rewrite (proj2 (collect_lookup blocks variables lists name Hn)).
      destruct (explicitList name lists) as [v|] eqn:Ex.
      + unfold explicitList, lastFound in Ex.
        apply lastFound_Some in Ex as [Ex|(e & He & Hv)]; [discriminate Ex|].
        f_equal. now apply (Hall e).
      + rewrite bool_decide_eq_true_2 by exact Hscan. now rewrite Hp. }
  destruct H as (Hn & Hset & Hm).
  destruct (generate_declarations fuel blocks variables lists out Hout) as [_ Hlists].
  destruct (Hlists (JStr name) Hset) as (_ & line & before & after & Hline & ->).
  fold c in Hline. rewrite (listLine_empty _ name Hn Hm) in Hline.
  injection Hline as <-. now exists before, after.
Qed.

End EmptyLists.

Lemma empty_list_initializer_witness :
  exists before after,
    "// Decompiled from Scratch project" +:+ nl +:+ nl +:+
    "list.newList(" +:+ dq +:+ "numbers" +:+ dq +:+
      ", [1, 2, 3, 4, 5, 6, 7, 8, 9, 10], false);" +:+ nl +:+
    "list.createList(" +:+ dq +:+ "scores" +:+ dq +:+ ");" +:+ nl +:+ nl +:+
    "// No blocks found" +:+ nl =
    before +:+ emptyListLine "scores" +:+ after.
Proof.
  apply (empty_list_initializer (N := decimalNumbers) 0 [] (JObj [])
           ex_empty_lists "scores").
  - reflexivity.
  - split.
    + intros e items [<-|[<-|[]]]; [discriminate|]. now intros [= <-].
    + left. exists (JArr [JStr "scores"; JArr []]). split; [|reflexivity].
      simpl. auto.
  - vm_compute. reflexivity.
Defined.

Lemma entries_present_once_witness :
  NoDup (findTopLevelBlocks ex_event_child).
Proof.
  refine (proj2 (entries_present_once (N := decimalNumbers) ex_event_child) _).
  apply NoDup_cons. split.
  - intros H. apply list_elem_of_singleton in H. discriminate.
  - apply NoDup_singleton.
Defined.

Lemma declarations_well_formed_witness :
  wellFormed (collect ex_score_blocks ex_score_seven (JObj [])).
Proof.
  exact (declarations_well_formed (N := decimalNumbers) ex_score_blocks
           ex_score_seven (JObj []) eq_refl eq_refl).
Defined.

(** ** Further properties of the generation loop *)

Section Loop.

Context {N : JSNumbers} {F : FileSystem}.

Lemma writeActor_finished fuel (st st' : Progress F) actor
    (blocks : list (string * Block N)) variables lists :
  writeActor fuel st actor blocks variables lists = (st', Finished) <->
  exists code fs',
    generateJavaScriptFromBlocks fuel blocks variables lists = Ok code /\
    written (files st) [(actor, code)] = Some fs' /\
    st' = {| files := fs'; sprites := sprites st ++ [actor] |}.
Proof.
  unfold writeActor. cbn [written].
  destruct (makeDirectory (files st) actor) as [fs1 [|]].
  - destruct (generateJavaScriptFromBlocks fuel blocks variables lists) as [code|e].
    + destruct (writeSource fs1 actor code) as [fs2 [|]] eqn:Ew; split.
      * intros [= <-]. exists code, fs2. rewrite Ew. auto.
      * intros (code' & fs' & [= <-] & Hw & ->). rewrite Ew in Hw.
        now injection Hw as <-.
      * discriminate.
      * intros (code' & fs' & [= <-] & Hw & _). rewrite Ew in Hw. discriminate.
    + split; [discriminate|]. now intros (code & fs' & [=] & _).
  - split; [discriminate|]. now intros (code & fs' & _ & [=] & _).
Qed.

Lemma writeSprites_finished fuel (ts : list (Target N)) (st st' : Progress F) :
  writeSprites fuel ts st = (st', Finished) <->
  exists codes fs',
    Forall2 (fun t code => targetCode fuel t = Ok code) (spriteTargets ts) codes /\
    written (files st) (combine (spriteNames ts) codes) = Some fs' /\
    st' = {| files := fs'; sprites := sprites st ++ spriteNames ts |}.
Proof.
  unfold spriteNames, spriteTargets.
  revert st. induction ts as [|t ts IH]; intros st; cbn [writeSprites List.filter].
  - split.
    + intros [= <-]. exists [], (files st). split; [constructor|].
      split; [reflexivity|]. cbn [map]. rewrite app_nil_r. now destruct st.
    + intros (codes & fs' & Hc & Hw & ->). inversion Hc; subst.
      cbn in Hw. injection Hw as <-. cbn [map]. rewrite app_nil_r. now destruct st.
  - destruct (isStage t) eqn:Est; cbn [negb]; [apply IH|].
    cbn [map combine].
    destruct (writeActor fuel st (name t) _ _ _) as [st1 ending] eqn:Ea. split.
    + intros H.
      assert (ending = Finished) as -> by (destruct ending; congruence).
      apply IH in H as (codes & fs' & Hc & Hw & ->).
      apply writeActor_finished in Ea as (code & fs1 & Hcode & Hw1 & ->).
      exists (code :: codes), fs'. split; [constructor; assumption|].
      cbn [written] in Hw1 |- *.
      destruct (makeDirectory (files st) (name t)) as [fa [|]]; [|discriminate].
      destruct (writeSource fa (name t) code) as [fb [|]]; [|discriminate].
      injection Hw1 as <-. cbn [files] in Hw. split; [exact Hw|].
      cbn [sprites]. now rewrite <- app_assoc.
    + intros (codes & fs' & Hc & Hw & ->).
      inversion Hc as [|t0 code ts0 codes0 Hcode Hrest]; subst.
      cbn [combine written] in Hw.
      destruct (makeDirectory (files st) (name t)) as [fa [|]] eqn:Em; [|discriminate].
      destruct (writeSource fa (name t) code) as [fb [|]] eqn:Ew; [|discriminate].
      assert (Hone : writeActor fuel st (name t) (blocksOr (t_blocks t))
                       (valueOr (t_variables t)) (valueOr (t_lists t)) =
                     ({| files := fb; sprites := sprites st ++ [name t] |}, Finished)).
      { apply writeActor_finished. exists code, fb. split; [exact Hcode|].
        cbn [written]. now rewrite Em, Ew. }
      rewrite Hone in Ea. injection Ea as <- <-.
      apply IH. exists codes0, fs'. split; [exact Hrest|].
      cbn [files sprites]. split; [exact Hw|]. now rewrite <- app_assoc.
Qed.

(** X14. The runs that return are those in which every actor is
    generated and every operation on the file system succeeds: the
    stage and every target that is not marked as stage give a text;
    for each of them in turn, the stage first and the targets in the
    order of the project, the directory is made and the text written
    into it; and the end of the run, which writes the manifest, is
    given the name of the stage followed by the names of these
    targets. *)
Theorem project_files fuel (fs fs' : Files) (p : ProjectJson N) :
  createjvavscratchProject fuel fs p = (fs', Finished) <->
  exists stage codes fs'',
    stageCode fuel p = Ok stage /\
    Forall2 (fun t code => targetCode fuel t = Ok code)
            (spriteTargets (targets p)) codes /\
    written fs (("Stage", stage) :: combine (spriteNames (targets p)) codes) =
      Some fs'' /\
    finishProject fs'' ("Stage" :: spriteNames (targets p)) = (fs', true).
Proof.
  unfold createjvavscratchProject, writeStage, stageCode.
  destruct (writeActor fuel _ "Stage" _ _ _) as [st1 ending1] eqn:Es. split.
  - intros H.
    assert (ending1 = Finished) as -> by (destruct ending1; congruence).
    apply writeActor_finished in Es as (stage & fs1 & Hstage & Hw1 & ->).
    destruct (writeSprites fuel (targets p) _) as [st2 ending2] eqn:Et.
    assert (ending2 = Finished) as -> by (destruct ending2; congruence).
    apply writeSprites_finished in Et as (codes & fs2 & Hc & Hw2 & ->).
    cbn [files sprites app] in *.
    destruct (finishProject fs2 _) as [fs3 [|]] eqn:Ef; [|discriminate].
    injection H as <-. exists stage, codes, fs2.
    split; [exact Hstage|]. split; [exact Hc|]. split; [|exact Ef].
    cbn [written] in Hw1 |- *.
    destruct (makeDirectory fs "Stage") as [fa [|]]; [|discriminate].
    destruct (writeSource fa "Stage" stage) as [fb [|]]; [|discriminate].
    injection Hw1 as <-. exact Hw2.
  - intros (stage & codes & fs'' & Hstage & Hc & Hw & Hf).
    cbn [written] in Hw.
    destruct (makeDirectory fs "Stage") as [fa [|]] eqn:Em; [|discriminate].
    destruct (writeSource fa "Stage" stage) as [fb [|]] eqn:Ew; [|discriminate].
    assert (Hone : writeActor fuel {| files := fs; sprites := [] |} "Stage"
                     (stageBlocks p) (stageValue p t_variables)
                     (stageValue p t_lists) =
                   ({| files := fb; sprites := ["Stage"] |}, Finished)).
    { apply writeActor_finished. exists stage, fb. split; [exact Hstage|].
      cbn [written files]. now rewrite Em, Ew. }
    rewrite Hone in Es. injection Es as <- <-.
    assert (Htwo : writeSprites fuel (targets p) {| files := fb; sprites := ["Stage"] |} =
                   ({| files := fs'';
                       sprites := "Stage" :: spriteNames (targets p) |}, Finished)).
    { apply writeSprites_finished. exists codes, fs''. auto. }
    rewrite Htwo. cbn [files sprites]. now rewrite Hf.
Qed.

End Loop.

(** ** Opcode lists of the two functions *)

(** X15. Every opcode whose case in [decompileBlock] returns a text is
    one that [processInput] takes for an expression: the text of such a
    block is passed on as it is, never trimmed. *)
Theorem returned_opcodes_are_expressions (op : string) :
  isStatement op = false -> isExpressionOpcode op = true.
Proof.
  unfold isStatement, classify, opcodeTable. cbn [assoc].
  repeat
    match goal with
    | |- context [String.eqb ?k op] =>
        destruct (String.eqb_spec k op) as [<-|?];
        [ first [ discriminate | intros _; vm_compute; reflexivity ] | ]
    end.
  discriminate.
Qed.

Lemma returned_opcodes_are_expressions_witness :
  isExpressionOpcode "sensing_mousex" = true.
Proof. exact (returned_opcodes_are_expressions "sensing_mousex" eq_refl). Defined.

(** ** Properties of [uuid] *)

Section UuidProperties.

Context {A : Type}.

Lemma randomIndex_lt (r : Q) (n : nat) :
  (0 <= r)%Q -> (r < 1)%Q -> (0 < n)%nat -> (randomIndex r n < n)%nat.
Proof.
  intros H0 H1 Hn. unfold randomIndex.
  set (x := (r * inject_Z (Z.of_nat n))%Q).
  assert (Hnpos : (0 < inject_Z (Z.of_nat n))%Q).
  { change 0%Q with (inject_Z 0). rewrite <- Zlt_Qlt. lia. }
  assert (Hx0 : (0 <= x)%Q).
  { unfold x. apply Qmult_le_0_compat; [exact H0|now apply Qlt_le_weak]. }
  assert (Hx1 : (x < inject_Z (Z.of_nat n))%Q).
  { unfold x. rewrite <- (Qmult_1_l (inject_Z (Z.of_nat n))) at 2.
    now apply Qmult_lt_compat_r. }
  assert (Hf0 : (0 <= Qfloor x)%Z).
  { change 0%Z with (Qfloor (inject_Z 0)). now apply Qfloor_resp_le. }
  assert (Hf1 : (Qfloor x < Z.of_nat n)%Z).
  { rewrite Zlt_Qlt. eapply Qle_lt_trans; [apply Qfloor_le|exact Hx1]. }
  lia.
Qed.

Lemma charAt_in (s : list A) i : (i < length s)%nat ->
  exists c, charAt s i = [c] /\ In c s.
Proof.
  intros Hi. unfold charAt.
  destruct (nth_error s i) as [c|] eqn:E.
  - exists c. split; [reflexivity|]. now apply nth_error_In in E.
  - apply nth_error_None in E. lia.
Qed.

Lemma uuidLoop_shape (random : nat -> Q) (Include : list A) i n result :
  (forall k, (0 <= random k)%Q /\ (random k < 1)%Q) ->
  Include <> [] ->
  Forall (fun c => In c Include) result ->
  length (uuidLoop random Include i n result) = (length result + n)%nat /\
  Forall (fun c => In c Include) (uuidLoop random Include i n result).
Proof.
  intros Hr Hne. revert i result.
  induction n as [|n IH]; intros i result Hres; simpl.
  - split; [lia|exact Hres].
  - destruct (charAt_in Include (randomIndex (random i) (length Include)))
      as (c & -> & Hc).
    { apply randomIndex_lt; try apply Hr. destruct Include; [contradiction|simpl; lia]. }
    destruct (IH (S i) (result ++ [c])%list) as [Hl Hf].
    { apply Forall_app. split; [exact Hres|]. now constructor. }
    split; [|exact Hf]. rewrite Hl, length_app. simpl. lia.
Qed.

Lemma uuidLoop_empty (random : nat -> Q) i n (result : list A) :
  uuidLoop random [] i n result = result.
Proof.
  revert i result. induction n as [|n IH]; intros i result; simpl; [reflexivity|].
  unfold charAt. destruct (randomIndex (random i) 0); simpl;
    now rewrite IH, app_nil_r.
Qed.

(** X16. With samples in [0, 1), the identifier has exactly [Length]
    code units (32 by default), each of them taken from the alphabet;
    from an empty alphabet it is the empty string. *)
Theorem uuid_shape (random : nat -> Q) (Include : list A) (Length : option nat) :
  (forall k, (0 <= random k)%Q /\ (random k < 1)%Q) ->
  (Include = [] -> uuid random Include Length = []) /\
  (Include <> [] ->
   length (uuid random Include Length) =
     match Length with Some n => n | None => 32%nat end /\
   Forall (fun c => In c Include) (uuid random Include Length)).
Proof.
  intros Hr. split.
  - intros ->. apply uuidLoop_empty.
  - intros Hne. unfold uuid.
    destruct (uuidLoop_shape random Include 0
                (match Length with Some n => n | None => 32%nat end) []
                Hr Hne (List.Forall_nil _)) as [Hl Hf].
    split; [exact Hl|exact Hf].
Qed.

End UuidProperties.

Lemma ex_random_unit k : (0 <= ex_random k)%Q /\ (ex_random k < 1)%Q.
Proof.
  unfold ex_random.
  assert (H : (k mod 7 < 7)%nat) by (apply Nat.mod_upper_bound; lia).
  split; unfold Qle, Qlt; simpl; lia.
Qed.

Lemma uuid_shape_witness :
  length (uuid ex_random ex_hex None) = 32%nat /\
  Forall (fun c => In c ex_hex) (uuid ex_random ex_hex None).
Proof.
  refine (proj2 (uuid_shape ex_random ex_hex None ex_random_unit) _).
  discriminate.
Defined.

(** ** Properties of [evaluate] *)

Section EvaluateProperties.

Context {Args R : Type}.

Lemma assoc_app_Some {B : Type} k (l l' : list (string * B)) v :
  assoc k l = Some v -> assoc k (l ++ l') = Some v.
Proof.
  induction l as [|[k' v'] l IH]; simpl; [discriminate|].
  destruct (String.eqb k' k); auto.
Qed.

(** X17. A registered implementation decides alone: once a type name
    has an implementation in the package list, neither the generator
    files nor implementations registered after it change the result,
    and nothing is written to the error console. *)
Theorem evaluate_registered (builtin builtin' : string -> option (Loaded Args R))
    (type : string) (args : Args)
    (type_implements more : list (string * Loaded Args R)) data :
  assoc type type_implements = Some data ->
  evaluate builtin type args (type_implements ++ more) =
    evaluate builtin' type args type_implements /\
  (evaluate builtin type args type_implements).1 = [].
Proof.
  intros H. unfold evaluate.
  rewrite (assoc_app_Some type type_implements more data H), H. auto.
Qed.

(** X18. [evaluate] returns a value exactly when a callable is found,
    first among the registered implementations and otherwise in the
    generator file of that name, and then nothing is written to the
    error console.  In every other case the call raises a [TypeError]:
    without a line on the console when what was found is not callable,
    and after exactly one line, which names the type, when nothing was
    found at all. *)
Theorem evaluate_result (builtin : string -> option (Loaded Args R))
    (type : string) (args : Args)
    (type_implements : list (string * Loaded Args R)) :
  (forall r log,
     evaluate builtin type args type_implements = (log, Ok r) <->
     log = [] /\
     exists f, r = f args /\
       (assoc type type_implements = Some (Callable f) \/
        (assoc type type_implements = None /\ builtin type = Some (Callable f)))) /\
  (forall e log,
     evaluate builtin type args type_implements = (log, Throw e) <->
     e = TypeError /\
     ((log = [] /\
       (assoc type type_implements = Some NotCallable \/
        (assoc type type_implements = None /\ builtin type = Some NotCallable))) \/
      (log = ["[internal] attempt to load non-existant type: " +:+ type] /\
       assoc type type_implements = None /\ builtin type = None))).
Proof.
  unfold evaluate. split.
  - intros r log.
    destruct (assoc type type_implements) as [[f|]|] eqn:Ea; simpl.
    + split.
      * intros [= <- <-]. split; [reflexivity|]. exists f. auto.
      * intros (-> & g & -> & [[= <-]|[[=] _]]). reflexivity.
    + split; [discriminate|].
      intros (_ & g & _ & [[=]|[[=] _]]).
    + destruct (builtin type) as [[f|]|] eqn:Eb; simpl.
      * split.
        -- intros [= <- <-]. split; [reflexivity|]. exists f. auto.
        -- intros (-> & g & -> & [[=]|[_ [= <-]]]). reflexivity.
      * split; [discriminate|].
        intros (_ & g & _ & [[=]|[_ [=]]]).
      * split; [discriminate|].
        intros (_ & g & _ & [[=]|[_ [=]]]).
  - intros e log.
    destruct (assoc type type_implements) as [[f|]|] eqn:Ea; simpl.
    + split; [discriminate|].
      intros (_ & [(_ & [[=]|[[=] _]])|(_ & [=] & _)]).
    + split.
      * intros [= <- <-]. auto.
      * intros (-> & [(-> & _)|(_ & [=] & _)]). reflexivity.
    + destruct (builtin type) as [[f|]|] eqn:Eb; simpl.
      * split; [discriminate|].
        intros (_ & [(_ & [[=]|[_ [=]]])|(_ & _ & [=])]).
      * split.
        -- intros [= <- <-]. split; [reflexivity|]. left. split; [reflexivity|].
           right. auto.
        -- intros (-> & [(-> & _)|(_ & _ & [=])]). reflexivity.
      * split.
        -- intros [= <- <-]. split; [reflexivity|]. right. auto.
        -- intros (-> & [(_ & [[=]|[_ [=]]])|(-> & _)]). reflexivity.
Qed.

End EvaluateProperties.

Lemma evaluate_registered_witness :
  evaluate (fun _ => None) "number" 3%nat
    ([("number", Callable S)] ++ [("number", NotCallable)]) =
  evaluate (fun _ => Some NotCallable) "number" 3%nat [("number", Callable S)].
Proof.
  exact (proj1 (evaluate_registered (fun _ => None) (fun _ => Some NotCallable)
                  "number" 3%nat [("number", Callable S)] [("number", NotCallable)]
                  (Callable S) eq_refl)).
Defined.

Lemma project_files_witness :
  exists stage codes fs'',
    stageCode 2 {| stage := None; targets := [ex_dog] |} = Ok stage /\
    Forall2 (fun t code => targetCode 2 t = Ok code) (spriteTargets [ex_dog]) codes /\
    written (F := recordingFiles) []
      (("Stage", stage) :: combine (spriteNames [ex_dog]) codes) = Some fs'' /\
    finishProject (FileSystem := recordingFiles) fs'' ("Stage" :: spriteNames [ex_dog]) =
    ([ MadeDirectory "Stage"; WroteSource "Stage" ex_empty_code;
       MadeDirectory "Dog";
       WroteSource "Dog"
         ("// Decompiled from Scratch project" +:+ nl +:+ nl +:+
          "// Main code" +:+ nl +:+ "looks.show();" +:+ nl +:+ nl);
       FinishedProject ["Stage"; "Dog"] ], true).
Proof.
  apply (proj1 (project_files (N := decimalNumbers) (F := recordingFiles) 2 []
           [ MadeDirectory "Stage"; WroteSource "Stage" ex_empty_code;
             MadeDirectory "Dog";
             WroteSource "Dog"
               ("// Decompiled from Scratch project" +:+ nl +:+ nl +:+
                "// Main code" +:+ nl +:+ "looks.show();" +:+ nl +:+ nl);
             FinishedProject ["Stage"; "Dog"] ]
           {| stage := None; targets := [ex_dog] |})).
  vm_compute. reflexivity.
Defined.

(** ** Inputs that read as [null] *)

(** X19. Every input that is neither a reference under which the
    block object has something, a block or an inherited member, nor a
    literal of two or more elements is read as the text [null], without
    an exception and without a recursive call. *)
Theorem malformed_input_null {N : JSNumbers} fuel (blocks : list (string * Block N))
    input ind :
  malformedInput blocks input ->
  processInput fuel blocks input ind = Ok "null".
Proof.
  unfold malformedInput, processInput, processInput_with.
  intros [->|[(v & -> & Hv)|[->|[(x & ->)|[(ty & ref & more & -> & Hr)|
            (ty & d & more & -> & Hs & Ha)]]]]]; try reflexivity.
  - destruct v; try reflexivity. now destruct (Hv l).
  - now rewrite Hr.
  - destruct d as [| | |s|[|k [|v l]]|]; try reflexivity.
    + now destruct (Hs s).
    + now destruct (Ha k v l).
Qed.

Lemma malformed_input_null_witness :
  processInput 0 ex_ifelse_blocks (Some (JArr [ex_num 3; JStr "missing"])) 0 =
  Ok "null".
Proof.
  apply (malformed_input_null (N := decimalNumbers) 0 ex_ifelse_blocks).
  right. right. right. right. left.
  exists (ex_num 3), "missing", []. split; reflexivity.
Defined.
